(** * bake_vertex_colors.py: a shallow embedding and its verified properties

    The development follows [assets/models/bake_vertex_colors.py]:
    the mesh (OBJ) parser, the two material-library (MTL) readers, the
    texture sampler and the command-line driver.

    Conventions of the embedding.
    - A Python [str] is a [string]; a character is a code point below 256.
    - A Python [float] is an IEEE 754 binary64 value, written as a
      [spec_float] of the Standard Library with [prec = 53], [emax = 1024];
      the arithmetic is that of [SpecFloat], rounding to nearest, ties to
      even.
    - A Python [int] is a [Z]; the interpreter's limit on the number of
      digits that [int()] converts is left out.
    - A call that may raise returns a [result]: [Ok v] or [Raise e].
    - A text file is the [str] that the text-mode reader delivers (after
      decoding and newline translation); iterating over it yields its lines,
      each with its terminating newline.
    - [assert] statements are executed. Paths are POSIX paths; a path that
      exists names a text file, a directory, or a file that the process may
      not read.
    - The standard output is the list of the messages written to it; the
      terminal decides which messages it can encode, and gives the line
      that [input] reads or the end of the input. *)

From Stdlib Require Import ZArith Lia Bool List Ascii String.
From Stdlib Require Import Floats.SpecFloat.
From stdpp Require Import base option list strings gmap.

Local Open Scope string_scope.
Local Open Scope Z_scope.

(** ** Exceptions and fallible computations *)

Inductive exn : Type :=
| ValueError
| IndexError
| AssertionError
| OverflowError
| ZeroDivisionError
| FileNotFoundError
| IsADirectoryError
| PermissionError
| EOFError
| UnicodeEncodeError
| SystemExit (code : Z).

Inductive result (A : Type) : Type :=
| Ok (a : A)
| Raise (e : exn).
Arguments Ok {A} a.
Arguments Raise {A} e.

#[global] Instance result_ret : MRet result := fun A a => Ok a.
#[global] Instance result_bind : MBind result := fun A B k r =>
  match r with
  | Ok a => k a
  | Raise e => Raise e
  end.

Definition is_ok {A : Type} (r : result A) : bool :=
  match r with Ok _ => true | Raise _ => false end.

(** [xs[i]] for a non-negative literal index. *)
Definition index {A : Type} (xs : list A) (i : nat) : result A :=
  match nth_error xs i with
  | Some x => Ok x
  | None => Raise IndexError
  end.

(** ** Python string operations *)

Module Str.

(** [str.isspace] on one character: the whitespace code points below 256. *)
Definition is_space (c : ascii) : bool :=
  let n := nat_of_ascii c in
  ((9 <=? n) && (n <=? 13) || (28 <=? n) && (n <=? 32)
   || (n =? 133) || (n =? 160))%nat.

(** [str.lower] on one character: A-Z and the Latin-1 capitals. *)
Definition lower_char (c : ascii) : ascii :=
  let n := nat_of_ascii c in
  if ((65 <=? n) && (n <=? 90)
      || (192 <=? n) && (n <=? 222) && negb (n =? 215))%nat
  then ascii_of_nat (n + 32) else c.

Fixpoint lower (s : string) : string :=
  match s with
  | EmptyString => EmptyString
  | String c r => String (lower_char c) (lower r)
  end.

Definition is_empty (s : string) : bool :=
  match s with EmptyString => true | String _ _ => false end.

Fixpoint lstrip (s : string) : string :=
  match s with
  | EmptyString => EmptyString
  | String c r => if is_space c then lstrip r else s
  end.

Fixpoint rstrip (s : string) : string :=
  match s with
  | EmptyString => EmptyString
  | String c r =>
      let r' := rstrip r in
      if is_space c && is_empty r' then EmptyString else String c r'
  end.

(** [s.strip()] *)
Definition strip (s : string) : string := rstrip (lstrip s).

(** [s.startswith(p)] *)
Definition startswith (s p : string) : bool := String.prefix p s.

Definition cons_token (t : string) (ts : list string) : list string :=
  if is_empty t then ts else t :: ts.

(** The token being read at the head of [s], and the tokens after it. *)
Fixpoint split_go (s : string) : string * list string :=
  match s with
  | EmptyString => (EmptyString, [])
  | String c r =>
      let '(t, ts) := split_go r in
      if is_space c then (EmptyString, cons_token t ts) else (String c t, ts)
  end.

(** [s.split()]: the maximal runs of non-whitespace characters. *)
Definition split (s : string) : list string :=
  let '(t, ts) := split_go s in cons_token t ts.

(** The leading run of non-whitespace characters, and what follows it. *)
Fixpoint span_token (s : string) : string * string :=
  match s with
  | EmptyString => (EmptyString, EmptyString)
  | String c r =>
      if is_space c then (EmptyString, s)
      else let '(t, rest) := span_token r in (String c t, rest)
  end.

(** [s.split(None, 1)]: the first token, then the remainder with its leading
    whitespace removed, when that remainder is not empty. *)
Definition split1 (s : string) : list string :=
  let s1 := lstrip s in
  if is_empty s1 then []
  else
    let '(t, rest) := span_token s1 in
    let rest' := lstrip rest in
    if is_empty rest' then [t] else [t; rest'].

(** The field being read at the head of [s], and the fields after it. *)
Fixpoint split_on_go (sep : ascii) (s : string) : string * list string :=
  match s with
  | EmptyString => (EmptyString, [])
  | String c r =>
      let '(t, ts) := split_on_go sep r in
      if Ascii.eqb c sep then (EmptyString, t :: ts) else (String c t, ts)
  end.

(** [s.split(sep)] for a one-character separator. *)
Definition split_on (sep : ascii) (s : string) : list string :=
  let '(t, ts) := split_on_go sep s in t :: ts.

(** Iterating over a text: its lines, each with its newline. *)
Fixpoint lines (s : string) : list string :=
  match s with
  | EmptyString => []
  | String c r =>
      if Ascii.eqb c "010" then String c EmptyString :: lines r
      else match lines r with
           | [] => [String c EmptyString]
           | l :: ls => String c l :: ls
           end
  end.

Fixpoint concat (ls : list string) : string :=
  match ls with
  | [] => EmptyString
  | l :: ls' => l ++ concat ls'
  end.

End Str.

(** ** Numbers *)

Module Num.

Definition prec : Z := 53.
Definition emax : Z := 1024.

Abbreviation float := spec_float.

Definition fadd : float -> float -> float := SFadd prec emax.
Definition fsub : float -> float -> float := SFsub prec emax.
Definition fmul : float -> float -> float := SFmul prec emax.
Definition fdiv : float -> float -> float := SFdiv prec emax.

Definition is_digit (c : ascii) : bool :=
  let n := nat_of_ascii c in ((48 <=? n) && (n <=? 57))%nat.

Definition digit_val (c : ascii) : Z := Z.of_nat (nat_of_ascii c) - 48.

(** Whitespace that [int()] and [float()] skip around a literal. *)
Definition is_num_space (c : ascii) : bool :=
  let n := nat_of_ascii c in
  ((9 <=? n) && (n <=? 13) || (n =? 32) || (n =? 133) || (n =? 160))%nat.

Fixpoint lskip (s : string) : string :=
  match s with
  | EmptyString => EmptyString
  | String c r => if is_num_space c then lskip r else s
  end.

Fixpoint rskip (s : string) : string :=
  match s with
  | EmptyString => EmptyString
  | String c r =>
      let r' := rskip r in
      if is_num_space c && Str.is_empty r' then EmptyString else String c r'
  end.

(** A sign character, and the rest. *)
Definition take_sign (s : string) : bool * string :=
  match s with
  | String "-" r => (true, r)
  | String "+" r => (false, r)
  | _ => (false, s)
  end.

(** A run of decimal digits in which single underscores may separate two
    digits: its value, the number of digits, and what follows the run.
    [acc] and [n] are the value and the count read so far. *)
Fixpoint digits_go (acc : Z) (n : Z) (s : string) : Z * Z * string :=
  match s with
  | String c r =>
      if is_digit c then digits_go (10 * acc + digit_val c) (n + 1) r
      else if Ascii.eqb c "_" then
        match r with
        | String d r' =>
            if is_digit d && (0 <? n) then
              digits_go (10 * acc + digit_val d) (n + 1) r'
            else (acc, n, s)
        | EmptyString => (acc, n, s)
        end
      else (acc, n, s)
  | EmptyString => (acc, n, s)
  end.

Definition digits (s : string) : Z * Z * string := digits_go 0 0 s.

(** [int(s)] for a [str]. *)
Definition py_int (s : string) : result Z :=
  let '(neg, body) := take_sign (rskip (lskip s)) in
  let '(v, n, rest) := digits body in
  if (0 <? n) && Str.is_empty rest
  then Ok (if neg then - v else v)
  else Raise ValueError.

(** The correctly rounded binary64 value of [m * 10 ^ e], for [m > 0]. *)
Definition round_decimal (neg : bool) (m : positive) (e : Z) : float :=
  match e with
  | Zneg k =>
      let '(q, e', l) :=
        SFdiv_core_binary prec emax (Zpos m) 0 (Zpos (10 ^ k)) 0 in
      binary_round_aux prec emax neg q e' l
  | _ => binary_round prec emax neg (m * Z.to_pos (10 ^ e)) 0
  end.

(** The exponent part of a decimal literal: [e], an optional sign, digits.
    When no digit follows, the [e] is not part of the literal. *)
Definition exponent (s : string) : Z * string :=
  match s with
  | String c r =>
      if Ascii.eqb c "e" || Ascii.eqb c "E" then
        let '(neg, r1) := take_sign r in
        let '(v, n, rest) := digits r1 in
        if 0 <? n then (if neg then - v else v, rest) else (0, s)
      else (0, s)
  | EmptyString => (0, s)
  end.

(** [float(s)] for a [str]: a decimal literal, or [inf], [infinity], [nan]
    in any case, with an optional sign. *)
Definition py_float (s : string) : result float :=
  let '(neg, body) := take_sign (rskip (lskip s)) in
  let low := Str.lower body in
  if String.eqb low "inf" || String.eqb low "infinity" then
    Ok (S754_infinity neg)
  else if String.eqb low "nan" then Ok S754_nan
  else
    let '(ip, n1, r1) := digits body in
    let '(fp, n2, r2) :=
      match r1 with
      | String "." r => digits_go ip 0 r
      | _ => (ip, 0, r1)
      end in
    let '(ex, r3) := exponent r2 in
    if (0 <? n1 + n2) && Str.is_empty r3 then
      match fp with
      | Zpos m => Ok (round_decimal neg m (ex - n2))
      | _ => Ok (S754_zero neg)
      end
    else Raise ValueError.

(** The conversion of an [int] operand of a float operation. *)
Definition float_of_int (n : Z) : result float :=
  match binary_normalize prec emax n 0 false with
  | S754_infinity _ => Raise OverflowError
  | x => Ok x
  end.

(** [int(x)] for a [float]: truncation towards zero. *)
Definition int_of_float (x : float) : result Z :=
  match x with
  | S754_nan => Raise ValueError
  | S754_infinity _ => Raise OverflowError
  | S754_zero _ => Ok 0
  | S754_finite s m e =>
      let a := match e with
               | Zneg k => Z.shiftr (Zpos m) (Zpos k)
               | _ => Z.shiftl (Zpos m) e
               end in
      Ok (if s then - a else a)
  end.

(** The C library's [fmod]: the exact remainder, with the sign of [x]. *)
Definition fmod (x y : float) : float :=
  match x, y with
  | S754_nan, _ | _, S754_nan => S754_nan
  | S754_infinity _, _ => S754_nan
  | _, S754_zero _ => S754_nan
  | _, S754_infinity _ => x
  | S754_zero _, _ => x
  | S754_finite sx mx ex, S754_finite _ my ey =>
      let ez := Z.min ex ey in
      let r := Z.rem (Zpos (fst (shl_align mx ex ez)))
                     (Zpos (fst (shl_align my ey ez))) in
      binary_normalize prec emax (cond_Zopp sx r) ez sx
  end.

Definition is_zero (x : float) : bool :=
  match x with S754_zero _ => true | _ => false end.

Definition fzero : float := S754_zero false.

(** [x % y] on floats: [fmod], moved to the sign of [y]. *)
Definition py_mod (x y : float) : result float :=
  if is_zero y then Raise ZeroDivisionError
  else
    let m := fmod x y in
    if negb (SFeqb m fzero) then
      if negb (Bool.eqb (SFltb y fzero) (SFltb m fzero))
      then Ok (fadd m y) else Ok m
    else Ok (if SFltb y fzero then S754_zero true else S754_zero false).

(** Neither an infinity nor a NaN. *)
Definition is_finite (x : float) : bool :=
  match x with
  | S754_zero _ | S754_finite _ _ _ => true
  | _ => false
  end.

(** The value of [x] lies between 0 and 1, both included, and [x] has the
    sign of a non-negative number: [x] is [+0.0], or [m * 2 ^ e] with
    [m <= 2 ^ (- e)]. *)
Definition in_unit (x : float) : Prop :=
  match x with
  | S754_zero false => True
  | S754_finite false m e => Zpos m <= 2 ^ (- e)
  | _ => False
  end.

(** A zero or a positive number. *)
Definition nonneg_finite (x : float) : Prop :=
  match x with
  | S754_zero false | S754_finite false _ _ => True
  | _ => False
  end.

(** The floor of the value of a finite [x]. *)
Definition floor (x : float) : option Z :=
  match x with
  | S754_zero _ => Some 0
  | S754_finite s m e =>
      let a := if s then Zneg m else Zpos m in
      Some (match e with
            | Zneg k => a / 2 ^ Zpos k
            | _ => a * 2 ^ e
            end)
  | _ => None
  end.

(** The float that the literal [s] denotes. *)
Definition lit (s : string) : float :=
  match py_float s with
  | Ok x => x
  | Raise _ => S754_nan
  end.

End Num.


(** A value used as a condition: a non-empty string is true. *)
Definition truthy (s : string) : bool := negb (Str.is_empty s).

(** ** The mesh parser: [parse_obj] *)

Module Obj.
Import Num.

Record Position := mkPosition { x : float; y : float; z : float }.

Record TexCoord := mkTexCoord { u : float; v : float }.

Record Normal := mkNormal { nx : float; ny : float; nz : float }.

Record FaceVertex := mkFaceVertex {
  position_index : option Z;
  texcoord_index : option Z;
  normal_index : option Z
}.

Record Face := mkFace {
  vertices : list FaceVertex;
  material : string;
  line : string
}.

(** An element of [out_lines]: a pair of a kind and an index, or a line. *)
Inductive OutLine : Type :=
| Tagged (kind : string) (idx : nat)
| Verbatim (text : string).

Record OBJ := mkOBJ {
  positions : list Position;
  texcoords : list TexCoord;
  normals : list Normal;
  faces : list Face;
  out_lines : list OutLine;
  current_material : string
}.

(** [OBJ()] *)
Definition empty : OBJ := mkOBJ [] [] [] [] [] "".

Definition append_out (o : OutLine) (obj : OBJ) : OBJ :=
  mkOBJ (positions obj) (texcoords obj) (normals obj) (faces obj)
        (out_lines obj ++ [o]) (current_material obj).

Definition append_position (p : Position) (obj : OBJ) : OBJ :=
  mkOBJ (positions obj ++ [p]) (texcoords obj) (normals obj) (faces obj)
        (out_lines obj) (current_material obj).

Definition append_texcoord (t : TexCoord) (obj : OBJ) : OBJ :=
  mkOBJ (positions obj) (texcoords obj ++ [t]) (normals obj) (faces obj)
        (out_lines obj) (current_material obj).

Definition append_normal (n : Normal) (obj : OBJ) : OBJ :=
  mkOBJ (positions obj) (texcoords obj) (normals obj ++ [n]) (faces obj)
        (out_lines obj) (current_material obj).

Definition append_face (f : Face) (obj : OBJ) : OBJ :=
  mkOBJ (positions obj) (texcoords obj) (normals obj) (faces obj ++ [f])
        (out_lines obj) (current_material obj).

Definition set_current_material (m : string) (obj : OBJ) : OBJ :=
  mkOBJ (positions obj) (texcoords obj) (normals obj) (faces obj)
        (out_lines obj) m.

(** [float(parts[i])] *)
Definition float_at (parts : list string) (i : nat) : result float :=
  p ← index parts i; py_float p.

(** One part of a face-vertex token: [int(parts[i]) - 1] when the guard
    holds and the part is not empty, [None] otherwise. *)
Definition index_part (guard : bool) (parts : list string) (i : nat)
  : result (option Z) :=
  if guard && truthy (nth i parts "") then
    n ← py_int (nth i parts ""); Ok (Some (n - 1))
  else Ok None.

(** The body of the loop over the tokens of a face line. *)
Definition parse_face_vertex (vert : string) : result FaceVertex :=
  let parts := Str.split_on "/" vert in
  v_idx ← index_part (1 <=? length parts)%nat parts 0;
  vt_idx ← index_part (2 <=? length parts)%nat parts 1;
  vn_idx ← index_part (length parts =? 3)%nat parts 2;
  Ok (mkFaceVertex v_idx vt_idx vn_idx).

(** [Position(float(parts[1]), float(parts[2]), float(parts[3]))] *)
Definition read_position (parts : list string) : result Position :=
  a ← float_at parts 1; b ← float_at parts 2; c ← float_at parts 3;
  Ok (mkPosition a b c).

(** [TexCoord(float(parts[1]), float(parts[2]))] *)
Definition read_texcoord (parts : list string) : result TexCoord :=
  a ← float_at parts 1; b ← float_at parts 2; Ok (mkTexCoord a b).

(** [Normal(float(parts[1]), float(parts[2]), float(parts[3]))] *)
Definition read_normal (parts : list string) : result Normal :=
  a ← float_at parts 1; b ← float_at parts 2; c ← float_at parts 3;
  Ok (mkNormal a b c).

(** The body of the loop over the lines of the file. *)
Definition parse_line (obj : OBJ) (line : string) : result OBJ :=
  let line_strip := Str.strip line in
  if Str.startswith line "v " then
    pos ← read_position (Str.split line_strip);
    let obj := append_position pos obj in
    Ok (append_out (Tagged "v" (length (positions obj) - 1)) obj)
  else if Str.startswith line "vt " then
    tex ← read_texcoord (Str.split line_strip);
    let obj := append_texcoord tex obj in
    Ok (append_out (Tagged "vt" (length (texcoords obj) - 1)) obj)
  else if Str.startswith line "vn " then
    norm ← read_normal (Str.split line_strip);
    let obj := append_normal norm obj in
    Ok (append_out (Tagged "vn" (length (normals obj) - 1)) obj)
  else if Str.startswith (Str.lower line_strip) "usemtl" then
    m ← index (Str.split1 line_strip) 1;
    Ok (append_out (Verbatim line) (set_current_material m obj))
  else if Str.startswith (Str.lower line_strip) "f " then
    face_vertices ← mapM parse_face_vertex (tail (Str.split line_strip));
    let face := mkFace face_vertices (current_material obj) line_strip in
    Ok (append_out (Verbatim line) (append_face face obj))
  else
    Ok (append_out (Verbatim line) obj).

Fixpoint parse_lines (obj : OBJ) (ls : list string) : result OBJ :=
  match ls with
  | [] => Ok obj
  | l :: ls' => obj' ← parse_line obj l; parse_lines obj' ls'
  end.

(** [parse_obj] on the text of the file. *)
Definition parse_text (text : string) : result OBJ :=
  parse_lines empty (Str.lines text).

End Obj.


(** ** The material-library readers: [parse_mtl] and [parse_mtl_file] *)

Module Mtl.
Import Num.

Record Material := mkMaterial {
  name : string;
  ambient : option (list float);
  diffuse : option (list float);
  specular : option (list float);
  shininess : option float;
  alpha : option float;
  illum : option Z;
  map_Ka : option string;
  map_Kd : option string;
  map_Ks : option string;
  map_Ns : option string;
  map_d : option string;
  map_bump : option string;
  extra_props : gmap string string
}.

(** [Material(name=value)] *)
Definition new_material (value : string) : Material :=
  mkMaterial value None None None None None None
             None None None None None None ∅.

(** [current_material] refers to an element of [materials]: it is kept as
    the index of that element, so that an assignment to one of its fields
    changes the element of the list. *)
Record MTL := mkMTL {
  materials : list Material;
  out_lines : list string;
  current_material : option nat
}.

(** [MTL()] *)
Definition empty : MTL := mkMTL [] [] None.

Definition append_out (l : string) (mtl : MTL) : MTL :=
  mkMTL (materials mtl) (out_lines mtl ++ [l]) (current_material mtl).

(** [mtl.materials.append(mat); mtl.current_material = mat] *)
Definition append_material (mat : Material) (mtl : MTL) : MTL :=
  mkMTL (materials mtl ++ [mat]) (out_lines mtl)
        (Some (length (materials mtl))).

(** An assignment to a field of [mtl.current_material]. *)
Definition update_current (f : Material -> Material) (i : nat) (mtl : MTL)
  : MTL :=
  mkMTL (alter f i (materials mtl)) (out_lines mtl) (current_material mtl).

Definition set_ambient (a : list float) (m : Material) : Material :=
  mkMaterial (name m) (Some a) (diffuse m) (specular m) (shininess m)
    (alpha m) (illum m) (map_Ka m) (map_Kd m) (map_Ks m) (map_Ns m)
    (map_d m) (map_bump m) (extra_props m).

Definition set_diffuse (a : list float) (m : Material) : Material :=
  mkMaterial (name m) (ambient m) (Some a) (specular m) (shininess m)
    (alpha m) (illum m) (map_Ka m) (map_Kd m) (map_Ks m) (map_Ns m)
    (map_d m) (map_bump m) (extra_props m).

Definition set_specular (a : list float) (m : Material) : Material :=
  mkMaterial (name m) (ambient m) (diffuse m) (Some a) (shininess m)
    (alpha m) (illum m) (map_Ka m) (map_Kd m) (map_Ks m) (map_Ns m)
    (map_d m) (map_bump m) (extra_props m).

Definition set_shininess (a : float) (m : Material) : Material :=
  mkMaterial (name m) (ambient m) (diffuse m) (specular m) (Some a)
    (alpha m) (illum m) (map_Ka m) (map_Kd m) (map_Ks m) (map_Ns m)
    (map_d m) (map_bump m) (extra_props m).

Definition set_alpha (a : float) (m : Material) : Material :=
  mkMaterial (name m) (ambient m) (diffuse m) (specular m) (shininess m)
    (Some a) (illum m) (map_Ka m) (map_Kd m) (map_Ks m) (map_Ns m)
    (map_d m) (map_bump m) (extra_props m).

Definition set_illum (a : Z) (m : Material) : Material :=
  mkMaterial (name m) (ambient m) (diffuse m) (specular m) (shininess m)
    (alpha m) (Some a) (map_Ka m) (map_Kd m) (map_Ks m) (map_Ns m)
    (map_d m) (map_bump m) (extra_props m).

Definition set_map_Ka (a : string) (m : Material) : Material :=
  mkMaterial (name m) (ambient m) (diffuse m) (specular m) (shininess m)
    (alpha m) (illum m) (Some a) (map_Kd m) (map_Ks m) (map_Ns m)
    (map_d m) (map_bump m) (extra_props m).

Definition set_map_Kd (a : string) (m : Material) : Material :=
  mkMaterial (name m) (ambient m) (diffuse m) (specular m) (shininess m)
    (alpha m) (illum m) (map_Ka m) (Some a) (map_Ks m) (map_Ns m)
    (map_d m) (map_bump m) (extra_props m).

Definition set_map_Ks (a : string) (m : Material) : Material :=
  mkMaterial (name m) (ambient m) (diffuse m) (specular m) (shininess m)
    (alpha m) (illum m) (map_Ka m) (map_Kd m) (Some a) (map_Ns m)
    (map_d m) (map_bump m) (extra_props m).

Definition set_map_Ns (a : string) (m : Material) : Material :=
  mkMaterial (name m) (ambient m) (diffuse m) (specular m) (shininess m)
    (alpha m) (illum m) (map_Ka m) (map_Kd m) (map_Ks m) (Some a)
    (map_d m) (map_bump m) (extra_props m).

Definition set_map_d (a : string) (m : Material) : Material :=
  mkMaterial (name m) (ambient m) (diffuse m) (specular m) (shininess m)
    (alpha m) (illum m) (map_Ka m) (map_Kd m) (map_Ks m) (map_Ns m)
    (Some a) (map_bump m) (extra_props m).

Definition set_map_bump (a : string) (m : Material) : Material :=
  mkMaterial (name m) (ambient m) (diffuse m) (specular m) (shininess m)
    (alpha m) (illum m) (map_Ka m) (map_Kd m) (map_Ks m) (map_Ns m)
    (map_d m) (Some a) (extra_props m).

(** [m.extra_props[key] = value] *)
Definition set_extra (key value : string) (m : Material) : Material :=
  mkMaterial (name m) (ambient m) (diffuse m) (specular m) (shininess m)
    (alpha m) (illum m) (map_Ka m) (map_Kd m) (map_Ks m) (map_Ns m)
    (map_d m) (map_bump m) (<[key := value]> (extra_props m)).

(** [list(map(float, value.split()))] *)
Definition floats (value : string) : result (list float) :=
  mapM py_float (Str.split value).

(** The assignment that a directive makes to the current material. *)
Definition directive (key value : string) : result (Material -> Material) :=
  if String.eqb key "ka" then a ← floats value; Ok (set_ambient a)
  else if String.eqb key "kd" then a ← floats value; Ok (set_diffuse a)
  else if String.eqb key "ks" then a ← floats value; Ok (set_specular a)
  else if String.eqb key "ns" then a ← py_float value; Ok (set_shininess a)
  else if String.eqb key "d" then a ← py_float value; Ok (set_alpha a)
  else if String.eqb key "illum" then a ← py_int value; Ok (set_illum a)
  else if String.eqb key "map_ka" then Ok (set_map_Ka value)
  else if String.eqb key "map_kd" then Ok (set_map_Kd value)
  else if String.eqb key "map_ks" then Ok (set_map_Ks value)
  else if String.eqb key "map_ns" then Ok (set_map_Ns value)
  else if String.eqb key "map_d" then Ok (set_map_d value)
  else if String.eqb key "map_bump" || String.eqb key "bump"
  then Ok (set_map_bump value)
  else Ok (set_extra key value).

(** [assert value], for [value = parts[1] if len(parts) > 1 else None]. *)
Definition assert_value (value : option string) : result string :=
  match value with
  | Some v => if truthy v then Ok v else Raise AssertionError
  | None => Raise AssertionError
  end.

(** The body of the loop of [parse_mtl]. *)
Definition parse_line (mtl : MTL) (line : string) : result MTL :=
  let line_strip := Str.strip line in
  if negb (truthy line_strip) || Str.startswith line_strip "#" then
    Ok (append_out line mtl)
  else
    let parts := Str.split1 line_strip in
    p0 ← index parts 0;
    let key := Str.lower p0 in
    let value := if (1 <? length parts)%nat then nth_error parts 1 else None in
    value ← assert_value value;
    if String.eqb key "newmtl" then
      Ok (append_out line (append_material (new_material value) mtl))
    else
      match current_material mtl with
      | Some i =>
          f ← directive key value;
          Ok (append_out line (update_current f i mtl))
      | None => Ok (append_out line mtl)
      end.

Fixpoint parse_lines (mtl : MTL) (ls : list string) : result MTL :=
  match ls with
  | [] => Ok mtl
  | l :: ls' => mtl' ← parse_line mtl l; parse_lines mtl' ls'
  end.

(** [parse_mtl] on the text of the file. *)
Definition parse_text (text : string) : result MTL :=
  parse_lines empty (Str.lines text).

(** The state of the loop of [parse_mtl_file]: [mat_to_tex], [current_mat]. *)
Definition file_state : Type := gmap string string * option string.

Definition current_truthy (current_mat : option string) : bool :=
  match current_mat with Some m => truthy m | None => false end.

(** The body of the loop of [parse_mtl_file]. *)
Definition file_line (st : file_state) (line : string) : result file_state :=
  let '(mat_to_tex, current_mat) := st in
  let line := Str.strip line in
  if Str.startswith (Str.lower line) "newmtl" then
    m ← index (Str.split1 line) 1; Ok (mat_to_tex, Some m)
  else if current_truthy current_mat
          && Str.startswith (Str.lower line) "map_kd" then
    tex ← index (Str.split1 line) 1;
    Ok (<[default "" current_mat := tex]> mat_to_tex, current_mat)
  else Ok st.

Fixpoint file_lines (st : file_state) (ls : list string) : result file_state :=
  match ls with
  | [] => Ok st
  | l :: ls' => st' ← file_line st l; file_lines st' ls'
  end.

(** [parse_mtl_file] on the text of an existing file. *)
Definition file_text (text : string) : result (gmap string string) :=
  st ← file_lines (∅, None) (Str.lines text); Ok (fst st).

End Mtl.


(** ** The texture sampler: [sample_texture] *)

Module Tex.
Import Num.

(** The literals [1.0] and [255.0]. *)
Definition one : float := S754_finite false 4503599627370496 (-52).
Definition f255 : float := S754_finite false 8972014882652160 (-45).

(** The image is an object of the imaging library: the sampler reads its
    [size] and calls its [getpixel], which gives the bands of a pixel. *)
Record Image := mkImage {
  size : Z * Z;
  getpixel : Z * Z -> result (list Z)
}.

(** [n / c] for an [int] [n] and a non-zero [float] [c]. *)
Definition truediv (n : Z) (c : float) : result float :=
  nf ← float_of_int n; Ok (fdiv nf c).

(** [a * n] for a [float] [a] and an [int] [n]. *)
Definition mul_int (a : float) (n : Z) : result float :=
  nf ← float_of_int n; Ok (fmul a nf).

Definition sample_texture (image : Image) (u v : float)
  : result (float * float * float) :=
  let '(w, h) := size image in
  u_wrapped ← py_mod u one;
  v_wrapped ← py_mod v one;
  a ← mul_int u_wrapped w;
  a ← int_of_float a;
  let px := Z.min a (w - 1) in
  b ← mul_int (fsub one v_wrapped) h;
  b ← int_of_float b;
  let py := Z.min b (h - 1) in
  pix ← getpixel image (px, py);
  match take 3 pix with
  | [r; g; b] =>
      r' ← truediv r f255; g' ← truediv g f255; b' ← truediv b f255;
      Ok (r', g', b')
  | _ => Raise ValueError
  end.

End Tex.

(** ** The driver: [main] *)

Module Main.

(** What a path names: a text file that can be read, a directory, or a file
    that the process may not read. *)
Inductive node : Type :=
| Regular (text : string)
| Directory
| Unreadable.

(** The files that the run can see. *)
Abbreviation files := (gmap string node).

(** [open(path, "r")], read to the end. *)
Definition open_read (fs : files) (path : string) : result string :=
  match fs !! path with
  | Some (Regular text) => Ok text
  | Some Directory => Raise IsADirectoryError
  | Some Unreadable => Raise PermissionError
  | None => Raise FileNotFoundError
  end.

(** [os.path.exists(path)] *)
Definition exists_ (fs : files) (path : string) : bool :=
  bool_decide (is_Some (fs !! path)).

Definition parse_obj (fs : files) (file_path : string) : result Obj.OBJ :=
  text ← open_read fs file_path; Obj.parse_text text.

Definition parse_mtl (fs : files) (file_path : string) : result Mtl.MTL :=
  text ← open_read fs file_path; Mtl.parse_text text.

(** [p.rfind(c)] from position [i] on, [acc] being the last match so far. *)
Fixpoint rfind_go (c : ascii) (s : string) (i acc : Z) : Z :=
  match s with
  | EmptyString => acc
  | String a r => rfind_go c r (i + 1) (if Ascii.eqb a c then i else acc)
  end.

Definition rfind (c : ascii) (s : string) : Z := rfind_go c s 0 (-1).

(** [p[i:j]] for [0 <= i]. *)
Definition slice (p : string) (i j : Z) : string :=
  String.substring (Z.to_nat i) (Z.to_nat (j - i)) p.

(** Some character of [s] is not a dot. *)
Fixpoint has_non_dot (s : string) : bool :=
  match s with
  | EmptyString => false
  | String a r => negb (Ascii.eqb a ".") || has_non_dot r
  end.

(** [os.path.splitext(p)[0]], with [/] as the separator. *)
Definition splitext_root (p : string) : string :=
  let sepIndex := rfind "/" p in
  let dotIndex := rfind "." p in
  if (sepIndex <? dotIndex) && has_non_dot (slice p (sepIndex + 1) dotIndex)
  then slice p 0 dotIndex
  else p.

(** The result of [parse_args]. *)
Record Args := mkArgs {
  obj_in : string;
  mtl : option string;
  out : option string
}.

(** [a if a else d] for an optional string. *)
Definition or_default (a : option string) (d : string) : string :=
  match a with
  | Some s => if truthy s then s else d
  | None => d
  end.

(** What the run writes to its standard output. *)
Inductive message : Type :=
| Warn_exists (path : string)
| Prompt_overwrite
| Aborted
| Done (path : string).

(** The terminal of the run: the messages that its standard output can
    encode (the final message holds an arrow, U+2192, and the paths may hold
    any character), and the line that [input] reads, [None] when the input
    is at its end. *)
Record Console := mkConsole {
  can_print : message -> bool;
  answer : option string
}.

(** A step of the run: what it writes, and its result. *)
Definition io (A : Type) : Type := list message * result A.

Definition io_bind {A B : Type} (x : io A) (k : A -> io B) : io B :=
  match x with
  | (written, Ok a) => let '(more, r) := k a in ((written ++ more)%list, r)
  | (written, Raise e) => (written, Raise e)
  end.

(** A step that writes nothing. *)
Definition quiet {A : Type} (r : result A) : io A := ([], r).

(** [print(m)] *)
Definition print (con : Console) (m : message) : io unit :=
  if can_print con m then ([m], Ok tt) else ([], Raise UnicodeEncodeError).

(** [input(prompt)] *)
Definition input (con : Console) (prompt : message) : io string :=
  io_bind (print con prompt) (fun _ =>
  match answer con with
  | Some line => quiet (Ok line)
  | None => quiet (Raise EOFError)
  end).

(** [ask_overwrite(path)] *)
Definition ask_overwrite (con : Console) (path : string) : io unit :=
  io_bind (print con (Warn_exists path)) (fun _ =>
  io_bind (input con Prompt_overwrite) (fun line =>
  let ans := Str.lower (Str.strip line) in
  if String.eqb ans "y" then quiet (Ok tt)
  else io_bind (print con Aborted) (fun _ => quiet (Raise (SystemExit 1))))).

(** [args.out if args.out else splitext(args.obj_in)[0] + "_baked.obj"] *)
Definition obj_out_of (args : Args) : string :=
  or_default (out args) (splitext_root (obj_in args) ++ "_baked.obj").

(** [args.mtl if args.mtl else splitext(args.obj_in)[0] + ".mtl"] *)
Definition mtl_path_of (args : Args) : string :=
  or_default (mtl args) (splitext_root (obj_in args) ++ ".mtl").

(** [main()], after [parse_args]: what it writes, how it ends, and the files
    after the run. *)
Definition main (fs : files) (args : Args) (con : Console)
  : list message * result unit * files :=
  let obj_out := obj_out_of args in
  let run :=
    io_bind (if exists_ fs obj_out then ask_overwrite con obj_out
             else quiet (Ok tt)) (fun _ =>
    let mtl_path := mtl_path_of args in
    io_bind (quiet (parse_obj fs (obj_in args))) (fun obj =>
    io_bind (quiet (parse_mtl fs mtl_path)) (fun mtl =>
    print con (Done obj_out)))) in
  (run.1, run.2, fs).

End Main.


(** ** Notions used to state the properties *)

Definition nl : string := String "010" EmptyString.

Fixpoint has_char (c : ascii) (s : string) : bool :=
  match s with
  | EmptyString => false
  | String a r => Ascii.eqb a c || has_char c r
  end.

(** What a part of a token stands for: nothing when it is empty, and else
    the integer it spells, less one. *)
Definition part_index (p : string) : result (option Z) :=
  if Str.is_empty p then Ok None else n ← Num.py_int p; Ok (Some (n - 1)).

(** The first token of a line: the leading run of non-blank characters of
    the trimmed line. *)
Definition first_token (l : string) : string :=
  fst (Str.span_token (Str.lstrip (Str.strip l))).

(** The text after the first token of a directive line: the trimmed line,
    less its first token and the blanks after it. *)
Definition directive_value (l : string) : string :=
  Str.lstrip (snd (Str.span_token (Str.lstrip (Str.strip l)))).

Module ObjSpec.

(** The lines that the parser reads as a [usemtl] directive. *)
Definition usemtl_line (l : string) : bool :=
  Str.startswith (Str.lower (Str.strip l)) "usemtl".

(** The lines that the parser reads as a face. *)
Definition face_line (l : string) : bool :=
  negb (usemtl_line l) && Str.startswith (Str.lower (Str.strip l)) "f ".

(** The renderings of the three kinds of entity, which the spec leaves
    open, are parameters of the writer. *)
Section Writer.
Variable emit_v : Obj.Position -> string.
Variable emit_vt : Obj.TexCoord -> string.
Variable emit_vn : Obj.Normal -> string.

(** Modelled from the spec: the mesh writer is not in the source. This is
    what it emits for one record of the shadow sequence: a tagged record is
    emitted from its parsed entity, a verbatim record exactly as stored. A
    tag whose entity is missing emits nothing. *)
Definition replay_record (obj : Obj.OBJ) (o : Obj.OutLine) : string :=
  match o with
  | Obj.Verbatim text => text
  | Obj.Tagged kind i =>
      if String.eqb kind "v" then
        from_option emit_v "" (Obj.positions obj !! i)
      else if String.eqb kind "vt" then
        from_option emit_vt "" (Obj.texcoords obj !! i)
      else if String.eqb kind "vn" then
        from_option emit_vn "" (Obj.normals obj !! i)
      else ""
  end.

(** Modelled from the spec: the mesh writer is not in the source. It replays
    the shadow sequence in order and joins what the records emit. *)
Definition replay (obj : Obj.OBJ) : string :=
  Str.concat (map (replay_record obj) (Obj.out_lines obj)).

(** The renderings give back the line [l] from the entity read from it. *)
Definition rendered (l : string) : Prop :=
  (Str.startswith l "v " = true ->
   forall p, Obj.read_position (Str.split (Str.strip l)) = Ok p ->
             emit_v p = l)
  /\ (Str.startswith l "vt " = true ->
      forall t, Obj.read_texcoord (Str.split (Str.strip l)) = Ok t ->
                emit_vt t = l)
  /\ (Str.startswith l "vn " = true ->
      forall n, Obj.read_normal (Str.split (Str.strip l)) = Ok n ->
                emit_vn n = l).
End Writer.

(** The entity that a tagged record points at exists. *)
Definition tag_in_range (obj : Obj.OBJ) (o : Obj.OutLine) : Prop :=
  match o with
  | Obj.Verbatim _ => True
  | Obj.Tagged kind i =>
      if String.eqb kind "v" then (i < length (Obj.positions obj))%nat
      else if String.eqb kind "vt" then (i < length (Obj.texcoords obj))%nat
      else if String.eqb kind "vn" then (i < length (Obj.normals obj))%nat
      else True
  end.

(** The names of the materials of the faces, in order. *)
Definition face_materials (obj : Obj.OBJ) : list string :=
  map Obj.material (Obj.faces obj).

End ObjSpec.

Module MtlSpec.

(** The mapping from material name to diffuse texture that the materials of
    [parse_mtl] give: each material with a [map_Kd], in order, a later one
    replacing an earlier one of the same name. *)
Definition kd_map (materials : list Mtl.Material) : gmap string string :=
  fold_left
    (fun acc m =>
       match Mtl.map_Kd m with
       | Some tex => <[Mtl.name m := tex]> acc
       | None => acc
       end)
    materials ∅.

(** A line that starts with the keyword [kw] has [kw] as its first token. *)
Definition delimited (kw : string) (l : string) : bool :=
  implb (Str.startswith (Str.lower (Str.strip l)) kw)
        (String.eqb (Str.lower (first_token l)) kw).

(** Every [newmtl] and [map_Kd] keyword of the text is a token of its own. *)
Definition keywords_delimited (text : string) : bool :=
  forallb (fun l => delimited "newmtl" l && delimited "map_kd" l)
          (Str.lines text).

(** The two loops agree: the mapping is the one of the materials read so
    far, and the current material of one is the name of the last material of
    the other. *)
Definition related (mtl : Mtl.MTL) (st : Mtl.file_state) : Prop :=
  fst st = kd_map (Mtl.materials mtl)
  /\ match Mtl.current_material mtl with
     | None => snd st = None
     | Some i =>
         exists init mat,
           Mtl.materials mtl = (init ++ [mat])%list /\ i = length init
           /\ snd st = Some (Mtl.name mat) /\ truthy (Mtl.name mat) = true
     end.

End MtlSpec.

Module MainSpec.

(** A mesh whose face uses the material M, and a library in which M declares
    the diffuse map [missing.png]; no such file exists. *)
Definition broken_assets : Main.files :=
  <["m.obj" := Main.Regular
                 ("vt 0.5 0.5" ++ nl ++ "v 0 0 0" ++ nl ++ "usemtl M" ++ nl
                  ++ "f 1/1 1/1 1/1" ++ nl)]>
    (<["m.mtl" := Main.Regular
                    ("newmtl M" ++ nl ++ "map_Kd missing.png" ++ nl)]> ∅).

Definition plain_args : Main.Args := Main.mkArgs "m.obj" None None.

(** A terminal that can write every message, and at which [line] is
    typed. *)
Definition terminal (line : option string) : Main.Console :=
  Main.mkConsole (fun _ => true) line.

(** Some face of the mesh uses a material of the library whose diffuse map
    is not among the files. *)
Definition missing_texture (fs : Main.files) (obj : Obj.OBJ) (mtl : Mtl.MTL)
  : Prop :=
  exists face mat tex,
    In face (Obj.faces obj) /\ In mat (Mtl.materials mtl)
    /\ Mtl.name mat = Obj.material face
    /\ Mtl.map_Kd mat = Some tex /\ fs !! tex = None.

End MainSpec.

Module TexSpec.
Import Num.

(** What the imaging library gives for an 8-bit colour image: sizes that fit
    a C [int], and at least three bands, each from 0 to 255, at every
    position inside the image. *)
Definition library_image (image : Tex.Image) : Prop :=
  let '(w, h) := Tex.size image in
  w < 2 ^ 31 /\ h < 2 ^ 31
  /\ forall x y, 0 <= x < w -> 0 <= y < h ->
       exists r g b rest,
         Tex.getpixel image (x, y) = Ok (r :: g :: b :: rest)
         /\ 0 <= r <= 255 /\ 0 <= g <= 255 /\ 0 <= b <= 255.

(** A band divided by [255.0] is a value between 0 and 1. *)
Definition band_ok (r : Z) : bool :=
  match Tex.truediv r Tex.f255 with
  | Ok (S754_zero false) => true
  | Ok (S754_finite false m e) => Zpos m <=? 2 ^ (- e)
  | _ => false
  end.

(** A 2 x 2 image: red and green on the top row, blue and white below. *)
Definition checker : Tex.Image :=
  Tex.mkImage (2, 2)
    (fun '(x, y) =>
       if (0 <=? x) && (x <? 2) && (0 <=? y) && (y <? 2) then
         Ok (if y =? 0
             then (if x =? 0 then [255; 0; 0] else [0; 255; 0])
             else (if x =? 0 then [0; 0; 255] else [255; 255; 255]))
       else Raise IndexError).

End TexSpec.

(** ** Notions for the amended statements *)

(** The class of an exception, as Python names it. *)
Definition class_name (e : exn) : string :=
  match e with
  | ValueError => "ValueError"
  | IndexError => "IndexError"
  | AssertionError => "AssertionError"
  | OverflowError => "OverflowError"
  | ZeroDivisionError => "ZeroDivisionError"
  | FileNotFoundError => "FileNotFoundError"
  | IsADirectoryError => "IsADirectoryError"
  | PermissionError => "PermissionError"
  | EOFError => "EOFError"
  | UnicodeEncodeError => "UnicodeEncodeError"
  | SystemExit _ => "SystemExit"
  end.

Module FaceSpec.

Fixpoint all_digits (s : string) : bool :=
  match s with
  | EmptyString => true
  | String c r => Num.is_digit c && all_digits r
  end.

(** A numeral: decimal digits, at least one and at most 4300, the most that
    [int] converts by default. *)
Definition numeral (s : string) : bool :=
  negb (Str.is_empty s) && (Z.of_nat (String.length s) <=? 4300)
  && all_digits s.

(** The number that a numeral spells: each digit counts for its place. *)
Fixpoint value (s : string) : Z :=
  match s with
  | EmptyString => 0
  | String c r => Num.digit_val c * 10 ^ Z.of_nat (String.length r) + value r
  end.

(** What a token made of numerals stands for: each index is the number
    written, less one, and a part that is not written is absent. The shapes
    are [p], [p/t], [p//n] and [p/t/n]. *)
Inductive stands_for : string -> Obj.FaceVertex -> Prop :=
| Token_p p :
    numeral p = true ->
    stands_for p (Obj.mkFaceVertex (Some (value p - 1)) None None)
| Token_pt p t :
    numeral p = true -> numeral t = true ->
    stands_for (p ++ "/" ++ t)
      (Obj.mkFaceVertex (Some (value p - 1)) (Some (value t - 1)) None)
| Token_pn p n :
    numeral p = true -> numeral n = true ->
    stands_for (p ++ "//" ++ n)
      (Obj.mkFaceVertex (Some (value p - 1)) None (Some (value n - 1)))
| Token_ptn p t n :
    numeral p = true -> numeral t = true -> numeral n = true ->
    stands_for (p ++ "/" ++ t ++ "/" ++ n)
      (Obj.mkFaceVertex (Some (value p - 1)) (Some (value t - 1))
                        (Some (value n - 1))).

End FaceSpec.

Module ScopeSpec.

(** The capital of a small letter. *)
Definition capital (c : ascii) : ascii := ascii_of_nat (nat_of_ascii c - 32).

(** [s] starts with the keyword [kw], given in small letters, each of its
    letters written in either case. *)
Fixpoint starts_with_keyword (kw s : string) : bool :=
  match kw, s with
  | EmptyString, _ => true
  | String _ _, EmptyString => false
  | String k kw', String c s' =>
      (Ascii.eqb c k || Ascii.eqb c (capital k)) && starts_with_keyword kw' s'
  end.

(** [s] without its first [n] characters. *)
Fixpoint skip (n : nat) (s : string) : string :=
  match n, s with
  | O, _ => s
  | S _, EmptyString => EmptyString
  | S n', String _ r => skip n' r
  end.

(** The trimmed remainder of a [usemtl] line: what follows the six letters
    of the keyword on the trimmed line, trimmed. *)
Definition remainder (l : string) : string :=
  Str.strip (skip 6 (Str.strip l)).

(** The keyword stands alone: it is the whole first token of the line. *)
Definition keyword_alone (l : string) : bool :=
  String.eqb (Str.lower (first_token l)) "usemtl".

End ScopeSpec.

(** ** Further notions: the mesh parser *)

Module ObjInv.

(** The parser accepts the line [l] when it is the first line of a file. *)
Definition accepts (l : string) : bool := is_ok (Obj.parse_line Obj.empty l).

(** The number of the lines that satisfy [P]. *)
Definition count_lines (P : string -> bool) (ls : list string) : nat :=
  length (List.filter P ls).

(** The indices of the tagged records of one kind, in order. *)
Fixpoint tag_indices (kind : string) (os : list Obj.OutLine) : list nat :=
  match os with
  | [] => []
  | Obj.Tagged k i :: os' =>
      if String.eqb k kind then i :: tag_indices kind os'
      else tag_indices kind os'
  | Obj.Verbatim _ :: os' => tag_indices kind os'
  end.

(** The materials of the faces of the lines [ls], read off the lines alone:
    [cur] is the name on the nearest [usemtl] line above. *)
Fixpoint scan_materials (cur : string) (ls : list string) : list string :=
  match ls with
  | [] => []
  | l :: ls' =>
      if ObjSpec.usemtl_line l then scan_materials (directive_value l) ls'
      else if ObjSpec.face_line l then cur :: scan_materials cur ls'
      else scan_materials cur ls'
  end.

(** The name on the last [usemtl] line of [ls], or [cur] without one. *)
Fixpoint last_material (cur : string) (ls : list string) : string :=
  match ls with
  | [] => cur
  | l :: ls' =>
      last_material (if ObjSpec.usemtl_line l then directive_value l else cur)
                    ls'
  end.

(** The tags of each kind number the entities of that kind, in order. *)
Definition tags_number (obj : Obj.OBJ) : Prop :=
  tag_indices "v" (Obj.out_lines obj) = seq 0 (length (Obj.positions obj))
  /\ tag_indices "vt" (Obj.out_lines obj)
     = seq 0 (length (Obj.texcoords obj))
  /\ tag_indices "vn" (Obj.out_lines obj) = seq 0 (length (Obj.normals obj)).

(** What a face of the mesh records of its line [l]: the trimmed line, one
    vertex for each token after the first, and at least one vertex. *)
Definition face_of_line (f : Obj.Face) (l : string) : Prop :=
  ObjSpec.face_line l = true /\ Obj.line f = Str.strip l
  /\ length (Obj.vertices f) = (length (Str.split (Str.strip l)) - 1)%nat
  /\ Obj.vertices f <> [].

End ObjInv.


(** ** Further notions: the material library *)

Module MtlInv.

(** A line that is neither blank nor a comment. *)
Definition directive_line (l : string) : bool :=
  truthy (Str.strip l) && negb (Str.startswith (Str.strip l) "#").

(** A directive line whose key is [newmtl], in any case. *)
Definition newmtl_line (l : string) : bool :=
  directive_line l && String.eqb (Str.lower (first_token l)) "newmtl".

(** The names that the [newmtl] lines declare, in order. *)
Definition newmtl_names (ls : list string) : list string :=
  map directive_value (List.filter newmtl_line ls).

(** A directive line that has a value after its key, or no directive. *)
Definition has_value (l : string) : bool :=
  negb (directive_line l) || truthy (directive_value l).

(** The keys that [parse_mtl] routes to a field of their own. *)
Definition recognized (key : string) : bool :=
  existsb (String.eqb key)
    ["newmtl"; "ka"; "kd"; "ks"; "ns"; "d"; "illum"; "map_ka"; "map_kd";
     "map_ks"; "map_ns"; "map_d"; "map_bump"; "bump"].

(** The current material is the last one of the list. *)
Definition current_is_last (mtl : Mtl.MTL) : Prop :=
  Mtl.current_material mtl
  = match Mtl.materials mtl with
    | [] => None
    | _ :: _ => Some (length (Mtl.materials mtl) - 1)%nat
    end.

End MtlInv.


(** ** Further notions: the sampler and the driver *)

Module TexInv.

(** The first three bands of a pixel, as the sampler takes them. *)
Definition bands3 (image : Tex.Image) (xy : Z * Z) : result (list Z) :=
  match Tex.getpixel image xy with
  | Ok pix => Ok (take 3 pix)
  | Raise e => Raise e
  end.

(** What the sampler returns for the bands of a pixel. *)
Definition colour (pix : list Z) : result (Num.float * Num.float * Num.float) :=
  match take 3 pix with
  | [r; g; b] =>
      r' ← Tex.truediv r Tex.f255; g' ← Tex.truediv g Tex.f255;
      b' ← Tex.truediv b Tex.f255; Ok (r', g', b')
  | _ => Raise ValueError
  end.

(** The sizes of the image are positive and fit a C [int]. *)
Definition sized (image : Tex.Image) (w h : Z) : Prop :=
  Tex.size image = (w, h) /\ 0 < w < 2 ^ 31 /\ 0 < h < 2 ^ 31.

End TexInv.

Module PathSpec.
Import Main.

(** The last component of a path: what follows its last [/]. *)
Fixpoint basename (p : string) : string :=
  match p with
  | EmptyString => EmptyString
  | String _ r => if has_char "/" p then basename r else p
  end.

(** [ext] is the extension of the path made of [root] and [ext]: it starts
    at a dot that has no dot and no [/] after it, and that has a character
    other than a dot before it in the last component. *)
Definition extension (root ext : string) : Prop :=
  exists r,
    ext = String "." r
    /\ has_char "." r = false /\ has_char "/" r = false
    /\ has_non_dot (basename root) = true.

(** The run after the question: the two files are read, the mesh first, and
    the final message is written. *)
Definition finish (fs : files) (args : Args) (con : Console) : io unit :=
  io_bind (quiet (parse_obj fs (obj_in args))) (fun _ =>
  io_bind (quiet (parse_mtl fs (mtl_path_of args))) (fun _ =>
  print con (Done (obj_out_of args)))).

End PathSpec.
(** * Properties *)

(** ** Facts about the string operations *)

Section StrFacts.
Import Str.

Lemma rstrip_nonspace c r :
  is_space c = false -> rstrip (String c r) = String c (rstrip r).
Proof. intros H. simpl. now rewrite H. Qed.

Lemma strip_nonspace c r :
  is_space c = false -> strip (String c r) = String c (rstrip r).
Proof. intros H. unfold strip. simpl. rewrite H. now apply rstrip_nonspace. Qed.

Lemma rstrip_empty_split_go s :
  rstrip s = EmptyString -> split_go s = (EmptyString, []).
Proof.
  induction s as [|c r IH]; simpl; [easy|].
  destruct (is_space c) eqn:Hc; simpl.
  - destruct (rstrip r); simpl; [|discriminate].
    intros _. now rewrite IH.
  - discriminate.
Qed.

Lemma split_go_rstrip s : split_go (rstrip s) = split_go s.
Proof.
  induction s as [|c r IH]; simpl; [easy|].
  destruct (is_space c && is_empty (rstrip r)) eqn:E.
  - apply andb_true_iff in E as [Hc He].
    destruct (rstrip r) eqn:Hr; [|discriminate].
    rewrite (rstrip_empty_split_go r Hr), Hc. reflexivity.
  - simpl. now rewrite IH.
Qed.

Lemma split_rstrip s : split (rstrip s) = split s.
Proof. unfold split. now rewrite split_go_rstrip. Qed.

Lemma split_lstrip s : split (lstrip s) = split s.
Proof.
  induction s as [|c r IH]; simpl; [easy|].
  destruct (is_space c) eqn:Hc; [|reflexivity].
  rewrite IH. unfold split. simpl. rewrite Hc.
  destruct (split_go r) as [t ts]. reflexivity.
Qed.

Lemma split_strip s : split (strip s) = split s.
Proof. unfold strip. now rewrite split_rstrip, split_lstrip. Qed.

(** [split] in terms of the first token and the rest. *)
Lemma split_span c r :
  is_space c = false ->
  split (String c r) =
    fst (span_token (String c r)) :: split (snd (span_token (String c r))).
Proof.
  revert c. induction r as [|d r IH]; intros c Hc.
  - unfold split. simpl. rewrite Hc. reflexivity.
  - unfold split in *. simpl in *. rewrite Hc.
    destruct (is_space d) eqn:Hd.
    + simpl. destruct (split_go r) as [t ts]. simpl. rewrite Hd. reflexivity.
    + specialize (IH d Hd). rewrite Hd in IH.
      destruct (split_go r) as [t ts].
      destruct (span_token r) as [t' rest]. simpl in *.
      injection IH as IH1 IH2. now subst.
Qed.

Lemma lstrip_empty_split s : lstrip s = EmptyString <-> split s = [].
Proof.
  induction s as [|c r IH]; simpl; [easy|].
  destruct (is_space c) eqn:Hc.
  - rewrite IH. unfold split. simpl. rewrite Hc.
    destruct (split_go r) as [t ts]. reflexivity.
  - rewrite (split_span c r Hc). split; discriminate.
Qed.

Lemma lstrip_head s c r : lstrip s = String c r -> is_space c = false.
Proof.
  induction s as [|d s IH]; simpl; [discriminate|].
  destruct (is_space d) eqn:Hd; [assumption|].
  intros H. injection H as -> _. assumption.
Qed.

(** [split1] gives one part exactly when [split] gives one token. *)
Lemma split1_single s t : split s = [t] -> split1 s = [t].
Proof.
  intros H. rewrite <- split_lstrip in H. unfold split1.
  destruct (lstrip s) as [|c r] eqn:Hs; [discriminate|]. simpl is_empty. cbv iota.
  pose proof (lstrip_head _ _ _ Hs) as Hc.
  rewrite (split_span c r Hc) in H.
  destruct (span_token (String c r)) as [t' rest]. simpl in H.
  injection H as -> H.
  apply lstrip_empty_split in H. now rewrite H.
Qed.

Lemma startswith_cons s c p :
  startswith s (String c p) = true -> exists r, s = String c r.
Proof.
  unfold startswith. destruct s as [|d r]; simpl; [discriminate|].
  destruct (ascii_dec c d) as [->|]; [eauto|discriminate].
Qed.

Lemma concat_lines s : concat (lines s) = s.
Proof.
  induction s as [|c r IH]; simpl; [easy|].
  destruct (Ascii.eqb c "010"); simpl.
  - now rewrite IH.
  - destruct (lines r) as [|l ls]; simpl in *; now rewrite <- IH.
Qed.

End StrFacts.

Lemma split_on_go_plain sep a :
  has_char sep a = false -> Str.split_on_go sep a = (a, []).
Proof.
  induction a as [|c r IH]; simpl; [easy|].
  intros H. apply orb_false_iff in H as [Hc Hr].
  rewrite (IH Hr), Hc. reflexivity.
Qed.

Lemma split_on_plain sep a :
  has_char sep a = false -> Str.split_on sep a = [a].
Proof. intros H. unfold Str.split_on. now rewrite split_on_go_plain. Qed.

Lemma split_on_sep sep a r :
  has_char sep a = false ->
  Str.split_on sep (a ++ String sep r) = a :: Str.split_on sep r.
Proof.
  intros H. unfold Str.split_on.
  induction a as [|c a IH]; simpl.
  - rewrite Ascii.eqb_refl. destruct (Str.split_on_go sep r). reflexivity.
  - simpl in H. apply orb_false_iff in H as [Hc Ha].
    specialize (IH Ha). rewrite Hc.
    destruct (Str.split_on_go sep (a ++ String sep r)) as [t ts].
    destruct (Str.split_on_go sep r) as [t' ts'].
    injection IH as -> ->. reflexivity.
Qed.

(** ** The face-vertex tokens *)

Lemma index_part_true parts i :
  Obj.index_part true parts i = part_index (nth i parts "").
Proof.
  unfold Obj.index_part, part_index, truthy. simpl.
  now destruct (Str.is_empty (nth i parts "")).
Qed.

Lemma face_vertex_one a :
  has_char "/" a = false ->
  Obj.parse_face_vertex a =
    v ← part_index a; Ok (Obj.mkFaceVertex v None None).
Proof.
  intros Ha. unfold Obj.parse_face_vertex.
  rewrite (split_on_plain _ _ Ha). simpl length. cbv beta iota.
  change (1 <=? 1)%nat with true. rewrite index_part_true. simpl.
  destruct (part_index a); reflexivity.
Qed.

Lemma face_vertex_two a b :
  has_char "/" a = false -> has_char "/" b = false ->
  Obj.parse_face_vertex (a ++ "/" ++ b) =
    v ← part_index a; vt ← part_index b; Ok (Obj.mkFaceVertex v vt None).
Proof.
  intros Ha Hb. unfold Obj.parse_face_vertex.
  change (a ++ "/" ++ b) with (a ++ String "/" b).
  rewrite (split_on_sep _ _ _ Ha), (split_on_plain _ _ Hb).
  simpl length. change (1 <=? 2)%nat with true. change (2 <=? 2)%nat with true.
  rewrite !index_part_true. simpl.
  destruct (part_index a); simpl; [|reflexivity].
  destruct (part_index b); reflexivity.
Qed.

Lemma face_vertex_three a b c :
  has_char "/" a = false -> has_char "/" b = false -> has_char "/" c = false ->
  Obj.parse_face_vertex (a ++ "/" ++ b ++ "/" ++ c) =
    v ← part_index a; vt ← part_index b; vn ← part_index c;
    Ok (Obj.mkFaceVertex v vt vn).
Proof.
  intros Ha Hb Hc. unfold Obj.parse_face_vertex.
  change (a ++ "/" ++ b ++ "/" ++ c) with (a ++ String "/" (b ++ String "/" c)).
  rewrite (split_on_sep _ _ _ Ha), (split_on_sep _ _ _ Hb),
    (split_on_plain _ _ Hc).
  simpl length. change (1 <=? 3)%nat with true. change (2 <=? 3)%nat with true.
  change (3 =? 3)%nat with true.
  rewrite !index_part_true. reflexivity.
Qed.

(** C6. A face-vertex token is cut at its slashes; a part that is not empty
    is read as a 1-based integer and stored less one, an empty or missing
    part gives an absent index. So ["5/3/2"] gives the indices 4, 2 and 1,
    and ["5"], ["5/3"], ["5//2"] and ["5/3/2"] all parse, with the texcoord
    and normal indices present or absent as the shape of the token says. *)
Theorem face_vertex_token_grammar :
  (forall a b c,
     has_char "/" a = false -> has_char "/" b = false ->
     has_char "/" c = false ->
     Obj.parse_face_vertex a =
       (v ← part_index a; Ok (Obj.mkFaceVertex v None None))
     /\ Obj.parse_face_vertex (a ++ "/" ++ b) =
       (v ← part_index a; vt ← part_index b;
        Ok (Obj.mkFaceVertex v vt None))
     /\ Obj.parse_face_vertex (a ++ "/" ++ b ++ "/" ++ c) =
       (v ← part_index a; vt ← part_index b; vn ← part_index c;
        Ok (Obj.mkFaceVertex v vt vn)))
  /\ Obj.parse_face_vertex "5/3/2"
     = Ok (Obj.mkFaceVertex (Some 4) (Some 2) (Some 1))
  /\ Obj.parse_face_vertex "5"
     = Ok (Obj.mkFaceVertex (Some 4) None None)
  /\ Obj.parse_face_vertex "5/3"
     = Ok (Obj.mkFaceVertex (Some 4) (Some 2) None)
  /\ Obj.parse_face_vertex "5//2"
     = Ok (Obj.mkFaceVertex (Some 4) None (Some 1)).
Proof.
  split.
  - intros a b c Ha Hb Hc.
    auto using face_vertex_one, face_vertex_two, face_vertex_three.
  - repeat split; reflexivity.
Qed.

Lemma face_vertex_token_grammar_witness :
  Obj.parse_face_vertex ("12" ++ "/" ++ "" ++ "/" ++ "7")
  = Ok (Obj.mkFaceVertex (Some 11) None (Some 6)).
Proof.
  destruct (proj1 face_vertex_token_grammar "12" "" "7"
              eq_refl eq_refl eq_refl) as (_ & _ & H).
  rewrite H. reflexivity.
Defined.

(** ** The mesh parser *)

Section ObjFacts.
Import Obj ObjSpec.

Lemma parse_lines_app obj l1 l2 :
  parse_lines obj (l1 ++ l2) = (obj' ← parse_lines obj l1; parse_lines obj' l2).
Proof.
  revert obj. induction l1 as [|l l1 IH]; intros obj; simpl; [reflexivity|].
  destruct (parse_line obj l) as [obj1|e]; simpl; [apply IH|reflexivity].
Qed.

(** A line that no state accepts makes the whole parse fail. *)
Lemma parse_lines_raise ls obj l :
  In l ls -> (forall o, exists e, parse_line o l = Raise e) ->
  exists e, parse_lines obj ls = Raise e.
Proof.
  intros Hin Hl. revert obj.
  induction ls as [|l' ls IH]; intros obj; [destruct Hin|].
  simpl. destruct (parse_line obj l') as [obj1|e] eqn:E; simpl; [|eauto].
  destruct Hin as [->|Hin]; [|now apply IH].
  destruct (Hl obj) as [e He]. congruence.
Qed.

(** A line that starts with [v] is still at a [v] once trimmed. *)
Lemma startswith_v_strip l p :
  Str.startswith l (String "v" p) = true ->
  exists r, Str.strip l = String "v" r.
Proof.
  intros H. apply startswith_cons in H as [r ->].
  rewrite strip_nonspace by reflexivity. eauto.
Qed.

Lemma lower_head s c r :
  Str.lower s = String c r -> exists d r', s = String d r' /\ Str.lower_char d = c.
Proof. destruct s as [|d r']; simpl; [discriminate|]. intros [= <- <-]. eauto. Qed.

Lemma not_geometry_of_lower_head l c p :
  Str.startswith (Str.lower (Str.strip l)) (String c p) = true ->
  c <> "v"%char -> c <> "V"%char ->
  Str.startswith l "v " = false /\ Str.startswith l "vt " = false
  /\ Str.startswith l "vn " = false.
Proof.
  intros H Hc HC.
  apply startswith_cons in H as [r Hr].
  apply lower_head in Hr as (d & r' & Hs & Hd).
  assert (Hv : forall q, Str.startswith l (String "v" q) = false).
  { intros q. destruct (Str.startswith l (String "v" q)) eqn:E; [|reflexivity].
    apply startswith_v_strip in E as [r2 E]. rewrite E in Hs.
    injection Hs as <- _. vm_compute in Hd. congruence. }
  auto.
Qed.

Lemma parse_usemtl obj l :
  usemtl_line l = true ->
  parse_line obj l =
    (m ← index (Str.split1 (Str.strip l)) 1;
     Ok (append_out (Verbatim l) (set_current_material m obj))).
Proof.
  intros H. unfold parse_line.
  destruct (not_geometry_of_lower_head l "u" "semtl" H) as (-> & -> & ->);
    [discriminate..|].
  unfold usemtl_line in H. now rewrite H.
Qed.

Lemma parse_face obj l :
  face_line l = true ->
  parse_line obj l =
    (fvs ← mapM parse_face_vertex (tail (Str.split (Str.strip l)));
     Ok (append_out (Verbatim l)
           (append_face (mkFace fvs (current_material obj) (Str.strip l)) obj))).
Proof.
  intros H. unfold face_line in H. apply andb_true_iff in H as [Hu Hf].
  apply negb_true_iff in Hu. unfold parse_line.
  destruct (not_geometry_of_lower_head l "f" " " Hf) as (-> & -> & ->);
    [discriminate..|].
  unfold usemtl_line in Hu. now rewrite Hu, Hf.
Qed.

End ObjFacts.

(** C10. A line whose trimmed form is exactly [usemtl] makes the mesh parser
    raise: the line itself raises [IndexError] in every state, so a text that
    contains such a line is never parsed to a mesh, and the exception is that
    [IndexError] when the lines before it are accepted. *)
Theorem usemtl_without_name_raises :
  (forall obj l, Str.strip l = "usemtl" ->
     Obj.parse_line obj l = Raise IndexError)
  /\ (forall text l, In l (Str.lines text) -> Str.strip l = "usemtl" ->
        exists e, Obj.parse_text text = Raise e)
  /\ (forall text pre l post obj,
        Str.lines text = (pre ++ l :: post)%list -> Str.strip l = "usemtl" ->
        Obj.parse_lines Obj.empty pre = Ok obj ->
        Obj.parse_text text = Raise IndexError).
Proof.
  assert (H1 : forall obj l, Str.strip l = "usemtl" ->
                 Obj.parse_line obj l = Raise IndexError).
  { intros obj l Hl. rewrite parse_usemtl.
    - rewrite Hl. reflexivity.
    - unfold ObjSpec.usemtl_line. rewrite Hl. reflexivity. }
  split; [exact H1|]. split.
  - intros text l Hin Hl. unfold Obj.parse_text.
    apply parse_lines_raise with (l := l); eauto.
  - intros text pre l post obj Hlines Hl Hpre. unfold Obj.parse_text.
    rewrite Hlines, parse_lines_app, Hpre. simpl.
    now rewrite (H1 obj l Hl).
Qed.

Lemma usemtl_without_name_raises_witness :
  Obj.parse_text ("v 0 0 0" ++ nl ++ "  usemtl " ++ nl ++ "f 1 1 1" ++ nl)
  = Raise IndexError.
Proof.
  refine (proj2 (proj2 usemtl_without_name_raises) _
            ["v 0 0 0" ++ nl] ("  usemtl " ++ nl) ["f 1 1 1" ++ nl] _ _ _ _);
    reflexivity.
Defined.

(** C2, as stated, fails: a face whose indices point at slots that were
    never declared is accepted. Here no position, texcoord or normal exists,
    and the parser returns the mesh with the face stored. *)
Lemma face_index_bounds_counterexample :
  Obj.parse_text ("f 1/1/1 2/2/2 7/7/7" ++ nl)
  = Ok (Obj.mkOBJ [] [] []
          [Obj.mkFace
             [Obj.mkFaceVertex (Some 0) (Some 0) (Some 0);
              Obj.mkFaceVertex (Some 1) (Some 1) (Some 1);
              Obj.mkFaceVertex (Some 6) (Some 6) (Some 6)]
             "" "f 1/1/1 2/2/2 7/7/7"]
          [Obj.Verbatim ("f 1/1/1 2/2/2 7/7/7" ++ nl)] "").
Proof. reflexivity. Qed.

(** *** Numerals *)

Section FaceNumerals.
Import Num FaceSpec.

Lemma digit_char c :
  is_digit c = true ->
  is_num_space c = false /\ Ascii.eqb c "/" = false
  /\ forall r, take_sign (String c r) = (false, String c r).
Proof.
  destruct c as [[] [] [] [] [] [] [] []]; intros H;
    try discriminate H; repeat split.
Qed.

Lemma digits_go_numeral s : forall acc n,
  all_digits s = true ->
  digits_go acc n s
  = (acc * 10 ^ Z.of_nat (String.length s) + value s,
     n + Z.of_nat (String.length s), EmptyString).
Proof.
  induction s as [|c r IH]; intros acc n H.
  - cbn [digits_go String.length value]. change (Z.of_nat 0) with 0.
    now rewrite Z.pow_0_r, Z.mul_1_r, !Z.add_0_r.
  - cbn [all_digits] in H. apply andb_true_iff in H as [Hc Hr].
    cbn [digits_go]. rewrite Hc, (IH _ _ Hr).
    cbn [String.length value]. rewrite Nat2Z.inj_succ, Z.pow_succ_r by lia.
    f_equal. f_equal; lia.
Qed.

Lemma rskip_numeral s : all_digits s = true -> rskip s = s.
Proof.
  induction s as [|c r IH]; intros H; [reflexivity|].
  cbn [all_digits] in H. apply andb_true_iff in H as [Hc Hr].
  cbn [rskip]. rewrite (IH Hr).
  destruct (digit_char c Hc) as (-> & _). reflexivity.
Qed.

(** [int] reads a numeral as the number it spells. *)
Lemma py_int_numeral s : numeral s = true -> py_int s = Ok (value s).
Proof.
  unfold numeral. intros H.
  apply andb_true_iff in H as [H Hd]. apply andb_true_iff in H as [Hne _].
  destruct s as [|c r]; [discriminate|].
  pose proof Hd as Hd'. cbn [all_digits] in Hd'.
  apply andb_true_iff in Hd' as [Hc _].
  destruct (digit_char c Hc) as (Hs & _ & Hsign).
  unfold py_int. cbn [lskip]. rewrite Hs, (rskip_numeral _ Hd), Hsign.
  unfold digits. rewrite (digits_go_numeral _ 0 0 Hd).
  cbn [String.length]. rewrite Nat2Z.inj_succ.
  replace (0 <? 0 + Z.succ (Z.of_nat (String.length r))) with true
    by (symmetry; apply Z.ltb_lt; lia).
  simpl. f_equal; lia.
Qed.

Lemma part_index_numeral s :
  numeral s = true -> part_index s = Ok (Some (value s - 1)).
Proof.
  intros H. unfold part_index. rewrite (py_int_numeral s H).
  destruct s; [discriminate|reflexivity].
Qed.

Lemma numeral_no_slash s : numeral s = true -> has_char "/" s = false.
Proof.
  unfold numeral. intros H. apply andb_true_iff in H as [_ H].
  induction s as [|c r IH]; [reflexivity|].
  cbn [all_digits] in H. apply andb_true_iff in H as [Hc Hr].
  cbn [has_char]. destruct (digit_char c Hc) as (_ & -> & _). auto.
Qed.

Lemma stands_for_parsed tok fv :
  stands_for tok fv -> Obj.parse_face_vertex tok = Ok fv.
Proof.
  intros [p Hp | p t Hp Ht | p n Hp Hn | p t n Hp Ht Hn].
  - rewrite face_vertex_one by now apply numeral_no_slash.
    now rewrite (part_index_numeral p Hp).
  - rewrite face_vertex_two by now apply numeral_no_slash.
    now rewrite (part_index_numeral p Hp), (part_index_numeral t Ht).
  - change (p ++ "//" ++ n) with (p ++ "/" ++ "" ++ "/" ++ n).
    rewrite face_vertex_three
      by first [now apply numeral_no_slash | reflexivity].
    now rewrite (part_index_numeral p Hp), (part_index_numeral n Hn).
  - rewrite face_vertex_three by now apply numeral_no_slash.
    now rewrite (part_index_numeral p Hp), (part_index_numeral t Ht),
      (part_index_numeral n Hn).
Qed.

Lemma stands_for_all_parsed toks fvs :
  Forall2 stands_for toks fvs -> mapM Obj.parse_face_vertex toks = Ok fvs.
Proof.
  induction 1 as [|tok fv toks fvs H _ IH]; [reflexivity|].
  simpl. rewrite (stands_for_parsed _ _ H). simpl. now rewrite IH.
Qed.

End FaceNumerals.

(** C2, amended. The mesh parser never compares a face index with the
    arrays declared so far. In every state of the parser, a face line whose
    vertex tokens have the shapes [p], [p/t], [p//n] or [p/t/n], with [p],
    [t] and [n] numerals, is accepted, and its face is stored with each index
    equal to the number written less one, a part that is not written staying
    absent: also when an index refers to a slot that is not declared yet or
    is out of range. *)
Theorem face_indices_never_checked :
  forall obj l fvs,
    ObjSpec.face_line l = true ->
    Forall2 FaceSpec.stands_for (tail (Str.split (Str.strip l))) fvs ->
    Obj.parse_line obj l
    = Ok (Obj.append_out (Obj.Verbatim l)
            (Obj.append_face
               (Obj.mkFace fvs (Obj.current_material obj) (Str.strip l))
               obj)).
Proof.
  intros obj l fvs Hl H. rewrite (parse_face obj l Hl).
  now rewrite (stands_for_all_parsed _ _ H).
Qed.

Lemma face_indices_never_checked_witness :
  Obj.parse_line Obj.empty ("f 9//4 0 12/7/300" ++ nl)
  = Ok (Obj.mkOBJ [] [] []
          [Obj.mkFace
             [Obj.mkFaceVertex (Some 8) None (Some 3);
              Obj.mkFaceVertex (Some (-1)) None None;
              Obj.mkFaceVertex (Some 11) (Some 6) (Some 299)]
             "" "f 9//4 0 12/7/300"]
          [Obj.Verbatim ("f 9//4 0 12/7/300" ++ nl)] "").
Proof.
  apply (face_indices_never_checked Obj.empty ("f 9//4 0 12/7/300" ++ nl)
           [Obj.mkFaceVertex (Some 8) None (Some 3);
            Obj.mkFaceVertex (Some (-1)) None None;
            Obj.mkFaceVertex (Some 11) (Some 6) (Some 299)] eq_refl).
  change (tail (Str.split (Str.strip ("f 9//4 0 12/7/300" ++ nl))))
    with ["9//4"; "0"; "12/7/300"].
  constructor; [exact (FaceSpec.Token_pn "9" "4" eq_refl eq_refl)|].
  constructor; [exact (FaceSpec.Token_p "0" eq_refl)|].
  constructor;
    [exact (FaceSpec.Token_ptn "12" "7" "300" eq_refl eq_refl eq_refl)|].
  constructor.
Defined.

Section Scoping.
Import Obj ObjSpec.

Lemma index_split1_value l :
  index (Str.split1 (Str.strip l)) 1 =
    if Str.is_empty (directive_value l) then Raise IndexError
    else Ok (directive_value l).
Proof.
  unfold directive_value, Str.split1.
  destruct (Str.lstrip (Str.strip l)) as [|c r] eqn:E; [reflexivity|].
  change (Str.is_empty (String c r)) with false. cbv iota.
  generalize (Str.span_token (String c r)). intros [t rest].
  change ((t, rest).2) with rest.
  destruct (Str.lstrip rest); reflexivity.
Qed.

(** A line that is not a [usemtl] directive leaves the current material as
    it is, and a face that it adds carries that material. *)
Lemma parse_line_keeps_material obj l obj' :
  parse_line obj l = Ok obj' -> usemtl_line l = false ->
  current_material obj' = current_material obj
  /\ if face_line l
     then exists f, faces obj' = (faces obj ++ [f])%list
                    /\ material f = current_material obj
     else faces obj' = faces obj.
Proof.
  intros H Hu. destruct (face_line l) eqn:Hf.
  - rewrite (parse_face obj l Hf) in H.
    destruct (mapM parse_face_vertex _) as [fvs|e]; simpl in H; [|discriminate].
    injection H as <-. simpl. eauto.
  - unfold face_line in Hf. rewrite Hu in Hf. simpl in Hf.
    unfold usemtl_line in Hu. unfold parse_line in H.
    rewrite Hu, Hf in H.
    destruct (Str.startswith l "v ").
    { destruct (read_position _); simpl in H; [|discriminate].
      injection H as <-. now simpl. }
    destruct (Str.startswith l "vt ").
    { destruct (read_texcoord _); simpl in H; [|discriminate].
      injection H as <-. now simpl. }
    destruct (Str.startswith l "vn ").
    { destruct (read_normal _); simpl in H; [|discriminate].
      injection H as <-. now simpl. }
    injection H as <-. now simpl.
Qed.

Lemma parse_lines_keep_material ls : forall obj obj',
  parse_lines obj ls = Ok obj' ->
  forallb (fun l => negb (usemtl_line l)) ls = true ->
  current_material obj' = current_material obj
  /\ exists new, faces obj' = (faces obj ++ new)%list
       /\ Forall (fun f => material f = current_material obj) new
       /\ length new = length (filter (fun l => face_line l = true) ls).
Proof.
  induction ls as [|l ls IH]; intros obj obj' H Hno; simpl in *.
  - injection H as <-. split; [reflexivity|]. exists [].
    now rewrite app_nil_r.
  - apply andb_true_iff in Hno as [Hl Hno]. apply negb_true_iff in Hl.
    destruct (parse_line obj l) as [obj1|e] eqn:E; simpl in H; [|discriminate].
    destruct (parse_line_keeps_material _ _ _ E Hl) as [Hc Hfaces].
    destruct (IH _ _ H Hno) as (Hc' & new & Hnew & Hall & Hlen).
    split; [congruence|].
    rewrite Hc in Hall.
    destruct (face_line l) eqn:Hfl.
    + destruct Hfaces as (f & Hf & Hm). exists (f :: new).
      rewrite filter_cons_True by assumption.
      rewrite Hnew, Hf, <- app_assoc. simpl. repeat split; auto.
    + exists new.
      rewrite filter_cons_False by congruence.
      rewrite Hnew, Hfaces. repeat split; auto.
Qed.

End Scoping.

(** ** Replaying the shadow sequence *)

Section Replay.
Import Obj ObjSpec.
Variable emit_v : Position -> string.
Variable emit_vt : TexCoord -> string.
Variable emit_vn : Normal -> string.

Abbreviation record_text := (replay_record emit_v emit_vt emit_vn).
Abbreviation rendered := (ObjSpec.rendered emit_v emit_vt emit_vn).

Lemma append_assoc (a b c : string) :
  String.append (String.append a b) c = String.append a (String.append b c).
Proof.
  induction a as [|x a IH]; [reflexivity|].
  change (String x (String.append (String.append a b) c)
          = String x (String.append a (String.append b c))).
  now rewrite IH.
Qed.

Lemma concat_app (a b : list string) :
  Str.concat (a ++ b) = String.append (Str.concat a) (Str.concat b).
Proof.
  induction a as [|x a IH]; [reflexivity|].
  change (String.append x (Str.concat (a ++ b))
          = String.append (String.append x (Str.concat a)) (Str.concat b)).
  now rewrite IH, append_assoc.
Qed.

(** Appending entities does not change what an earlier record emits. *)
Lemma record_text_grow obj obj' ps ts ns o :
  positions obj' = (positions obj ++ ps)%list ->
  texcoords obj' = (texcoords obj ++ ts)%list ->
  normals obj' = (normals obj ++ ns)%list ->
  tag_in_range obj o ->
  record_text obj' o = record_text obj o /\ tag_in_range obj' o.
Proof.
  intros Hp Ht Hn. destruct o as [kind i|text]; simpl; [|auto].
  rewrite Hp, Ht, Hn, !length_app.
  destruct (String.eqb kind "v").
  { intros H. rewrite lookup_app_l by assumption. split; [reflexivity|lia]. }
  destruct (String.eqb kind "vt").
  { intros H. rewrite lookup_app_l by assumption. split; [reflexivity|lia]. }
  destruct (String.eqb kind "vn").
  { intros H. rewrite lookup_app_l by assumption. split; [reflexivity|lia]. }
  auto.
Qed.

Lemma records_grow obj obj' ps ts ns os :
  positions obj' = (positions obj ++ ps)%list ->
  texcoords obj' = (texcoords obj ++ ts)%list ->
  normals obj' = (normals obj ++ ns)%list ->
  Forall (tag_in_range obj) os ->
  map (record_text obj') os = map (record_text obj) os
  /\ Forall (tag_in_range obj') os.
Proof.
  intros Hp Ht Hn. induction 1 as [|o os Ho Hos [IH1 IH2]]; simpl; [auto|].
  destruct (record_text_grow obj obj' ps ts ns o Hp Ht Hn Ho) as [E1 E2].
  rewrite E1, IH1. auto.
Qed.

Lemma last_index {A : Type} (xs : list A) (a : A) :
  (xs ++ [a])%list !! (length (xs ++ [a]) - 1)%nat = Some a.
Proof.
  rewrite length_app. simpl.
  replace (length xs + 1 - 1)%nat with (length xs + 0)%nat by lia.
  now rewrite lookup_app_r, Nat.add_0_r, Nat.sub_diag by lia.
Qed.

Lemma parse_line_replay obj l obj' :
  parse_line obj l = Ok obj' -> rendered l ->
  Forall (tag_in_range obj) (out_lines obj) ->
  Forall (tag_in_range obj') (out_lines obj')
  /\ map (record_text obj') (out_lines obj')
     = (map (record_text obj) (out_lines obj) ++ [l])%list.
Proof.
  intros H (Rv & Rvt & Rvn) Hwf. unfold parse_line in H.
  destruct (Str.startswith l "v ") eqn:Ev.
  { destruct (read_position _) as [p|] eqn:Ep; simpl in H; [|discriminate].
    injection H as <-. simpl out_lines.
    destruct (records_grow obj
                (append_out (Tagged "v" (length (positions obj ++ [p]) - 1))
                   (append_position p obj)) [p] [] [] (out_lines obj))
      as [E1 E2]; simpl; rewrite ?app_nil_r; auto.
    split.
    - apply Forall_app. split; [assumption|].
      constructor; [|constructor]. simpl. rewrite length_app. simpl. lia.
    - rewrite map_app, E1. simpl. rewrite last_index. simpl.
      now rewrite (Rv eq_refl p eq_refl). }
  destruct (Str.startswith l "vt ") eqn:Evt.
  { destruct (read_texcoord _) as [p|] eqn:Ep; simpl in H; [|discriminate].
    injection H as <-. simpl out_lines.
    destruct (records_grow obj
                (append_out (Tagged "vt" (length (texcoords obj ++ [p]) - 1))
                   (append_texcoord p obj)) [] [p] [] (out_lines obj))
      as [E1 E2]; simpl; rewrite ?app_nil_r; auto.
    split.
    - apply Forall_app. split; [assumption|].
      constructor; [|constructor]. simpl. rewrite length_app. simpl. lia.
    - rewrite map_app, E1. simpl. rewrite last_index. simpl.
      now rewrite (Rvt eq_refl p eq_refl). }
  destruct (Str.startswith l "vn ") eqn:Evn.
  { destruct (read_normal _) as [p|] eqn:Ep; simpl in H; [|discriminate].
    injection H as <-. simpl out_lines.
    destruct (records_grow obj
                (append_out (Tagged "vn" (length (normals obj ++ [p]) - 1))
                   (append_normal p obj)) [] [] [p] (out_lines obj))
      as [E1 E2]; simpl; rewrite ?app_nil_r; auto.
    split.
    - apply Forall_app. split; [assumption|].
      constructor; [|constructor]. simpl. rewrite length_app. simpl. lia.
    - rewrite map_app, E1. simpl. rewrite last_index. simpl.
      now rewrite (Rvn eq_refl p eq_refl). }
  assert (Hv : forall obj1,
            positions obj1 = positions obj -> texcoords obj1 = texcoords obj ->
            normals obj1 = normals obj ->
            out_lines obj1 = (out_lines obj ++ [Verbatim l])%list ->
            Forall (tag_in_range obj1) (out_lines obj1)
            /\ map (record_text obj1) (out_lines obj1)
               = (map (record_text obj) (out_lines obj) ++ [l])%list).
  { intros obj1 Hp Ht Hn Ho.
    destruct (records_grow obj obj1 [] [] [] (out_lines obj)) as [E1 E2];
      rewrite ?app_nil_r; auto.
    rewrite Ho. split.
    - apply Forall_app. split; [assumption|]. constructor; [exact I|constructor].
    - now rewrite map_app, E1. }
  destruct (Str.startswith (Str.lower (Str.strip l)) "usemtl").
  { destruct (index _ 1); simpl in H; [|discriminate].
    injection H as <-. now apply Hv. }
  destruct (Str.startswith (Str.lower (Str.strip l)) "f ").
  { destruct (mapM _ _); simpl in H; [|discriminate].
    injection H as <-. now apply Hv. }
  injection H as <-. now apply Hv.
Qed.

Lemma parse_lines_replay ls : forall obj obj',
  parse_lines obj ls = Ok obj' -> Forall rendered ls ->
  Forall (tag_in_range obj) (out_lines obj) ->
  map (record_text obj') (out_lines obj')
  = (map (record_text obj) (out_lines obj) ++ ls)%list.
Proof.
  induction ls as [|l ls IH]; intros obj obj' H Hr Hwf; simpl in H.
  - injection H as <-. now rewrite app_nil_r.
  - destruct (parse_line obj l) as [obj1|] eqn:E; simpl in H; [|discriminate].
    inversion Hr as [|? ? Hl Hls]; subst.
    destruct (parse_line_replay _ _ _ E Hl Hwf) as [Hwf1 E1].
    rewrite (IH _ _ H Hls Hwf1), E1, <- app_assoc. reflexivity.
Qed.

End Replay.




(** ** The material-library readers *)

Section MtlFacts.
Import Mtl MtlSpec.

Lemma mtl_parse_lines_app mtl l1 l2 :
  parse_lines mtl (l1 ++ l2)
  = (mtl' ← parse_lines mtl l1; parse_lines mtl' l2).
Proof.
  revert mtl. induction l1 as [|l l1 IH]; intros mtl; simpl; [reflexivity|].
  destruct (parse_line mtl l) as [mtl1|e]; simpl; [apply IH|reflexivity].
Qed.

Lemma mtl_parse_lines_raise ls mtl l :
  In l ls -> (forall m, exists e, parse_line m l = Raise e) ->
  exists e, parse_lines mtl ls = Raise e.
Proof.
  intros Hin Hl. revert mtl.
  induction ls as [|l' ls IH]; intros mtl; [destruct Hin|].
  simpl. destruct (parse_line mtl l') as [mtl1|e] eqn:E; simpl; [|eauto].
  destruct Hin as [->|Hin]; [|now apply IH].
  destruct (Hl mtl) as [e He]. congruence.
Qed.

Lemma parse_line_single_token mtl l t :
  Str.split l = [t] -> Str.startswith (Str.strip l) "#" = false ->
  parse_line mtl l = Raise AssertionError.
Proof.
  intros Ht Hc. unfold parse_line. rewrite Hc.
  rewrite <- split_strip in Ht.
  rewrite (split1_single _ _ Ht).
  destruct (Str.strip l); [discriminate|]. reflexivity.
Qed.

End MtlFacts.

(** C4, as stated, fails: the line [Kd] is a directive without a value, and
    the parser does fail on it, but with the exception of a failed [assert],
    whose class is [AssertionError] and not [ParseError]; a bare [assert]
    carries no message either. *)
Lemma mtl_missing_value_counterexample :
  exists e,
    Mtl.parse_text ("newmtl Wood" ++ nl ++ "Kd" ++ nl) = Raise e
    /\ class_name e <> "ParseError".
Proof. exists AssertionError. split; [reflexivity|discriminate]. Qed.

(** C4, amended. A line of the material library that is not blank, is not a
    comment and consists of a single token has no value: [parse_mtl] refuses
    it in every state, by the failure of [assert value], which raises
    [AssertionError]. So a text with such a line is never parsed to a
    library, and the failure is that of the missing value when the lines
    before it are accepted. *)
Theorem mtl_directive_missing_value :
  (forall mtl l t,
     Str.split l = [t] -> Str.startswith (Str.strip l) "#" = false ->
     Mtl.parse_line mtl l = Raise AssertionError)
  /\ (forall text l t,
        In l (Str.lines text) ->
        Str.split l = [t] -> Str.startswith (Str.strip l) "#" = false ->
        exists e, Mtl.parse_text text = Raise e)
  /\ (forall text pre l post t mtl,
        Str.lines text = (pre ++ l :: post)%list ->
        Str.split l = [t] -> Str.startswith (Str.strip l) "#" = false ->
        Mtl.parse_lines Mtl.empty pre = Ok mtl ->
        Mtl.parse_text text = Raise AssertionError).
Proof.
  split; [exact parse_line_single_token|]. split.
  - intros text l t Hin Ht Hc. unfold Mtl.parse_text.
    apply mtl_parse_lines_raise with (l := l); [assumption|].
    intros m. exists AssertionError. now apply parse_line_single_token with t.
  - intros text pre l post t mtl Hlines Ht Hc Hpre. unfold Mtl.parse_text.
    rewrite Hlines, mtl_parse_lines_app, Hpre. simpl.
    now rewrite (parse_line_single_token mtl l t Ht Hc).
Qed.

Lemma mtl_directive_missing_value_witness :
  Mtl.parse_text ("newmtl Wood" ++ nl ++ "  Kd  " ++ nl ++ "Ns 10" ++ nl)
  = Raise AssertionError.
Proof.
  refine (proj2 (proj2 mtl_directive_missing_value) _
            ["newmtl Wood" ++ nl] ("  Kd  " ++ nl) ["Ns 10" ++ nl] "Kd" _
            _ _ _ _); reflexivity.
Defined.

(** *** The two readers compared *)

Section Readers.
Import Mtl MtlSpec.

Lemma lstrip_strip l : Str.lstrip (Str.strip l) = Str.strip l.
Proof.
  unfold Str.strip. destruct (Str.lstrip l) as [|c r] eqn:E; [reflexivity|].
  pose proof (lstrip_head _ _ _ E) as Hc.
  rewrite (rstrip_nonspace c r Hc). simpl. now rewrite Hc.
Qed.

Lemma span_token_app s :
  s = String.append (fst (Str.span_token s)) (snd (Str.span_token s)).
Proof.
  induction s as [|c r IH]; simpl; [reflexivity|].
  destruct (Str.is_space c); [reflexivity|].
  destruct (Str.span_token r) as [t rest]. simpl in *.
  change (String c r = String c (String.append t rest)). now rewrite <- IH.
Qed.

Lemma lower_app a b :
  Str.lower (String.append a b) = String.append (Str.lower a) (Str.lower b).
Proof.
  induction a as [|c a IH]; [reflexivity|].
  change (String (Str.lower_char c) (Str.lower (String.append a b))
          = String (Str.lower_char c)
              (String.append (Str.lower a) (Str.lower b))).
  now rewrite IH.
Qed.

Lemma startswith_app a b : Str.startswith (String.append a b) a = true.
Proof.
  unfold Str.startswith. induction a as [|c a IH]; simpl.
  - now destruct b.
  - destruct (ascii_dec c c); [assumption|congruence].
Qed.

(** A line starts, in lower case, with its first token in lower case. *)
Lemma startswith_first_token l :
  Str.startswith (Str.lower (Str.strip l)) (Str.lower (first_token l)) = true.
Proof.
  unfold first_token. rewrite lstrip_strip.
  rewrite (span_token_app (Str.strip l)) at 1.
  rewrite lower_app. apply startswith_app.
Qed.

(** The parts of a directive line. *)
Lemma split1_strip l :
  truthy (Str.strip l) = true ->
  Str.split1 (Str.strip l)
  = first_token l
      :: (if Str.is_empty (directive_value l) then [] else [directive_value l]).
Proof.
  unfold truthy, Str.split1, first_token, directive_value.
  rewrite lstrip_strip. intros H. apply negb_true_iff in H. rewrite H.
  generalize (Str.span_token (Str.strip l)). intros [t rest].
  change ((t, rest).1) with t. change ((t, rest).2) with rest.
  now destruct (Str.lstrip rest).
Qed.

(** [parse_mtl] on a line that is neither blank nor a comment. *)
Lemma parse_line_directive mtl l :
  truthy (Str.strip l) = true -> Str.startswith (Str.strip l) "#" = false ->
  parse_line mtl l =
    if Str.is_empty (directive_value l) then Raise AssertionError
    else if String.eqb (Str.lower (first_token l)) "newmtl" then
      Ok (append_out l (append_material (new_material (directive_value l)) mtl))
    else match current_material mtl with
         | Some i =>
             f ← directive (Str.lower (first_token l)) (directive_value l);
             Ok (append_out l (update_current f i mtl))
         | None => Ok (append_out l mtl)
         end.
Proof.
  intros Ht Hc. unfold parse_line. rewrite Ht, Hc, (split1_strip l Ht).
  simpl negb. cbv iota. simpl orb. cbv iota.
  destruct (directive_value l) as [|c r] eqn:E; [reflexivity|].
  reflexivity.
Qed.

(** [parse_mtl_file] on a line. *)
Lemma file_line_cases m cur l :
  file_line (m, cur) l =
    if Str.startswith (Str.lower (Str.strip l)) "newmtl" then
      if Str.is_empty (directive_value l) then Raise IndexError
      else Ok (m, Some (directive_value l))
    else if current_truthy cur
            && Str.startswith (Str.lower (Str.strip l)) "map_kd" then
      if Str.is_empty (directive_value l) then Raise IndexError
      else Ok (<[default "" cur := directive_value l]> m, cur)
    else Ok (m, cur).
Proof.
  unfold file_line. rewrite index_split1_value.
  destruct (Str.startswith _ "newmtl").
  { now destruct (Str.is_empty _). }
  destruct (current_truthy cur && _); [|reflexivity].
  now destruct (Str.is_empty _).
Qed.

End Readers.

Section Simulation.
Import Mtl MtlSpec.

Lemma kd_map_snoc init mat :
  kd_map (init ++ [mat]) =
    match map_Kd mat with
    | Some tex => <[name mat := tex]> (kd_map init)
    | None => kd_map init
    end.
Proof. unfold kd_map. now rewrite fold_left_app. Qed.

Lemma alter_last {A : Type} (f : A -> A) (init : list A) (a : A) :
  alter f (length init) (init ++ [a])%list = (init ++ [f a])%list.
Proof.
  replace (length init) with (length init + 0)%nat by lia.
  now rewrite alter_app_r.
Qed.

Lemma directive_keeps_kd key value f :
  directive key value = Ok f -> String.eqb key "map_kd" = false ->
  forall mat, name (f mat) = name mat /\ map_Kd (f mat) = map_Kd mat.
Proof.
  unfold directive. intros H Hk mat. rewrite Hk in H.
  repeat match type of H with
         | (if ?b then _ else _) = _ => destruct b
         | (_ ← ?r; _) = _ => destruct r; simpl in H; [|discriminate]
         end;
    injection H as <-; split; reflexivity.
Qed.

(** The keyword test of [parse_mtl_file] agrees with the key of [parse_mtl]
    on a line where the keyword is a token of its own. *)
Lemma keyword_test kw l :
  delimited kw l = true ->
  Str.startswith (Str.lower (Str.strip l)) kw
  = String.eqb (Str.lower (first_token l)) kw.
Proof.
  unfold delimited. intros H.
  destruct (String.eqb (Str.lower (first_token l)) kw) eqn:E.
  - apply String.eqb_eq in E. rewrite <- E. apply startswith_first_token.
  - destruct (Str.startswith _ kw); [discriminate|reflexivity].
Qed.

Lemma blank_or_comment_no_keyword l c kw :
  negb (truthy (Str.strip l)) || Str.startswith (Str.strip l) "#" = true ->
  Str.lower_char "#" <> c ->
  Str.startswith (Str.lower (Str.strip l)) (String c kw) = false.
Proof.
  intros H Hc. destruct (Str.strip l) as [|d r]; [reflexivity|].
  change (negb (truthy (String d r))) with false in H.
  rewrite orb_false_l in H.
  apply startswith_cons in H as [r' [= -> _]].
  unfold Str.startswith.
  change (Str.lower (String "#" r))
    with (String (Str.lower_char "#") (Str.lower r)).
  cbn [String.prefix].
  destruct (ascii_dec c (Str.lower_char "#")); [congruence|reflexivity].
Qed.

Lemma related_step mtl st l mtl' st' :
  related mtl st ->
  delimited "newmtl" l = true -> delimited "map_kd" l = true ->
  parse_line mtl l = Ok mtl' -> file_line st l = Ok st' ->
  related mtl' st'.
Proof.
  intros [Hm Hcur] Hd1 Hd2 Hp Hf. destruct st as [m cur]. simpl in Hm, Hcur.
  rewrite file_line_cases in Hf.
  destruct (negb (truthy (Str.strip l)) || Str.startswith (Str.strip l) "#")
    eqn:Hblank.
  - (* a blank line or a comment *)
    rewrite (blank_or_comment_no_keyword l "n" "ewmtl" Hblank) in Hf
      by discriminate.
    rewrite (blank_or_comment_no_keyword l "m" "ap_kd" Hblank) in Hf
      by discriminate.
    rewrite andb_false_r in Hf. injection Hf as <-.
    unfold parse_line in Hp. rewrite Hblank in Hp. injection Hp as <-.
    split; assumption.
  - apply orb_false_iff in Hblank as [Ht Hc]. apply negb_false_iff in Ht.
    rewrite (parse_line_directive mtl l Ht Hc) in Hp.
    rewrite (keyword_test _ _ Hd1), (keyword_test _ _ Hd2) in Hf.
    destruct (Str.is_empty (directive_value l)) eqn:Hv; [discriminate|].
    destruct (String.eqb (Str.lower (first_token l)) "newmtl") eqn:K1.
    + (* newmtl *)
      injection Hp as <-. injection Hf as <-. split; simpl.
      * now rewrite kd_map_snoc.
      * exists (materials mtl), (new_material (directive_value l)).
        repeat split. simpl. unfold truthy. now rewrite Hv.
    + destruct (current_material mtl) as [i|] eqn:Hi.
      * destruct Hcur as (init & mat & Hmat & -> & -> & Htr).
        simpl current_truthy in Hf. rewrite Htr in Hf. simpl in Hf.
        destruct (directive _ _) as [f|] eqn:Hdir; simpl in Hp; [|discriminate].
        injection Hp as <-. simpl.
        destruct (String.eqb (Str.lower (first_token l)) "map_kd") eqn:K2.
        -- (* map_Kd *)
           apply String.eqb_eq in K2. rewrite K2 in Hdir.
           injection Hdir as <-. injection Hf as <-.
           split; simpl.
           ++ rewrite Hm, Hmat, alter_last, !kd_map_snoc. simpl.
              destruct (map_Kd mat); [|reflexivity].
              now rewrite insert_insert_eq.
           ++ rewrite Hi. exists init, (set_map_Kd (directive_value l) mat).
              rewrite Hmat, alter_last. auto.
        -- injection Hf as <-.
           destruct (directive_keeps_kd _ _ _ Hdir K2 mat) as [Hn Hk].
           split; simpl.
           ++ rewrite Hm, Hmat, alter_last, !kd_map_snoc. now rewrite Hn, Hk.
           ++ rewrite Hi. exists init, (f mat).
              rewrite Hmat, alter_last, Hn. auto.
      * injection Hp as <-. simpl in Hcur. subst cur. simpl in Hf.
        injection Hf as <-. split; simpl; [assumption|now rewrite Hi].
Qed.

Lemma related_steps ls : forall mtl st mtl' st',
  related mtl st ->
  forallb (fun l => delimited "newmtl" l && delimited "map_kd" l) ls = true ->
  parse_lines mtl ls = Ok mtl' -> file_lines st ls = Ok st' ->
  related mtl' st'.
Proof.
  induction ls as [|l ls IH]; intros mtl st mtl' st' HR Hd Hp Hf; simpl in *.
  - injection Hp as <-. injection Hf as <-. assumption.
  - apply andb_true_iff in Hd as [Hl Hd].
    apply andb_true_iff in Hl as [Hd1 Hd2].
    destruct (parse_line mtl l) as [mtl1|] eqn:E1; simpl in Hp; [|discriminate].
    destruct (file_line st l) as [st1|] eqn:E2; simpl in Hf; [|discriminate].
    apply (IH mtl1 st1 mtl' st'); try assumption.
    exact (related_step _ _ _ _ _ HR Hd1 Hd2 E1 E2).
Qed.

End Simulation.

(** C9, as stated, fails: [parse_mtl_file] takes every line that starts with
    [map_kd] for a diffuse map, while [parse_mtl] wants the key to be exactly
    that word. On the text below both succeed; the first maps A to [t.png],
    the second stores the line among the extra properties of A and leaves
    its [map_Kd] empty. *)
Lemma mtl_readers_counterexample :
  ~ forall text tex mtl,
      Mtl.file_text text = Ok tex -> Mtl.parse_text text = Ok mtl ->
      tex = MtlSpec.kd_map (Mtl.materials mtl).
Proof.
  intros H.
  pose (text := "newmtl A" ++ nl ++ "map_Kd_old t.png" ++ nl).
  destruct (Mtl.file_text text) as [tex|] eqn:E1; [|discriminate].
  destruct (Mtl.parse_text text) as [mtl|] eqn:E2; [|discriminate].
  specialize (H text tex mtl E1 E2).
  assert (E3 : tex !! "A" = Some "t.png").
  { injection E1 as <-. reflexivity. }
  assert (E4 : MtlSpec.kd_map (Mtl.materials mtl) !! "A" = None).
  { injection E2 as <-. reflexivity. }
  congruence.
Qed.

(** C9, amended. On a text where every line that starts with [newmtl] or
    [map_kd] (trimmed, in any case) has that word as its first token, and on
    which both routines succeed, the mapping returned by [parse_mtl_file] is
    the one obtained from the materials of [parse_mtl] by taking each
    [map_Kd] in order, a later material replacing an earlier one of the same
    name and a material without [map_Kd] adding nothing. *)
Theorem mtl_readers_agree :
  forall text tex mtl,
    MtlSpec.keywords_delimited text = true ->
    Mtl.file_text text = Ok tex -> Mtl.parse_text text = Ok mtl ->
    tex = MtlSpec.kd_map (Mtl.materials mtl).
Proof.
  intros text tex mtl Hd Hf Hp. unfold Mtl.file_text in Hf.
  destruct (Mtl.file_lines _ _) as [st|] eqn:E; simpl in Hf; [|discriminate].
  injection Hf as <-.
  assert (H0 : MtlSpec.related Mtl.empty (∅, None)) by (split; reflexivity).
  exact (proj1 (related_steps _ _ _ _ _ H0 Hd Hp E)).
Qed.

Lemma mtl_readers_agree_witness :
  exists tex mtl,
    Mtl.parse_text ("newmtl A" ++ nl ++ "Kd 1 1 1" ++ nl ++ "map_Kd a.png" ++ nl
                    ++ "newmtl B" ++ nl ++ "NEWMTL A" ++ nl
                    ++ "Map_KD  b.png " ++ nl) = Ok mtl
    /\ tex = MtlSpec.kd_map (Mtl.materials mtl)
    /\ tex !! "A" = Some "b.png" /\ tex !! "B" = None.
Proof.
  pose (text := "newmtl A" ++ nl ++ "Kd 1 1 1" ++ nl ++ "map_Kd a.png" ++ nl
                ++ "newmtl B" ++ nl ++ "NEWMTL A" ++ nl
                ++ "Map_KD  b.png " ++ nl).
  destruct (Mtl.file_text text) as [tex|] eqn:E1; [|discriminate].
  destruct (Mtl.parse_text text) as [mtl|] eqn:E2; [|discriminate].
  exists tex, mtl. split; [exact E2|].
  split; [exact (mtl_readers_agree text tex mtl eq_refl E1 E2)|].
  injection E1 as <-. split; reflexivity.
Defined.

(** ** The driver *)

(** C3. The run announces a baked mesh; the claim says what such a run owes
    to a texture that is missing, and the code does not do it. The face of
    [m.obj] uses the material M, whose diffuse map [missing.png] does not
    exist. The run opens no texture and writes no file: it prints its final
    message and ends normally, and the files are as they were, without the
    output file that the message names. *)
Theorem main_ignores_missing_texture :
  (exists obj mtl,
     Main.parse_obj MainSpec.broken_assets "m.obj" = Ok obj
     /\ Main.parse_mtl MainSpec.broken_assets "m.mtl" = Ok mtl
     /\ MainSpec.missing_texture MainSpec.broken_assets obj mtl)
  /\ Main.main MainSpec.broken_assets MainSpec.plain_args
       (MainSpec.terminal None)
     = ([Main.Done "m_baked.obj"], Ok tt, MainSpec.broken_assets)
  /\ MainSpec.broken_assets !! "m_baked.obj" = None.
Proof.
  split; [|split; vm_compute; reflexivity].
  destruct (Main.parse_obj MainSpec.broken_assets "m.obj") as [obj|] eqn:E1;
    [|discriminate].
  destruct (Main.parse_mtl MainSpec.broken_assets "m.mtl") as [mtl|] eqn:E2;
    [|discriminate].
  exists obj, mtl. repeat split.
  injection E1 as <-. injection E2 as <-.
  eexists _, _, "missing.png".
  repeat split; [left; reflexivity|left; reflexivity|reflexivity..].
Qed.

(** ** Binary64 rounding *)

Section Rounding.
Import Num.

Lemma digits2_size p : digits2_pos p = Pos.size p.
Proof. induction p; simpl; congruence. Qed.

Lemma Zdigits2_log2 p : Zdigits2 (Zpos p) = Z.log2 (Zpos p) + 1.
Proof.
  simpl. rewrite digits2_size. destruct p; simpl; lia.
Qed.

Lemma fexp_eq k : fexp prec emax k = Z.max (k - 53) (-1074).
Proof. reflexivity. Qed.

(** shifting *)
Lemma shr_1_m mrs : 0 <= shr_m mrs -> shr_m (shr_1 mrs) = shr_m mrs / 2.
Proof.
  destruct mrs as [m r s]. simpl. intros H.
  destruct m as [|p|p]; [reflexivity| |lia].
  destruct p; simpl.
  - rewrite Pos2Z.inj_xI. apply Z.div_unique with 1; lia.
  - rewrite Pos2Z.inj_xO. apply Z.div_unique with 0; lia.
  - reflexivity.
Qed.

Lemma iter_shr_m p : forall mrs, 0 <= shr_m mrs ->
  shr_m (SpecFloat.iter_pos shr_1 p mrs) = shr_m mrs / 2 ^ Zpos p.
Proof.
  induction p as [p IH|p IH|]; intros mrs H; simpl SpecFloat.iter_pos.
  - assert (H1 : 0 <= shr_m (shr_1 mrs)).
    { rewrite shr_1_m by assumption. apply Z.div_pos; lia. }
    assert (H2 : 0 <= shr_m (SpecFloat.iter_pos shr_1 p (shr_1 mrs))).
    { rewrite IH by assumption. apply Z.div_pos; lia. }
    rewrite IH, IH, shr_1_m by assumption.
    rewrite !Z.div_div by lia.
    f_equal. rewrite Pos2Z.inj_xI, <- !Z.pow_add_r, <- Z.pow_succ_r by lia.
    f_equal. lia.
  - assert (H2 : 0 <= shr_m (SpecFloat.iter_pos shr_1 p mrs)).
    { rewrite IH by assumption. apply Z.div_pos; lia. }
    rewrite IH, IH by assumption.
    rewrite !Z.div_div by lia.
    f_equal. rewrite Pos2Z.inj_xO, <- !Z.pow_add_r by lia.
    f_equal. lia.
  - rewrite shr_1_m by assumption. reflexivity.
Qed.

Lemma round_nearest_even_range q l :
  round_nearest_even q l = q \/ round_nearest_even q l = q + 1.
Proof.
  destruct l as [|[]]; simpl; auto. destruct (Z.even q); auto.
Qed.

(** [shr_fexp] on an exact positive input. *)
Lemma shr_fexp_exact (m : Z) e :
  0 <= m ->
  let n := fexp prec emax (Zdigits2 m + e) - e in
  (n <= 0 /\ shr_fexp prec emax m e loc_Exact
             = (Build_shr_record m false false, e))
  \/ (0 < n /\ exists mrs, shr_fexp prec emax m e loc_Exact = (mrs, e + n)
                           /\ shr_m mrs = m / 2 ^ n).
Proof.
  intros Hm n. unfold shr_fexp. fold n. simpl shr_record_of_loc.
  destruct n as [|p|p] eqn:En; simpl shr.
  - left. split; [lia|reflexivity].
  - right. split; [lia|]. eexists. split; [reflexivity|].
    now rewrite iter_shr_m.
  - left. split; [lia|reflexivity].
Qed.

Lemma pow2_split a b : 0 <= a -> 0 <= b -> 2 ^ (a + b) = 2 ^ a * 2 ^ b.
Proof. intros. apply Z.pow_add_r; assumption. Qed.

Lemma lt_pow2_exp_pos (m : positive) k : Zpos m < 2 ^ k -> 0 < k.
Proof.
  intros H. destruct (Z_lt_le_dec 0 k) as [|Hk]; [assumption|].
  assert (2 ^ k <= 1).
  { destruct (Z.eq_dec k 0) as [->|]; [simpl; lia|].
    rewrite Z.pow_neg_r by lia. lia. }
  lia.
Qed.

Lemma le_pow2_exp_nonneg (m : positive) k : Zpos m <= 2 ^ k -> 0 <= k.
Proof.
  intros H. destruct (Z_lt_le_dec k 0) as [Hk|]; [|assumption].
  rewrite Z.pow_neg_r in H by lia. lia.
Qed.

Lemma log2_lt_of_lt_pow2 (m : positive) k : Zpos m < 2 ^ k -> Z.log2 (Zpos m) < k.
Proof.
  intros H. pose proof (lt_pow2_exp_pos m k H).
  apply Z.log2_lt_pow2; lia.
Qed.

Lemma log2_le_of_le_pow2 (m : positive) k : Zpos m <= 2 ^ k -> Z.log2 (Zpos m) <= k.
Proof.
  intros H. pose proof (le_pow2_exp_nonneg m k H).
  rewrite <- (Z.log2_pow2 k) by assumption. now apply Z.log2_le_mono.
Qed.

(** Rounding a positive value below [2 ^ D] gives at most [2 ^ D]. *)
Lemma round_aux_bound s (m : positive) e D :
  -1074 <= D <= 1023 -> e <= 971 -> Zpos m < 2 ^ (D - e) ->
  binary_round_aux prec emax s (Zpos m) e loc_Exact = S754_zero s
  \/ exists m3 e3,
       binary_round_aux prec emax s (Zpos m) e loc_Exact = S754_finite s m3 e3
       /\ Zpos m3 <= 2 ^ (D - e3).
Proof.
  intros HD He Hm. unfold binary_round_aux.
  pose proof (log2_lt_of_lt_pow2 _ _ Hm) as Hlog.
  destruct (shr_fexp_exact (Zpos m) e) as [[Hn E1] | [Hn (mrs & E1 & Hq)]];
    [lia| |]; rewrite E1; cbv iota beta.
  - (* nothing to shift *)
    simpl. rewrite E1. simpl.
    replace (e <=? emax - prec) with true
      by (symmetry; apply Z.leb_le; unfold emax, prec; lia).
    right. exists m, e. split; [reflexivity|lia].
  - set (n := fexp prec emax (Zdigits2 (Z.pos m) + e) - e) in *.
    set (e1 := e + n) in *.
    assert (He1 : e1 = Z.max (Z.log2 (Zpos m) + 1 + e - 53) (-1074)).
    { unfold e1, n. rewrite Zdigits2_log2, fexp_eq. lia. }
    assert (He1D : e1 <= D - 53 \/ e1 = -1074) by lia.
    assert (Hq1 : shr_m mrs + 1 <= 2 ^ (D - e1)).
    { rewrite Hq.
      assert (Zpos m / 2 ^ n < 2 ^ (D - e1)); [|lia].
      apply Z.div_lt_upper_bound; [apply Z.pow_pos_nonneg; lia|].
      rewrite <- pow2_split by lia.
      replace (n + (D - e1)) with (D - e) by (unfold e1; lia). assumption. }
    assert (Hq0 : 0 <= shr_m mrs).
    { rewrite Hq. apply Z.div_pos; [lia|apply Z.pow_pos_nonneg; lia]. }
    set (m2 := round_nearest_even (shr_m mrs) (loc_of_shr_record mrs)).
    assert (Hm2 : 0 <= m2 <= 2 ^ (D - e1)).
    { destruct (round_nearest_even_range (shr_m mrs) (loc_of_shr_record mrs))
        as [E|E]; fold m2 in E; lia. }
    destruct (shr_fexp_exact m2 e1) as [[Hn2 E2] | [Hn2 (mrs2 & E2 & Hq2)]];
      [lia| |]; rewrite E2; cbv iota beta.
    + simpl shr_m. destruct m2 as [|p2|p2]; [now left| |lia].
      replace (e1 <=? emax - prec) with true
        by (symmetry; apply Z.leb_le; unfold emax, prec; lia).
      right. exists p2, e1. split; [reflexivity|lia].
    + rewrite Hq2.
      destruct m2 as [|p2|p2]; [|  |lia].
      { rewrite Z.div_0_l by (apply Z.pow_nonzero; lia). now left. }
      set (n2 := fexp prec emax (Zdigits2 (Z.pos p2) + e1) - e1) in *.
      assert (He3 : e1 + n2 = Z.max (Z.log2 (Zpos p2) + 1 + e1 - 53) (-1074)).
      { unfold n2. rewrite Zdigits2_log2, fexp_eq. lia. }
      assert (Hl2 : Z.log2 (Zpos p2) <= D - e1)
        by (apply log2_le_of_le_pow2; lia).
      assert (Hm3 : Zpos p2 / 2 ^ n2 <= 2 ^ (D - (e1 + n2))).
      { apply Z.div_le_upper_bound; [apply Z.pow_pos_nonneg; lia|].
        rewrite <- pow2_split by lia.
        replace (n2 + (D - (e1 + n2))) with (D - e1) by lia. lia. }
      destruct (Zpos p2 / 2 ^ n2) as [|p3|p3] eqn:E3; [now left| |].
      * replace (e1 + n2 <=? emax - prec) with true
          by (symmetry; apply Z.leb_le; unfold emax, prec; lia).
        right. exists p3, (e1 + n2). split; [reflexivity|assumption].
      * assert (0 <= Zpos p2 / 2 ^ n2)
          by (apply Z.div_pos; [lia|apply Z.pow_pos_nonneg; lia]).
        lia.
Qed.

Lemma iter_xO m d : Zpos (Pos.iter xO m d) = Zpos m * 2 ^ Zpos d.
Proof.
  rewrite <- Z.shiftl_mul_pow2 by lia. simpl Z.shiftl.
  apply (Pos.iter_swap_gen _ _ Zpos xO (Z.mul 2)). reflexivity.
Qed.

(** [shl_align] keeps the value and does not raise the exponent. *)
Lemma shl_align_spec m e e' :
  (shl_align m e e').2 <= e
  /\ Zpos (shl_align m e e').1 = Zpos m * 2 ^ (e - (shl_align m e e').2).
Proof.
  unfold shl_align. destruct (e' - e) as [|d|d] eqn:E; simpl.
  - rewrite Z.sub_diag. lia.
  - rewrite Z.sub_diag. lia.
  - split; [lia|]. rewrite iter_xO. f_equal. f_equal. lia.
Qed.

Lemma aligned_lt m e e' D :
  Zpos m < 2 ^ (D - e) ->
  Zpos (shl_align m e e').1 < 2 ^ (D - (shl_align m e e').2).
Proof.
  intros H. destruct (shl_align_spec m e e') as [H1 H2].
  pose proof (lt_pow2_exp_pos _ _ H).
  rewrite H2.
  replace (D - (shl_align m e e').2)
    with ((D - e) + (e - (shl_align m e e').2)) by lia.
  rewrite pow2_split by lia.
  apply Z.mul_lt_mono_pos_r; [apply Z.pow_pos_nonneg; lia|assumption].
Qed.

Lemma round_bound s (m : positive) e D :
  -1074 <= D <= 1023 -> e <= 971 -> Zpos m < 2 ^ (D - e) ->
  binary_round prec emax s m e = S754_zero s
  \/ exists m3 e3,
       binary_round prec emax s m e = S754_finite s m3 e3
       /\ Zpos m3 <= 2 ^ (D - e3).
Proof.
  intros HD He Hm. unfold binary_round.
  pose proof (aligned_lt m e (fexp prec emax (Z.pos (digits2_pos m) + e)) D Hm)
    as Ha.
  pose proof (shl_align_spec m e (fexp prec emax (Z.pos (digits2_pos m) + e)))
    as [Hb _].
  destruct (shl_align m e _) as [mz ez]. simpl in Ha, Hb.
  apply round_aux_bound; [assumption|lia|assumption].
Qed.

Lemma shl_align_exp m e e' : e' <= e -> (shl_align m e e').2 = e'.
Proof.
  intros H. unfold shl_align. destruct (e' - e) as [|d|d] eqn:E; simpl; lia.
Qed.

Lemma aligned_value m e e' :
  e' <= e -> Zpos (shl_align m e e').1 = Zpos m * 2 ^ (e - e').
Proof.
  intros H. destruct (shl_align_spec m e e') as [_ H2].
  now rewrite shl_align_exp in H2.
Qed.

Lemma aligned_one ez :
  ez <= -52 -> Zpos (shl_align 4503599627370496 (-52) ez).1 = 2 ^ (- ez).
Proof.
  intros H. rewrite aligned_value by assumption.
  change (Zpos 4503599627370496) with (2 ^ 52).
  rewrite <- pow2_split by lia. f_equal. lia.
Qed.

Lemma aligned_le_one m e ez :
  ez <= e -> Zpos m <= 2 ^ (- e) ->
  Zpos (shl_align m e ez).1 <= 2 ^ (- ez).
Proof.
  intros H Hm. rewrite aligned_value by assumption.
  pose proof (le_pow2_exp_nonneg _ _ Hm).
  replace (- ez) with (- e + (e - ez)) by lia.
  rewrite pow2_split by lia.
  apply Z.mul_le_mono_nonneg_r; [apply Z.pow_nonneg; lia|assumption].
Qed.

(** The result of rounding a value between 0 and 1. *)
Lemma normalize_unit (p : positive) ez :
  ez <= 971 -> Zpos p < 2 ^ (- ez) ->
  in_unit (binary_round prec emax false p ez).
Proof.
  intros He Hp.
  destruct (round_bound false p ez 0) as [E | (m3 & e3 & E & Hb)];
    [lia|assumption|now rewrite Z.sub_0_l| |]; rewrite E; simpl.
  - exact I.
  - now rewrite Z.sub_0_l in Hb.
Qed.

(** [fmod u 1.0] of a finite [u]: a zero, or a value below 1 in size. *)
Lemma fmod_one u :
  is_finite u = true ->
  match fmod u Tex.one with
  | S754_zero _ => True
  | S754_finite _ m e => Zpos m <= 2 ^ (- e)
  | _ => False
  end.
Proof.
  destruct u as [s| |  |s m e]; try discriminate; intros _; [exact I|].
  unfold fmod, Tex.one.
  set (ez := Z.min e (-52)).
  assert (Hez : ez <= -52 /\ ez <= e) by (unfold ez; lia).
  rewrite aligned_one by lia.
  set (X := Zpos (shl_align m e ez).1).
  assert (HR : 0 <= Z.rem X (2 ^ (- ez)) < 2 ^ (- ez)).
  { apply Z.rem_bound_pos; [unfold X; lia|apply Z.pow_pos_nonneg; lia]. }
  destruct (Z.rem X (2 ^ (- ez))) as [|p|p]; [destruct s; exact I| |lia].
  assert (Hr : forall s', match binary_round prec emax s' p ez with
                          | S754_zero _ => True
                          | S754_finite _ m0 e0 => Zpos m0 <= 2 ^ (- e0)
                          | _ => False
                          end).
  { intros s'.
    destruct (round_bound s' p ez 0) as [E | (m3 & e3 & E & Hb)];
      [lia|lia|rewrite Z.sub_0_l; lia| |]; rewrite E; [exact I|].
    now rewrite Z.sub_0_l in Hb. }
  destruct s; simpl; apply Hr.
Qed.

Lemma in_unit_one : in_unit Tex.one.
Proof. simpl. lia. Qed.

(** [m + 1.0] for a negative [m] above [-1]. *)
Lemma add_one_unit m e :
  Zpos m <= 2 ^ (- e) -> in_unit (fadd (S754_finite true m e) Tex.one).
Proof.
  intros Hm. unfold fadd, Tex.one, SFadd.
  set (ez := Z.min e (-52)).
  assert (Hez : ez <= -52 /\ ez <= e) by (unfold ez; lia).
  rewrite aligned_one by lia.
  pose proof (aligned_le_one m e ez (proj2 Hez) Hm) as HX.
  set (X := Zpos (shl_align m e ez).1) in *.
  assert (0 < X) by (unfold X; lia).
  unfold cond_Zopp.
  destruct (- X + 2 ^ (- ez)) as [|p|p] eqn:E; simpl; [exact I| |lia].
  apply normalize_unit; lia.
Qed.

(** [1.0 - a] for [a] between 0 and 1. *)
Lemma one_sub_unit a : in_unit a -> in_unit (fsub Tex.one a).
Proof.
  destruct a as [[|]| | |[|] m e]; simpl; try contradiction; intros Hm.
  - lia.
  - unfold fsub, Tex.one, SFsub.
    set (ez := Z.min (-52) e).
    assert (Hez : ez <= -52 /\ ez <= e) by (unfold ez; lia).
    rewrite aligned_one by lia.
    pose proof (aligned_le_one m e ez (proj2 Hez) Hm) as HX.
    set (X := Zpos (shl_align m e ez).1) in *.
    assert (0 < X) by (unfold X; lia).
    unfold cond_Zopp.
    destruct (2 ^ (- ez) - X) as [|p|p] eqn:E; simpl; [exact I| |lia].
    apply normalize_unit; lia.
Qed.

(** [u % 1.0] of a finite [u] is a value between 0 and 1. *)
Lemma py_mod_one u :
  is_finite u = true -> exists w, py_mod u Tex.one = Ok w /\ in_unit w.
Proof.
  intros Hu. pose proof (fmod_one u Hu) as Hm. unfold py_mod.
  change (is_zero Tex.one) with false. cbv iota.
  destruct (fmod u Tex.one) as [s| | |s m e]; try contradiction.
  - exists (S754_zero false). split; [reflexivity|exact I].
  - destruct s.
    + exists (fadd (S754_finite true m e) Tex.one).
      split; [reflexivity|now apply add_one_unit].
    + exists (S754_finite false m e). split; [reflexivity|assumption].
Qed.

(** The conversion of a size to a float. *)
Lemma float_of_size n :
  0 < n < 2 ^ 31 ->
  exists m e, float_of_int n = Ok (S754_finite false m e)
              /\ Zpos m <= 2 ^ (31 - e)
  \/ float_of_int n = Ok (S754_zero false).
Proof.
  intros Hn. destruct n as [|p|p]; try lia.
  unfold float_of_int, binary_normalize.
  destruct (round_bound false p 0 31) as [E | (m3 & e3 & E & Hb)];
    [lia|lia|rewrite Z.sub_0_r; lia| |]; rewrite E.
  - exists 1%positive, 0. now right.
  - exists m3, e3. left. split; [reflexivity|assumption].
Qed.

(** [a * n] for [a] between 0 and 1 and a size [n]. *)
Lemma mul_unit_size a n :
  in_unit a -> 0 < n < 2 ^ 31 ->
  exists f, Tex.mul_int a n = Ok f /\ nonneg_finite f.
Proof.
  intros Ha Hn. unfold Tex.mul_int.
  destruct (float_of_size n Hn) as (mh & eh & [[E Hh] | E]); rewrite E; simpl.
  - destruct a as [[|]| | |[|] ma ea]; simpl in Ha; try contradiction.
    + eexists. split; [reflexivity|exact I].
    + unfold fmul, SFmul. simpl xorb.
      pose proof (le_pow2_exp_nonneg _ _ Ha).
      pose proof (le_pow2_exp_nonneg _ _ Hh).
      destruct (round_aux_bound false (ma * mh) (ea + eh) 32)
        as [E2 | (m3 & e3 & E2 & Hb)]; [lia|lia| | |].
      * rewrite Pos2Z.inj_mul.
        apply Z.le_lt_trans with (2 ^ (- ea) * 2 ^ (31 - eh)).
        { apply Z.mul_le_mono_nonneg; lia. }
        rewrite <- pow2_split by lia.
        apply Z.pow_lt_mono_r; lia.
      * rewrite E2. eexists. split; [reflexivity|exact I].
      * rewrite E2. eexists. split; [reflexivity|exact I].
  - destruct a as [[|]| | |[|] ma ea]; simpl in Ha; try contradiction;
      (eexists; split; [reflexivity|exact I]).
Qed.

(** [int(x)] of a zero or positive float is its floor, and is not negative. *)
Lemma int_of_nonneg f :
  nonneg_finite f ->
  exists z, int_of_float f = Ok z /\ floor f = Some z /\ 0 <= z.
Proof.
  destruct f as [[|]| | |[|] m e]; simpl; try contradiction; intros _.
  - exists 0. auto with zarith.
  - destruct e as [|k|k].
    + exists (Zpos m). simpl. repeat split; try lia.
      f_equal. change (2 ^ 0) with 1. lia.
    + eexists. split; [reflexivity|]. rewrite Z.shiftl_mul_pow2 by lia.
      split; [reflexivity|]. apply Z.mul_nonneg_nonneg; [lia|].
      apply Z.pow_nonneg; lia.
    + eexists. split; [reflexivity|]. rewrite Z.shiftr_div_pow2 by lia.
      split; [reflexivity|]. apply Z.div_pos; [lia|].
      apply Z.pow_pos_nonneg; lia.
Qed.

Lemma bands_ok : forallb TexSpec.band_ok (map Z.of_nat (seq 0 256)) = true.
Proof. vm_compute. reflexivity. Qed.

Lemma truediv_band r :
  0 <= r <= 255 -> exists x, Tex.truediv r Tex.f255 = Ok x /\ in_unit x.
Proof.
  intros Hr.
  assert (Hin : In r (map Z.of_nat (seq 0 256))).
  { apply in_map_iff. exists (Z.to_nat r). split; [lia|].
    apply in_seq. lia. }
  pose proof (proj1 (forallb_forall _ _) bands_ok r Hin) as H.
  unfold TexSpec.band_ok in H.
  destruct (Tex.truediv r Tex.f255) as [x|]; [|discriminate].
  exists x. split; [reflexivity|].
  destruct x as [[|]| | |[|] m e]; try discriminate; simpl; [exact I|].
  now apply Z.leb_le.
Qed.

End Rounding.

(** ** The texture sampler *)

(** C7, as stated, fails: Python's float modulo does not keep a tiny negative
    input below 1. For [u = -1e-20] the remainder is [u] itself, and
    [u + 1.0] rounds to [1.0]. *)
Lemma uv_wrap_counterexample :
  ~ forall u w, Num.is_finite u = true -> Num.py_mod u Tex.one = Ok w ->
                SFltb w Tex.one = true.
Proof.
  intros H.
  specialize (H (Num.lit "-1e-20") Tex.one eq_refl eq_refl).
  discriminate.
Qed.

(** C7, amended. For every finite [u] and [v] the sampler wraps both with the
    float modulo into the closed interval from 0 to 1: the result is never
    negative, and never above 1. So sampling at [u = 1.25], [v = -0.25]
    gives, for every image, what sampling at [u = 0.25], [v = 0.75] gives. *)
Theorem uv_wrap :
  (forall u, Num.is_finite u = true ->
     exists w, Num.py_mod u Tex.one = Ok w /\ Num.in_unit w)
  /\ (forall image,
        Tex.sample_texture image (Num.lit "1.25") (Num.lit "-0.25")
        = Tex.sample_texture image (Num.lit "0.25") (Num.lit "0.75")).
Proof.
  split; [exact py_mod_one|].
  intros image. unfold Tex.sample_texture.
  destruct (Tex.size image) as [w h].
  assert (Eu : Num.py_mod (Num.lit "1.25") Tex.one
               = Num.py_mod (Num.lit "0.25") Tex.one) by reflexivity.
  assert (Ev : Num.py_mod (Num.lit "-0.25") Tex.one
               = Num.py_mod (Num.lit "0.75") Tex.one) by reflexivity.
  now rewrite Eu, Ev.
Qed.

Lemma uv_wrap_witness :
  exists w, Num.py_mod (Num.lit "-7.5") Tex.one = Ok w /\ Num.in_unit w.
Proof. exact (proj1 uv_wrap (Num.lit "-7.5") eq_refl). Defined.

(** C8, as stated, fails: the coordinates that the parser accepts include
    [nan] and [inf], whose remainder is a NaN, and [int] of a NaN raises. *)
Lemma sampler_counterexample :
  Tex.sample_texture TexSpec.checker (Num.lit "nan") (Num.lit "0.5")
  = Raise ValueError
  /\ Tex.sample_texture TexSpec.checker (Num.lit "0.5") (Num.lit "inf")
     = Raise ValueError.
Proof. split; reflexivity. Qed.

(** C8, amended. For every image of the library with positive width and
    height and every finite [u] and [v], the sampler reads the pixel in
    column [min(floor(u_wrapped * width), width - 1)] and row
    [min(floor((1 - v_wrapped) * height), height - 1)], both inside the
    image, and returns its first three bands, each divided by 255: three
    values between 0 and 1. *)
Theorem sampler_reads_nearest_pixel :
  forall image w h u v,
    Tex.size image = (w, h) -> 0 < w -> 0 < h ->
    TexSpec.library_image image ->
    Num.is_finite u = true -> Num.is_finite v = true ->
    exists u_wrapped v_wrapped fx fy a b red green blue rest r' g' b',
      Num.py_mod u Tex.one = Ok u_wrapped
      /\ Num.py_mod v Tex.one = Ok v_wrapped
      /\ Tex.mul_int u_wrapped w = Ok fx /\ Num.floor fx = Some a
      /\ Tex.mul_int (Num.fsub Tex.one v_wrapped) h = Ok fy
      /\ Num.floor fy = Some b
      /\ 0 <= Z.min a (w - 1) < w /\ 0 <= Z.min b (h - 1) < h
      /\ Tex.getpixel image (Z.min a (w - 1), Z.min b (h - 1))
         = Ok (red :: green :: blue :: rest)
      /\ Tex.truediv red Tex.f255 = Ok r'
      /\ Tex.truediv green Tex.f255 = Ok g'
      /\ Tex.truediv blue Tex.f255 = Ok b'
      /\ Tex.sample_texture image u v = Ok (r', g', b')
      /\ Num.in_unit r' /\ Num.in_unit g' /\ Num.in_unit b'.
Proof.
  intros image w h u v Hsize Hw Hh Himg Hu Hv.
  unfold TexSpec.library_image in Himg. rewrite Hsize in Himg.
  destruct Himg as (Hw' & Hh' & Hpix).
  destruct (py_mod_one u Hu) as (uw & Euw & Huw).
  destruct (py_mod_one v Hv) as (vw & Evw & Hvw).
  destruct (mul_unit_size uw w Huw (conj Hw Hw')) as (fx & Efx & Hfx).
  destruct (mul_unit_size _ h (one_sub_unit vw Hvw) (conj Hh Hh'))
    as (fy & Efy & Hfy).
  destruct (int_of_nonneg fx Hfx) as (a & Ea & Fa & Ha).
  destruct (int_of_nonneg fy Hfy) as (b & Eb & Fb & Hb).
  assert (Hx : 0 <= Z.min a (w - 1) < w) by lia.
  assert (Hy : 0 <= Z.min b (h - 1) < h) by lia.
  destruct (Hpix _ _ Hx Hy) as (red & green & blue & rest & Ep & Hr & Hg & Hbl).
  destruct (truediv_band red Hr) as (r' & Er & Hr').
  destruct (truediv_band green Hg) as (g' & Eg & Hg').
  destruct (truediv_band blue Hbl) as (b' & Ebl & Hb').
  exists uw, vw, fx, fy, a, b, red, green, blue, rest, r', g', b'.
  repeat (split; [assumption|]).
  split; [|auto].
  unfold Tex.sample_texture. rewrite Hsize. unfold mbind, result_bind.
  rewrite Euw, Evw. cbv beta iota.
  rewrite Efx. cbv beta iota. rewrite Ea. cbv beta iota.
  rewrite Efy. cbv beta iota. rewrite Eb. cbv beta iota.
  rewrite Ep. cbn [take]. cbv beta iota.
  rewrite Er. cbv beta iota. rewrite Eg. cbv beta iota. rewrite Ebl.
  reflexivity.
Qed.

Lemma checker_library_image : TexSpec.library_image TexSpec.checker.
Proof.
  unfold TexSpec.library_image. simpl Tex.size.
  split; [reflexivity|]. split; [reflexivity|].
  intros x y Hx Hy.
  assert (Ex : x = 0 \/ x = 1) by lia. assert (Ey : y = 0 \/ y = 1) by lia.
  destruct Ex as [-> | ->], Ey as [-> | ->]; simpl;
    do 4 eexists; (split; [reflexivity|lia]).
Qed.

Lemma sampler_reads_nearest_pixel_witness :
  exists rgb,
    Tex.sample_texture TexSpec.checker (Num.lit "0.25") (Num.lit "0.1")
    = Ok rgb
    /\ Num.in_unit rgb.1.1 /\ Num.in_unit rgb.1.2 /\ Num.in_unit rgb.2.
Proof.
  destruct (sampler_reads_nearest_pixel TexSpec.checker 2 2
              (Num.lit "0.25") (Num.lit "0.1") eq_refl eq_refl eq_refl
              checker_library_image eq_refl eq_refl)
    as (uw & vw & fx & fy & a & b & red & green & blue & rest & r' & g' & b'
        & H).
  exists (r', g', b'). simpl. tauto.
Defined.

(** ** The scope of a material *)

Section ScopeFacts.
Import ScopeSpec.

Lemma rstrip_idem s : Str.rstrip (Str.rstrip s) = Str.rstrip s.
Proof.
  induction s as [|c r IH]; [reflexivity|]. simpl.
  destruct (Str.is_space c && Str.is_empty (Str.rstrip r)) eqn:E;
    [reflexivity|].
  simpl. now rewrite IH, E.
Qed.

Lemma strip_rstrip l : Str.rstrip (Str.strip l) = Str.strip l.
Proof. apply rstrip_idem. Qed.

(** A string without trailing whitespace has no suffix with any. *)
Lemma rstrip_fixed_tail c r :
  Str.rstrip (String c r) = String c r -> Str.rstrip r = r.
Proof.
  simpl. destruct (Str.is_space c && Str.is_empty (Str.rstrip r));
    [discriminate|]. now intros [= H].
Qed.

Lemma rstrip_fixed_app a b :
  Str.rstrip (String.append a b) = String.append a b -> Str.rstrip b = b.
Proof.
  induction a as [|c a IH]; [auto|].
  change (String.append (String c a) b) with (String c (String.append a b)).
  intros H. apply IH. now apply rstrip_fixed_tail with c.
Qed.

Lemma lstrip_suffix r : exists a, r = String.append a (Str.lstrip r).
Proof.
  induction r as [|c r [a IH]]; [now exists ""|]. simpl.
  destruct (Str.is_space c); [|now exists ""].
  exists (String c a).
  change (String c r = String c (String.append a (Str.lstrip r))).
  now rewrite <- IH.
Qed.

Lemma length_lower s : String.length (Str.lower s) = String.length s.
Proof. induction s as [|c r IH]; simpl; congruence. Qed.

Lemma skip_app a b : skip (String.length a) (String.append a b) = b.
Proof. induction a as [|c a IH]; [reflexivity|exact IH]. Qed.

(** A letter of the keyword, read in lower case. *)
Lemma keyword_letter k c (rest : bool) :
  In k (list_ascii_of_string "usemtl") ->
  (if ascii_dec k (Str.lower_char c) then rest else false)
  = (Ascii.eqb c k || Ascii.eqb c (capital k)) && rest.
Proof.
  intros Hk. simpl in Hk.
  destruct Hk as [<-|[<-|[<-|[<-|[<-|[<-|[]]]]]]];
    destruct c as [[] [] [] [] [] [] [] []]; reflexivity.
Qed.

Lemma usemtl_line_keyword l :
  ObjSpec.usemtl_line l = starts_with_keyword "usemtl" (Str.strip l).
Proof.
  unfold ObjSpec.usemtl_line, Str.startswith.
  generalize (Str.strip l). intros s.
  do 6 (destruct s as [|? s]; [reflexivity|];
        cbn [Str.lower String.prefix starts_with_keyword];
        rewrite keyword_letter by (simpl; tauto); f_equal).
  now destruct s.
Qed.

(** When the keyword stands alone, what follows the first token is the
    trimmed remainder of the line. *)
Lemma keyword_alone_remainder l :
  keyword_alone l = true ->
  ObjSpec.usemtl_line l = true /\ directive_value l = remainder l.
Proof.
  unfold keyword_alone. intros H. apply String.eqb_eq in H. split.
  - unfold ObjSpec.usemtl_line. rewrite <- H. apply startswith_first_token.
  - unfold directive_value, remainder, first_token in *.
    rewrite lstrip_strip in *.
    pose proof (span_token_app (Str.strip l)) as Hs.
    pose proof (strip_rstrip l) as Hr.
    destruct (Str.span_token (Str.strip l)) as [t rest].
    cbn [fst snd] in *.
    assert (Hlen : String.length t = 6%nat)
      by now rewrite <- (length_lower t), H.
    rewrite Hs in Hr |- *. rewrite <- Hlen, skip_app.
    apply rstrip_fixed_app in Hr.
    destruct (lstrip_suffix rest) as [a Ha].
    rewrite Ha in Hr. apply rstrip_fixed_app in Hr.
    unfold Str.strip. now rewrite Hr.
Qed.

Lemma parse_usemtl_value obj l :
  ObjSpec.usemtl_line l = true ->
  Obj.parse_line obj l
  = if Str.is_empty (directive_value l) then Raise IndexError
    else Ok (Obj.append_out (Obj.Verbatim l)
               (Obj.set_current_material (directive_value l) obj)).
Proof.
  intros Hu. rewrite (parse_usemtl obj l Hu), index_split1_value.
  now destruct (Str.is_empty _).
Qed.

End ScopeFacts.

(** C5, as stated, fails: a line that starts with [usemtl] need not set the
    current material to the trimmed remainder of the line. On
    [usemtl_old Wood] the remainder is [_old Wood] and the parser stores
    [Wood]; on [usemtlWood] the remainder is [Wood] and the parser raises
    [IndexError]. *)
Lemma material_scoping_counterexample :
  (ObjSpec.usemtl_line ("usemtl_old Wood" ++ nl) = true
   /\ ScopeSpec.remainder ("usemtl_old Wood" ++ nl) = "_old Wood"
   /\ Obj.parse_line Obj.empty ("usemtl_old Wood" ++ nl)
      = Ok (Obj.mkOBJ [] [] [] []
              [Obj.Verbatim ("usemtl_old Wood" ++ nl)] "Wood"))
  /\ (ObjSpec.usemtl_line ("usemtlWood" ++ nl) = true
      /\ ScopeSpec.remainder ("usemtlWood" ++ nl) = "Wood"
      /\ Obj.parse_line Obj.empty ("usemtlWood" ++ nl) = Raise IndexError).
Proof. repeat split; reflexivity. Qed.

(** C5, amended. A line is a [usemtl] line when its trimmed form starts with
    the six letters of the keyword, each in either case. Such a line sets the
    current material to the text that follows its first token, trimmed, and
    raises [IndexError] when there is no such text; when the keyword stands
    alone as the first token, that text is the trimmed remainder of the
    line. The faces read after the line, up to the next such line, are
    exactly the faces added to the mesh, and each of them carries that name,
    which is still the current material at the end. So for [usemtl A], two
    faces, [usemtl B], one face, the faces carry A, A, B. *)
Theorem material_scoping :
  (forall l,
     ObjSpec.usemtl_line l
     = ScopeSpec.starts_with_keyword "usemtl" (Str.strip l))
  /\ (forall obj l,
        ObjSpec.usemtl_line l = true ->
        Obj.parse_line obj l
        = if Str.is_empty (directive_value l) then Raise IndexError
          else Ok (Obj.append_out (Obj.Verbatim l)
                     (Obj.set_current_material (directive_value l) obj)))
  /\ (forall l,
        ScopeSpec.keyword_alone l = true ->
        ObjSpec.usemtl_line l = true
        /\ directive_value l = ScopeSpec.remainder l)
  /\ (forall pre l post final,
        Obj.parse_lines Obj.empty (pre ++ l :: post) = Ok final ->
        ObjSpec.usemtl_line l = true ->
        forallb (fun l' => negb (ObjSpec.usemtl_line l')) post = true ->
        exists before new,
          Obj.parse_lines Obj.empty pre = Ok before
          /\ Obj.faces final = (Obj.faces before ++ new)%list
          /\ length new
             = length (filter (fun l' => ObjSpec.face_line l' = true) post)
          /\ Forall (fun f => Obj.material f = directive_value l) new
          /\ Obj.current_material final = directive_value l)
  /\ (exists obj,
        Obj.parse_text ("usemtl A" ++ nl ++ "f 1 2 3" ++ nl ++ "f 1 3 4" ++ nl
                        ++ "usemtl B" ++ nl ++ "f 4 5 6" ++ nl) = Ok obj
        /\ ObjSpec.face_materials obj = ["A"; "A"; "B"]).
Proof.
  split; [exact usemtl_line_keyword|].
  split; [exact parse_usemtl_value|].
  split; [exact keyword_alone_remainder|].
  split.
  - intros pre l post final H Hu Hpost.
    rewrite parse_lines_app in H.
    destruct (Obj.parse_lines Obj.empty pre) as [before|e]; simpl in H;
      [|discriminate].
    rewrite (parse_usemtl_value before l Hu) in H.
    destruct (Str.is_empty (directive_value l)); simpl in H;
      [discriminate|].
    destruct (parse_lines_keep_material _ _ _ H Hpost)
      as (Hc & new & Hnew & Hall & Hlen).
    simpl in *. exists before, new. auto.
  - eexists. split; reflexivity.
Qed.

Lemma material_scoping_witness :
  exists before new,
    Obj.parse_lines Obj.empty ["f 1 2 3" ++ nl] = Ok before
    /\ length new = 2%nat
    /\ Forall (fun f => Obj.material f = "Dark Wood") new.
Proof.
  destruct (proj1 (proj2 (proj2 (proj2 material_scoping)))
              ["f 1 2 3" ++ nl] ("  UseMtl   Dark Wood  " ++ nl)
              ["F 1 2 3" ++ nl; "# note" ++ nl; "f 2 3 4" ++ nl]
              _ eq_refl eq_refl eq_refl)
    as (before & new & Hb & _ & Hlen & Hall & _).
  exists before, new. auto.
Defined.

(** * Further properties of the code *)

(** * Further properties *)

(** ** The mesh parser, line by line *)

(** Splits [H : parse_line obj l = Ok obj'] into the six branches of the
    loop body, with the state after the line written out. *)
Ltac parse_line_cases H :=
  unfold Obj.parse_line in H;
  destruct (Str.startswith _ "v ") eqn:?Hv;
  [ destruct (Obj.read_position _) as [?p|] eqn:?Hread; simpl in H;
    [injection H as <- | discriminate]
  | destruct (Str.startswith _ "vt ") eqn:?Hvt;
    [ destruct (Obj.read_texcoord _) as [?p|] eqn:?Hread; simpl in H;
      [injection H as <- | discriminate]
    | destruct (Str.startswith _ "vn ") eqn:?Hvn;
      [ destruct (Obj.read_normal _) as [?p|] eqn:?Hread; simpl in H;
        [injection H as <- | discriminate]
      | destruct (Str.startswith (Str.lower _) "usemtl") eqn:?Hu;
        [ destruct (index _ 1) as [?m|] eqn:?Hidx; simpl in H;
          [injection H as <- | discriminate]
        | destruct (Str.startswith (Str.lower _) "f ") eqn:?Hf;
          [ destruct (mapM _ _) as [?fvs|] eqn:?Hfvs; simpl in H;
            [injection H as <- | discriminate]
          | injection H as <- ] ] ] ] ].

Section ObjMore.
Import Obj ObjSpec ObjInv.

(** Whether a line is accepted does not depend on the state. *)
Lemma parse_line_accepts obj l : is_ok (parse_line obj l) = accepts l.
Proof.
  unfold accepts, parse_line.
  repeat match goal with
         | |- context [if ?b then _ else _] => destruct b
         | |- context [mbind _ ?r] => destruct r; simpl
         end; reflexivity.
Qed.

Lemma parse_lines_accepts ls : forall obj,
  is_ok (parse_lines obj ls) = forallb accepts ls.
Proof.
  induction ls as [|l ls IH]; intros obj; simpl; [reflexivity|].
  rewrite <- (parse_line_accepts obj l).
  destruct (parse_line obj l); simpl; [apply IH|reflexivity].
Qed.

Lemma parse_lines_first_error ls : forall obj e,
  parse_lines obj ls = Raise e <->
  exists pre l post obj',
    ls = (pre ++ l :: post)%list /\ parse_lines obj pre = Ok obj'
    /\ parse_line obj' l = Raise e.
Proof.
  induction ls as [|l ls IH]; intros obj e; simpl.
  - split; [discriminate|]. intros (pre & l & post & obj' & H & _).
    destruct pre; discriminate.
  - split.
    + destruct (parse_line obj l) as [obj1|e1] eqn:E; simpl.
      * intros H. apply IH in H as (pre & l' & post & obj' & -> & Hp & He).
        exists (l :: pre), l', post, obj'. simpl. rewrite E. auto.
      * intros [= ->]. exists [], l, ls, obj. auto.
    + intros (pre & l' & post & obj' & Hls & Hp & He).
      destruct pre as [|l0 pre]; simpl in *.
      * injection Hls as -> ->. injection Hp as ->. now rewrite He.
      * injection Hls as -> ->.
        destruct (parse_line obj l0) as [obj1|e1]; simpl in *; [|discriminate].
        apply IH. eauto 10.
Qed.

End ObjMore.

(** X1. Whether the mesh parser accepts a line does not depend on the state
    it has reached, so whether it accepts a text is decided line by line: no
    line is accepted or refused because of the lines before it. *)
Theorem obj_accepts_line_by_line :
  (forall obj l, is_ok (Obj.parse_line obj l) = ObjInv.accepts l)
  /\ (forall text,
        is_ok (Obj.parse_text text)
        = forallb ObjInv.accepts (Str.lines text)).
Proof.
  split.
  - exact parse_line_accepts.
  - intros text. unfold Obj.parse_text. apply parse_lines_accepts.
Qed.

(** ** What the mesh parser builds *)

Section ObjBuild.
Import Obj ObjSpec ObjInv.

Lemma startswith_step c r p :
  Str.startswith (String c r) (String c p) = Str.startswith r p.
Proof.
  unfold Str.startswith. cbn [String.prefix].
  destruct (ascii_dec c c); [reflexivity|congruence].
Qed.

Lemma startswith_other c d r p :
  c <> d -> Str.startswith (String c r) (String d p) = false.
Proof.
  intros H. unfold Str.startswith. cbn [String.prefix].
  destruct (ascii_dec d c); [congruence|reflexivity].
Qed.

Lemma startswith_v_space l :
  Str.startswith l "v " = true ->
  Str.startswith l "vt " = false /\ Str.startswith l "vn " = false.
Proof.
  intros H. destruct (startswith_cons _ _ _ H) as [r ->].
  rewrite startswith_step in H. destruct (startswith_cons _ _ _ H) as [r' ->].
  rewrite !startswith_step. split; apply startswith_other; discriminate.
Qed.

Lemma startswith_vt l :
  Str.startswith l "vt " = true -> Str.startswith l "vn " = false.
Proof.
  intros H. destruct (startswith_cons _ _ _ H) as [r ->].
  rewrite startswith_step in H. destruct (startswith_cons _ _ _ H) as [r' ->].
  rewrite !startswith_step. apply startswith_other; discriminate.
Qed.

Lemma geometry_not_face l p :
  Str.startswith l (String "v" p) = true ->
  usemtl_line l = false /\ face_line l = false.
Proof.
  intros H. apply startswith_v_strip in H as [r Hr].
  unfold face_line, usemtl_line. rewrite Hr. simpl. auto.
Qed.

Lemma count_cons P l ls :
  count_lines P (l :: ls)
  = ((if P l then 1 else 0) + count_lines P ls)%nat.
Proof. unfold count_lines. simpl. now destruct (P l). Qed.

(** How one accepted line changes the sizes of the arrays. *)
Lemma parse_line_sizes obj l obj' :
  parse_line obj l = Ok obj' ->
  length (positions obj')
  = (length (positions obj)
     + if Str.startswith l "v " then 1 else 0)%nat
  /\ length (texcoords obj')
     = (length (texcoords obj)
        + if Str.startswith l "vt " then 1 else 0)%nat
  /\ length (normals obj')
     = (length (normals obj)
        + if Str.startswith l "vn " then 1 else 0)%nat
  /\ length (faces obj')
     = (length (faces obj) + if face_line l then 1 else 0)%nat.
Proof.
  intros H. destruct (face_line l) eqn:Hface.
  - pose proof (parse_face obj l Hface) as E. rewrite E in H.
    unfold face_line in Hface. apply andb_true_iff in Hface as [_ Hf].
    destruct (not_geometry_of_lower_head l "f" " " Hf) as (-> & -> & ->);
      [discriminate..|].
    destruct (mapM _ _); simpl in H; [|discriminate]. injection H as <-.
    simpl. rewrite length_app. simpl. lia.
  - parse_line_cases H; simpl; rewrite ?length_app; simpl.
    + destruct (startswith_v_space l Hv) as [-> ->]. lia.
    + rewrite (startswith_vt l Hvt). lia.
    + lia.
    + lia.
    + unfold face_line, usemtl_line in Hface. rewrite Hu, Hf in Hface.
      discriminate.
    + lia.
Qed.

Lemma parse_lines_sizes ls : forall obj obj',
  parse_lines obj ls = Ok obj' ->
  length (positions obj')
  = (length (positions obj)
     + count_lines (fun l => Str.startswith l "v ") ls)%nat
  /\ length (texcoords obj')
     = (length (texcoords obj)
        + count_lines (fun l => Str.startswith l "vt ") ls)%nat
  /\ length (normals obj')
     = (length (normals obj)
        + count_lines (fun l => Str.startswith l "vn ") ls)%nat
  /\ length (faces obj')
     = (length (faces obj) + count_lines face_line ls)%nat.
Proof.
  induction ls as [|l ls IH]; intros obj obj' H; simpl in H.
  - injection H as <-. unfold count_lines. simpl. lia.
  - destruct (parse_line obj l) as [obj1|] eqn:E; simpl in H; [|discriminate].
    destruct (parse_line_sizes _ _ _ E) as (E1 & E2 & E3 & E4).
    destruct (IH _ _ H) as (F1 & F2 & F3 & F4).
    rewrite !count_cons. lia.
Qed.

End ObjBuild.

(** X3. On success the mesh has one position for each line that starts with
    [v ], one texcoord for each line that starts with [vt ], one normal for
    each line that starts with [vn ], and one face for each face line:
    nothing is dropped and nothing is added. *)
Theorem obj_entity_counts :
  forall text obj,
    Obj.parse_text text = Ok obj ->
    length (Obj.positions obj)
    = ObjInv.count_lines (fun l => Str.startswith l "v ") (Str.lines text)
    /\ length (Obj.texcoords obj)
       = ObjInv.count_lines (fun l => Str.startswith l "vt ") (Str.lines text)
    /\ length (Obj.normals obj)
       = ObjInv.count_lines (fun l => Str.startswith l "vn ") (Str.lines text)
    /\ length (Obj.faces obj)
       = ObjInv.count_lines ObjSpec.face_line (Str.lines text).
Proof.
  intros text obj H. unfold Obj.parse_text in H.
  destruct (parse_lines_sizes _ _ _ H) as (E1 & E2 & E3 & E4).
  simpl in *. auto.
Qed.

Lemma obj_entity_counts_witness :
  exists obj,
    Obj.parse_text ("v 0 0 0" ++ nl ++ " v 1 1 1" ++ nl ++ "vt 0 1" ++ nl
                    ++ "F 1/1 1/1 1/1" ++ nl) = Ok obj
    /\ length (Obj.positions obj) = 1%nat /\ length (Obj.faces obj) = 1%nat.
Proof.
  destruct (Obj.parse_text ("v 0 0 0" ++ nl ++ " v 1 1 1" ++ nl ++ "vt 0 1"
                            ++ nl ++ "F 1/1 1/1 1/1" ++ nl))
    as [obj|] eqn:E; [|discriminate].
  destruct (obj_entity_counts _ obj E) as (E1 & _ & _ & E4).
  exists obj. split; [reflexivity|]. split; [exact E1|exact E4].
Defined.

Section ObjTags.
Import Obj ObjSpec ObjInv.

Lemma tag_indices_app kind a b :
  tag_indices kind (a ++ b) = (tag_indices kind a ++ tag_indices kind b)%list.
Proof.
  induction a as [|[k i|t] a IH]; simpl; [reflexivity| |assumption].
  destruct (String.eqb k kind); simpl; now rewrite IH.
Qed.

Lemma seq_snoc n : seq 0 (n + 1) = (seq 0 n ++ [n])%list.
Proof. rewrite Nat.add_1_r, seq_S. reflexivity. Qed.

Lemma parse_line_tags obj l obj' :
  parse_line obj l = Ok obj' -> tags_number obj -> tags_number obj'.
Proof.
  intros H (T1 & T2 & T3). unfold tags_number.
  parse_line_cases H; simpl; rewrite !tag_indices_app, ?length_app; simpl;
    rewrite ?app_nil_r, T1, T2, T3, ?seq_snoc;
    repeat split; try reflexivity;
    repeat f_equal; lia.
Qed.

Lemma parse_lines_tags ls : forall obj obj',
  parse_lines obj ls = Ok obj' -> tags_number obj -> tags_number obj'.
Proof.
  induction ls as [|l ls IH]; intros obj obj' H HT; simpl in H.
  - now injection H as <-.
  - destruct (parse_line obj l) as [obj1|] eqn:E; simpl in H; [|discriminate].
    eapply IH; [exact H|]. eapply parse_line_tags; eassumption.
Qed.

(** The materials of the faces follow the [usemtl] lines. *)
Lemma parse_lines_materials ls : forall obj obj',
  parse_lines obj ls = Ok obj' ->
  face_materials obj'
  = (face_materials obj ++ scan_materials (current_material obj) ls)%list
  /\ current_material obj' = last_material (current_material obj) ls.
Proof.
  unfold face_materials.
  induction ls as [|l ls IH]; intros obj obj' H; simpl in H.
  - injection H as <-. simpl. now rewrite app_nil_r.
  - destruct (parse_line obj l) as [obj1|] eqn:E; simpl in H; [|discriminate].
    destruct (IH _ _ H) as [IH1 IH2]. simpl.
    destruct (usemtl_line l) eqn:Hu.
    + rewrite (parse_usemtl obj l Hu), index_split1_value in E.
      destruct (Str.is_empty (directive_value l)); simpl in E; [discriminate|].
      injection E as <-. simpl in *. auto.
    + destruct (parse_line_keeps_material _ _ _ E Hu) as [Hc Hfaces].
      rewrite Hc in IH1, IH2. split; [|assumption].
      destruct (face_line l).
      * destruct Hfaces as (f & Hf & Hm).
        rewrite IH1, Hf, map_app, <- app_assoc. simpl. now rewrite Hm.
      * now rewrite IH1, Hfaces.
Qed.

End ObjTags.

(** X4. On success the tagged records of each kind carry the indices
    0, 1, 2, ... in order, as many as there are entities of that kind: each
    position, texcoord and normal is referred to by exactly one record, at
    the place of its line. *)
Theorem obj_tags_number_entities :
  forall text obj,
    Obj.parse_text text = Ok obj ->
    ObjInv.tag_indices "v" (Obj.out_lines obj)
    = seq 0 (length (Obj.positions obj))
    /\ ObjInv.tag_indices "vt" (Obj.out_lines obj)
       = seq 0 (length (Obj.texcoords obj))
    /\ ObjInv.tag_indices "vn" (Obj.out_lines obj)
       = seq 0 (length (Obj.normals obj)).
Proof.
  intros text obj H. unfold Obj.parse_text in H.
  apply (parse_lines_tags _ _ _ H). repeat split.
Qed.

Lemma obj_tags_number_entities_witness :
  exists obj,
    Obj.parse_text ("v 0 0 0" ++ nl ++ "vn 0 0 1" ++ nl ++ "# c" ++ nl
                    ++ "v 1 1 1" ++ nl) = Ok obj
    /\ ObjInv.tag_indices "v" (Obj.out_lines obj) = [0; 1]%nat.
Proof.
  destruct (Obj.parse_text ("v 0 0 0" ++ nl ++ "vn 0 0 1" ++ nl ++ "# c" ++ nl
                            ++ "v 1 1 1" ++ nl)) as [obj|] eqn:E;
    [|discriminate].
  destruct (obj_tags_number_entities _ obj E) as (E1 & _).
  exists obj. split; [reflexivity|]. rewrite E1.
  injection E as <-. reflexivity.
Defined.

(** X5. On success the material of each face is the name on the nearest
    [usemtl] line above the face, and the empty string when there is none;
    the current material at the end is the name on the last [usemtl] line. *)
Theorem obj_face_materials_scan :
  forall text obj,
    Obj.parse_text text = Ok obj ->
    ObjSpec.face_materials obj = ObjInv.scan_materials "" (Str.lines text)
    /\ Obj.current_material obj = ObjInv.last_material "" (Str.lines text).
Proof.
  intros text obj H. unfold Obj.parse_text in H.
  destruct (parse_lines_materials _ _ _ H) as [E1 E2]. simpl in *. auto.
Qed.

Lemma obj_face_materials_scan_witness :
  exists obj,
    Obj.parse_text ("f 1 2 3" ++ nl ++ "usemtl A" ++ nl ++ "f 1 2 3" ++ nl
                    ++ "usemtl B c" ++ nl) = Ok obj
    /\ ObjSpec.face_materials obj = [""; "A"]
    /\ Obj.current_material obj = "B c".
Proof.
  destruct (Obj.parse_text ("f 1 2 3" ++ nl ++ "usemtl A" ++ nl ++ "f 1 2 3"
                            ++ nl ++ "usemtl B c" ++ nl)) as [obj|] eqn:E;
    [|discriminate].
  destruct (obj_face_materials_scan _ obj E) as (E1 & E2).
  exists obj. split; [reflexivity|]. rewrite E1, E2. split; reflexivity.
Defined.

Section ObjFaces.
Import Obj ObjSpec ObjInv.

Lemma lstrip_empty_rstrip s : Str.lstrip s = "" -> Str.rstrip s = "".
Proof.
  induction s as [|c r IH]; [reflexivity|]. simpl.
  destruct (Str.is_space c); [|discriminate].
  intros H. now rewrite (IH H).
Qed.

Lemma lower_char_space c : Str.lower_char c = " "%char -> c = " "%char.
Proof.
  destruct c as [[] [] [] [] [] [] [] []]; vm_compute; congruence.
Qed.

Lemma lower_char_f c : Str.lower_char c = "f"%char -> Str.is_space c = false.
Proof.
  destruct c as [[] [] [] [] [] [] [] []]; vm_compute; congruence.
Qed.

(** A face line has at least one token after its first. *)
Lemma face_line_tokens l :
  face_line l = true -> tail (Str.split (Str.strip l)) <> [].
Proof.
  unfold face_line. intros H. apply andb_true_iff in H as [_ H].
  pose proof (strip_rstrip l) as Hs.
  destruct (Str.strip l) as [|c1 [|c2 r]]; try discriminate.
  { change (Str.lower (String c1 ""))
      with (String (Str.lower_char c1) "") in H.
    destruct (startswith_cons _ _ _ H) as [r' [= Hc _]].
    rewrite Hc, startswith_step in H. discriminate. }
  change (Str.lower (String c1 (String c2 r)))
    with (String (Str.lower_char c1) (String (Str.lower_char c2) (Str.lower r)))
    in H.
  destruct (startswith_cons _ _ _ H) as [r1 [= Hc1 Hr1]].
  rewrite Hc1, startswith_step in H.
  destruct (startswith_cons _ _ _ H) as [r2 [= Hc2 _]].
  apply lower_char_space in Hc2. subst c2.
  pose proof (lower_char_f c1 Hc1) as Hsp.
  rewrite (split_span c1 _ Hsp). simpl Str.span_token. rewrite Hsp.
  change (Str.is_space " ") with true. simpl.
  rewrite (rstrip_nonspace c1 _ Hsp) in Hs. injection Hs as Hs.
  intros Hsplit.
  assert (Hr : Str.rstrip r = "").
  { apply lstrip_empty_rstrip. apply lstrip_empty_split.
    rewrite <- split_lstrip in Hsplit. simpl in Hsplit.
    now rewrite split_lstrip in Hsplit. }
  simpl in Hs. rewrite Hr in Hs. discriminate.
Qed.

Lemma mapM_length {A B : Type} (f : A -> result B) xs : forall ys,
  mapM f xs = Ok ys -> length ys = length xs.
Proof.
  induction xs as [|a xs IH]; intros ys H; simpl in H.
  - now injection H as <-.
  - destruct (f a); simpl in H; [|discriminate].
    destruct (mapM f xs) as [ys'|]; simpl in H; [|discriminate].
    injection H as <-. simpl. now rewrite (IH ys').
Qed.

Lemma parse_lines_faces ls : forall obj obj',
  parse_lines obj ls = Ok obj' ->
  exists new, faces obj' = (faces obj ++ new)%list
    /\ Forall2 face_of_line new (List.filter face_line ls).
Proof.
  induction ls as [|l ls IH]; intros obj obj' H; simpl in H.
  - injection H as <-. exists []. rewrite app_nil_r. split; constructor.
  - destruct (parse_line obj l) as [obj1|] eqn:E; simpl in H; [|discriminate].
    destruct (IH _ _ H) as (new & Hnew & Hall). simpl.
    destruct (face_line l) eqn:Hface.
    + rewrite (parse_face obj l Hface) in E.
      destruct (mapM _ _) as [fvs|] eqn:Em; simpl in E; [|discriminate].
      injection E as <-. simpl in Hnew.
      exists (mkFace fvs (current_material obj) (Str.strip l) :: new).
      rewrite Hnew, <- app_assoc. split; [reflexivity|].
      constructor; [|assumption].
      pose proof (mapM_length _ _ _ Em) as Hlen.
      pose proof (face_line_tokens l Hface) as Htok.
      unfold face_of_line. simpl. repeat split; try assumption.
      * rewrite Hlen. destruct (Str.split (Str.strip l)); simpl; lia.
      * intros ->. destruct (tail (Str.split (Str.strip l))); [congruence|].
        discriminate.
    + exists new. split; [|assumption]. rewrite Hnew. f_equal.
      destruct (usemtl_line l) eqn:Hu.
      * rewrite (parse_usemtl obj l Hu) in E.
        destruct (index _ 1); simpl in E; [|discriminate].
        now injection E as <-.
      * destruct (parse_line_keeps_material _ _ _ E Hu) as [_ Hf].
        now rewrite Hface in Hf.
Qed.

End ObjFaces.

(** X6. On success the faces of the mesh are, in order, those of the face
    lines of the text: each face keeps its line trimmed, has one vertex for
    each token after the [f], and has at least one vertex. No face is empty,
    but a face with one or two vertices is accepted. *)
Theorem obj_faces_follow_lines :
  forall text obj,
    Obj.parse_text text = Ok obj ->
    Forall2 ObjInv.face_of_line (Obj.faces obj)
            (List.filter ObjSpec.face_line (Str.lines text)).
Proof.
  intros text obj H. unfold Obj.parse_text in H.
  destruct (parse_lines_faces _ _ _ H) as (new & Hnew & Hall).
  simpl in Hnew. now rewrite Hnew.
Qed.

Lemma obj_faces_follow_lines_witness :
  exists obj,
    Obj.parse_text ("v 0 0 0" ++ nl ++ "  F 1  " ++ nl) = Ok obj
    /\ Forall2 ObjInv.face_of_line (Obj.faces obj) ["  F 1  " ++ nl].
Proof.
  destruct (Obj.parse_text ("v 0 0 0" ++ nl ++ "  F 1  " ++ nl))
    as [obj|] eqn:E; [|discriminate].
  exists obj. split; [reflexivity|].
  exact (obj_faces_follow_lines _ obj E).
Defined.

Lemma parse_line_other obj l :
  Str.startswith l "v" = false ->
  ObjSpec.usemtl_line l = false -> ObjSpec.face_line l = false ->
  Obj.parse_line obj l = Ok (Obj.append_out (Obj.Verbatim l) obj).
Proof.
  intros Hv Hu Hf.
  assert (Hg : forall p, Str.startswith l (String "v" p) = false).
  { intros p. destruct (Str.startswith l (String "v" p)) eqn:E;
      [|reflexivity].
    destruct (startswith_cons _ _ _ E) as [r ->].
    unfold Str.startswith in Hv. simpl in Hv.
    destruct (ascii_dec "v" "v"); [destruct r; discriminate|congruence]. }
  unfold ObjSpec.face_line in Hf. rewrite Hu in Hf. simpl in Hf.
  unfold ObjSpec.usemtl_line in Hu.
  unfold Obj.parse_line. now rewrite !Hg, Hu, Hf.
Qed.

(** X8. Lines that do not begin with a lower-case [v] and are neither
    [usemtl] nor face lines are accepted without being read: they leave the
    geometry, the faces and the current material as they are and are added
    to the shadow copy verbatim, in order. This holds for comments, blank
    lines and unknown directives, and also for vertex lines that are
    indented or written with a capital [V], which are therefore lost
    silently. *)
Theorem obj_other_lines_pass_through :
  forall ls obj,
    Forall (fun l => Str.startswith l "v" = false
                     /\ ObjSpec.usemtl_line l = false
                     /\ ObjSpec.face_line l = false) ls ->
    Obj.parse_lines obj ls
    = Ok (Obj.mkOBJ (Obj.positions obj) (Obj.texcoords obj) (Obj.normals obj)
                    (Obj.faces obj)
                    (Obj.out_lines obj ++ map Obj.Verbatim ls)%list
                    (Obj.current_material obj)).
Proof.
  induction ls as [|l ls IH]; intros obj H.
  - simpl. rewrite app_nil_r. now destruct obj.
  - inversion H as [|? ? (Hv & Hu & Hf) Hls]; subst.
    cbn [Obj.parse_lines]. rewrite (parse_line_other obj l Hv Hu Hf).
    unfold mbind, result_bind; cbv beta iota.
    rewrite (IH _ Hls). unfold Obj.append_out. cbn [Obj.positions
      Obj.texcoords Obj.normals Obj.faces Obj.out_lines Obj.current_material].
    now rewrite <- app_assoc.
Qed.

Lemma obj_other_lines_pass_through_witness :
  Obj.parse_lines Obj.empty
    ["# mesh" ++ nl; "  v 1 2 3" ++ nl; "V 1 2 3" ++ nl; "o cube"]
  = Ok (Obj.mkOBJ [] [] [] []
          [Obj.Verbatim ("# mesh" ++ nl); Obj.Verbatim ("  v 1 2 3" ++ nl);
           Obj.Verbatim ("V 1 2 3" ++ nl); Obj.Verbatim "o cube"] "").
Proof.
  apply (obj_other_lines_pass_through
           ["# mesh" ++ nl; "  v 1 2 3" ++ nl; "V 1 2 3" ++ nl; "o cube"]
           Obj.empty).
  repeat constructor.
Defined.

(** X9. A face-vertex token with four parts or more loses its normal: the
    first two parts are read as usual, and everything after the second
    slash is ignored, well formed or not. *)
Theorem face_vertex_long_token :
  forall a b rest,
    has_char "/" a = false -> has_char "/" b = false ->
    has_char "/" rest = true ->
    Obj.parse_face_vertex (a ++ "/" ++ b ++ "/" ++ rest)
    = (v ← part_index a; vt ← part_index b;
       Ok (Obj.mkFaceVertex v vt None)).
Proof.
  intros a b rest Ha Hb Hr. unfold Obj.parse_face_vertex.
  change (a ++ "/" ++ b ++ "/" ++ rest)
    with (a ++ String "/" (b ++ String "/" rest)).
  rewrite (split_on_sep _ _ _ Ha), (split_on_sep _ _ _ Hb).
  assert (Hlen : exists c d ds, Str.split_on "/" rest = c :: d :: ds).
  { clear Ha Hb. unfold Str.split_on.
    induction rest as [|x rest IH]; [discriminate|]. simpl in *.
    destruct (Ascii.eqb x "/") eqn:Ex.
    - destruct (Str.split_on_go "/" rest) as [t ts]. eauto.
    - simpl in Hr. destruct (IH Hr) as (c & d & ds & E).
      destruct (Str.split_on_go "/" rest) as [t ts].
      injection E as -> ->. eauto. }
  destruct Hlen as (c & d & ds & ->).
  simpl length. change (1 <=? _)%nat with true. change (2 <=? _)%nat with true.
  change (S (S (S (S (length ds)))) =? 3)%nat with false.
  rewrite !index_part_true. simpl.
  destruct (part_index a); simpl; [|reflexivity].
  destruct (part_index b); reflexivity.
Qed.

Lemma face_vertex_long_token_witness :
  Obj.parse_face_vertex ("1" ++ "/" ++ "2" ++ "/" ++ "x/y")
  = Ok (Obj.mkFaceVertex (Some 0) (Some 1) None).
Proof.
  rewrite (face_vertex_long_token "1" "2" "x/y" eq_refl eq_refl eq_refl).
  reflexivity.
Defined.


(** ** What the material-library parser builds *)

Section MtlMore.
Import Mtl MtlSpec MtlInv.

Lemma mtl_parse_line_out mtl l mtl' :
  parse_line mtl l = Ok mtl' -> out_lines mtl' = (out_lines mtl ++ [l])%list.
Proof.
  unfold parse_line. intros H.
  destruct (negb _ || _); [now injection H as <-|].
  destruct (index _ 0); simpl in H; [|discriminate].
  destruct (assert_value _); simpl in H; [|discriminate].
  destruct (String.eqb _ "newmtl"); [now injection H as <-|].
  destruct (current_material mtl); [|now injection H as <-].
  destruct (directive _ _); simpl in H; [|discriminate].
  now injection H as <-.
Qed.

Lemma mtl_parse_lines_out ls : forall mtl mtl',
  parse_lines mtl ls = Ok mtl' -> out_lines mtl' = (out_lines mtl ++ ls)%list.
Proof.
  induction ls as [|l ls IH]; intros mtl mtl' H; simpl in H.
  - injection H as <-. now rewrite app_nil_r.
  - destruct (parse_line mtl l) as [mtl1|] eqn:E; simpl in H; [|discriminate].
    rewrite (IH _ _ H), (mtl_parse_line_out _ _ _ E), <- app_assoc.
    reflexivity.
Qed.

Lemma directive_keeps_name key value f :
  directive key value = Ok f -> forall mat, name (f mat) = name mat.
Proof.
  unfold directive. intros H mat.
  repeat match type of H with
         | (if ?b then _ else _) = _ => destruct b
         | (_ ← ?r; _) = _ => destruct r; simpl in H; [|discriminate]
         end;
    injection H as <-; reflexivity.
Qed.

Lemma names_alter (f : Material -> Material) i ms :
  (forall m, name (f m) = name m) ->
  map name (alter f i ms) = map name ms.
Proof.
  intros Hf. revert i. induction ms as [|m ms IH]; intros [|i]; cbn;
    rewrite ?Hf, ?IH; reflexivity.
Qed.

(** A blank line or a comment changes only the shadow copy. *)
Lemma parse_line_blank mtl l :
  directive_line l = false -> parse_line mtl l = Ok (append_out l mtl).
Proof.
  unfold directive_line, parse_line. intros H.
  destruct (truthy (Str.strip l)); simpl in *; [|reflexivity].
  apply negb_false_iff in H. now rewrite H.
Qed.

Lemma directive_line_split l :
  directive_line l = true ->
  truthy (Str.strip l) = true /\ Str.startswith (Str.strip l) "#" = false.
Proof.
  unfold directive_line. intros H. apply andb_true_iff in H as [H1 H2].
  apply negb_true_iff in H2. auto.
Qed.

Lemma mtl_parse_line_names mtl l mtl' :
  parse_line mtl l = Ok mtl' -> current_is_last mtl ->
  current_is_last mtl'
  /\ map name (materials mtl')
     = (map name (materials mtl) ++ newmtl_names [l])%list.
Proof.
  intros H HI. unfold newmtl_names, newmtl_line. simpl List.filter.
  destruct (directive_line l) eqn:Hd.
  - destruct (directive_line_split l Hd) as [Ht Hc].
    rewrite (parse_line_directive mtl l Ht Hc) in H.
    destruct (Str.is_empty (directive_value l)); [discriminate|].
    simpl andb.
    destruct (String.eqb (Str.lower (first_token l)) "newmtl").
    + injection H as <-. unfold current_is_last. simpl.
      rewrite map_app, length_app. simpl. split; [|reflexivity].
      destruct (materials mtl); simpl; f_equal; lia.
    + simpl. rewrite app_nil_r.
      destruct (current_material mtl) as [i|] eqn:Hi.
      * destruct (directive _ _) as [f|] eqn:Ef; simpl in H; [|discriminate].
        injection H as <-. unfold current_is_last in *. simpl.
        rewrite (names_alter f i _ (directive_keeps_name _ _ _ Ef)).
        split; [|reflexivity].
        rewrite length_alter, Hi in *.
        destruct (materials mtl) as [|m ms]; [discriminate|].
        destruct i; cbn; exact HI.
      * injection H as <-. unfold current_is_last in *. simpl.
        now rewrite Hi in *.
  - rewrite (parse_line_blank mtl l Hd) in H. injection H as <-.
    simpl. rewrite app_nil_r. auto.
Qed.

Lemma filter_app_list (P : string -> bool) a b :
  List.filter P (a ++ b) = (List.filter P a ++ List.filter P b)%list.
Proof. apply List.filter_app. Qed.

Lemma mtl_parse_lines_names ls : forall mtl mtl',
  parse_lines mtl ls = Ok mtl' -> current_is_last mtl ->
  current_is_last mtl'
  /\ map name (materials mtl')
     = (map name (materials mtl) ++ newmtl_names ls)%list.
Proof.
  induction ls as [|l ls IH]; intros mtl mtl' H HI; simpl in H.
  - injection H as <-. unfold newmtl_names. simpl. now rewrite app_nil_r.
  - destruct (parse_line mtl l) as [mtl1|] eqn:E; simpl in H; [|discriminate].
    destruct (mtl_parse_line_names _ _ _ E HI) as [HI1 E1].
    destruct (IH _ _ H HI1) as [HI2 E2].
    split; [assumption|]. rewrite E2, E1, <- app_assoc. f_equal.
    unfold newmtl_names.
    change (l :: ls) with ([l] ++ ls)%list.
    now rewrite filter_app_list, map_app.
Qed.

End MtlMore.

(** X10. On success the shadow copy of the material library is the list of
    the lines of the text, so joining it gives the text back byte for byte:
    every line, read or not, is kept as it was. *)
Theorem mtl_shadow_round_trip :
  forall text mtl,
    Mtl.parse_text text = Ok mtl ->
    Mtl.out_lines mtl = Str.lines text
    /\ Str.concat (Mtl.out_lines mtl) = text.
Proof.
  intros text mtl H. unfold Mtl.parse_text in H.
  pose proof (mtl_parse_lines_out _ _ _ H) as E. simpl in E.
  split; [assumption|]. rewrite E. apply concat_lines.
Qed.

Lemma mtl_shadow_round_trip_witness :
  exists mtl,
    Mtl.parse_text ("# wood" ++ nl ++ "newmtl  Wood " ++ nl ++ "Kd 1 0.5 0")
    = Ok mtl
    /\ Str.concat (Mtl.out_lines mtl)
       = "# wood" ++ nl ++ "newmtl  Wood " ++ nl ++ "Kd 1 0.5 0".
Proof.
  destruct (Mtl.parse_text ("# wood" ++ nl ++ "newmtl  Wood " ++ nl
                            ++ "Kd 1 0.5 0")) as [mtl|] eqn:E;
    [|discriminate].
  exists mtl. split; [reflexivity|].
  exact (proj2 (mtl_shadow_round_trip _ mtl E)).
Defined.

(** X11. On success the materials are, in order, those declared by the
    [newmtl] lines, duplicates included, each named by the value of its
    line; and the current material is the last one of the list, or none
    when the list is empty. *)
Theorem mtl_materials_follow_newmtl :
  forall text mtl,
    Mtl.parse_text text = Ok mtl ->
    map Mtl.name (Mtl.materials mtl) = MtlInv.newmtl_names (Str.lines text)
    /\ MtlInv.current_is_last mtl.
Proof.
  intros text mtl H. unfold Mtl.parse_text in H.
  destruct (mtl_parse_lines_names _ _ _ H) as [HI E]; [reflexivity|].
  simpl in E. auto.
Qed.

Lemma mtl_materials_follow_newmtl_witness :
  exists mtl,
    Mtl.parse_text ("newmtl A" ++ nl ++ "Ns 1" ++ nl ++ "NewMtl B b" ++ nl
                    ++ "newmtl A" ++ nl) = Ok mtl
    /\ map Mtl.name (Mtl.materials mtl) = ["A"; "B b"; "A"]
    /\ Mtl.current_material mtl = Some 2%nat.
Proof.
  destruct (Mtl.parse_text ("newmtl A" ++ nl ++ "Ns 1" ++ nl ++ "NewMtl B b"
                            ++ nl ++ "newmtl A" ++ nl)) as [mtl|] eqn:E;
    [|discriminate].
  destruct (mtl_materials_follow_newmtl _ mtl E) as [E1 E2].
  exists mtl. split; [reflexivity|]. rewrite E1. split; [reflexivity|].
  injection E as <-. reflexivity.
Defined.

Section MtlEdges.
Import Mtl MtlSpec MtlInv.

(** Without a current material a directive with a value is only copied. *)
Lemma parse_line_no_material mtl l :
  current_material mtl = None -> newmtl_line l = false ->
  parse_line mtl l
  = if has_value l then Ok (append_out l mtl) else Raise AssertionError.
Proof.
  intros Hc Hn. unfold has_value, newmtl_line in *.
  destruct (directive_line l) eqn:Hd; simpl in *.
  - destruct (directive_line_split l Hd) as [Ht Hcm].
    rewrite (parse_line_directive mtl l Ht Hcm), Hn, Hc.
    unfold truthy. now destruct (Str.is_empty (directive_value l)).
  - now apply parse_line_blank.
Qed.

Lemma parse_lines_no_material ls : forall outs,
  forallb (fun l => negb (newmtl_line l)) ls = true ->
  parse_lines (mkMTL [] outs None) ls
  = if forallb has_value ls then Ok (mkMTL [] (outs ++ ls) None)
    else Raise AssertionError.
Proof.
  induction ls as [|l ls IH]; intros outs Hn; simpl.
  - now rewrite app_nil_r.
  - simpl in Hn. apply andb_true_iff in Hn as [Hl Hn].
    apply negb_true_iff in Hl.
    rewrite (parse_line_no_material (mkMTL [] outs None) l eq_refl Hl).
    destruct (has_value l); simpl; [|reflexivity].
    unfold append_out. simpl. rewrite (IH _ Hn), <- app_assoc. reflexivity.
Qed.

Lemma existsb_recognized key :
  recognized key = false ->
  String.eqb key "newmtl" = false
  /\ directive key = fun value => Ok (set_extra key value).
Proof.
  unfold recognized. simpl. intros H.
  repeat (apply orb_false_iff in H as [? H]).
  split; [assumption|]. unfold directive.
  repeat match goal with E : String.eqb key _ = false |- _ =>
           rewrite E; clear E end.
  reflexivity.
Qed.

(** [parse_mtl_file] accepts every line that [parse_mtl] accepts. *)
Lemma file_line_of_parse_line mtl l mtl' st :
  parse_line mtl l = Ok mtl' -> exists st', file_line st l = Ok st'.
Proof.
  intros H. destruct st as [m cur]. rewrite file_line_cases.
  destruct (directive_line l) eqn:Hd.
  - destruct (directive_line_split l Hd) as [Ht Hc].
    rewrite (parse_line_directive mtl l Ht Hc) in H.
    destruct (Str.is_empty (directive_value l)); [discriminate|].
    destruct (Str.startswith _ "newmtl"); [eauto|].
    destruct (current_truthy cur && _); eauto.
  - assert (Hb : negb (truthy (Str.strip l))
                 || Str.startswith (Str.strip l) "#" = true).
    { unfold directive_line in Hd.
      destruct (truthy (Str.strip l)); simpl in *; [|reflexivity].
      now apply negb_false_iff in Hd. }
    rewrite (blank_or_comment_no_keyword l "n" "ewmtl" Hb) by discriminate.
    rewrite (blank_or_comment_no_keyword l "m" "ap_kd" Hb) by discriminate.
    rewrite andb_false_r. eauto.
Qed.

Lemma file_lines_of_parse_lines ls : forall mtl mtl' st,
  parse_lines mtl ls = Ok mtl' -> exists st', file_lines st ls = Ok st'.
Proof.
  induction ls as [|l ls IH]; intros mtl mtl' st H; simpl in *; [eauto|].
  destruct (parse_line mtl l) as [mtl1|] eqn:E; simpl in H; [|discriminate].
  destruct (file_line_of_parse_line _ _ _ st E) as [st1 ->]. simpl.
  eapply IH; eassumption.
Qed.

Lemma mapM_raises {A B : Type} (f : A -> result B) xs e :
  mapM f xs = Raise e -> exists a, In a xs /\ f a = Raise e.
Proof.
  induction xs as [|a xs IH]; simpl; [discriminate|].
  destruct (f a) eqn:E; simpl.
  - destruct (mapM f xs); simpl; [discriminate|].
    intros [= ->]. destruct (IH eq_refl) as (a' & Hin & Ha'). eauto.
  - intros [= ->]. eauto.
Qed.

Lemma py_float_raises s e : Num.py_float s = Raise e -> e = ValueError.
Proof.
  unfold Num.py_float. intros H.
  repeat match type of H with
         | (let '(_, _) := ?p in _) = _ => destruct p
         | (if ?b then _ else _) = _ => destruct b
         | match ?x with _ => _ end = _ => destruct x
         end; congruence.
Qed.

Lemma py_int_raises s e : Num.py_int s = Raise e -> e = ValueError.
Proof.
  unfold Num.py_int. intros H.
  repeat match type of H with
         | (let '(_, _) := ?p in _) = _ => destruct p
         | (if ?b then _ else _) = _ => destruct b
         end; congruence.
Qed.

Lemma floats_raises s e : floats s = Raise e -> e = ValueError.
Proof.
  unfold floats. intros H. apply mapM_raises in H as (a & _ & H).
  eapply py_float_raises; eassumption.
Qed.

Lemma directive_raises key value e :
  directive key value = Raise e -> e = ValueError.
Proof.
  unfold directive. intros H.
  repeat match type of H with
         | (if ?b then _ else _) = _ => destruct b
         | (_ ← ?r; _) = _ => destruct r eqn:?E; simpl in H
         end; try discriminate;
    injection H as <-;
    eauto using floats_raises, py_float_raises, py_int_raises.
Qed.

Lemma mtl_parse_line_raises mtl l e :
  parse_line mtl l = Raise e -> e = AssertionError \/ e = ValueError.
Proof.
  intros H. destruct (directive_line l) eqn:Hd.
  - destruct (directive_line_split l Hd) as [Ht Hc].
    rewrite (parse_line_directive mtl l Ht Hc) in H.
    destruct (Str.is_empty _); [left; congruence|].
    destruct (String.eqb _ "newmtl"); [discriminate|].
    destruct (current_material mtl); [|discriminate].
    destruct (directive _ _) eqn:E; simpl in H; [discriminate|].
    injection H as <-. right. eapply directive_raises; eassumption.
  - rewrite (parse_line_blank mtl l Hd) in H. discriminate.
Qed.

End MtlEdges.

(** X12. A library without a [newmtl] line declares nothing: the parser
    accepts it exactly when every directive line has a value, and then
    returns no material, whatever the directives say -- a number that is
    not a number raises only under a material. *)
Theorem mtl_without_newmtl :
  forall text,
    forallb (fun l => negb (MtlInv.newmtl_line l)) (Str.lines text) = true ->
    Mtl.parse_text text
    = if forallb MtlInv.has_value (Str.lines text)
      then Ok (Mtl.mkMTL [] (Str.lines text) None)
      else Raise AssertionError.
Proof.
  intros text H. unfold Mtl.parse_text, Mtl.empty.
  now rewrite (parse_lines_no_material _ [] H).
Qed.

Lemma mtl_without_newmtl_witness :
  Mtl.parse_text ("Ns abc" ++ nl ++ "illum x y" ++ nl)
  = Ok (Mtl.mkMTL [] ["Ns abc" ++ nl; "illum x y" ++ nl] None)
  /\ Mtl.parse_text ("newmtl A" ++ nl ++ "Ns abc" ++ nl) = Raise ValueError.
Proof.
  split; [|reflexivity].
  rewrite (mtl_without_newmtl ("Ns abc" ++ nl ++ "illum x y" ++ nl) eq_refl).
  reflexivity.
Defined.

(** X13. Under a current material, a directive whose key is not one of the
    recognised ones is stored in the extra properties of that material,
    under its key in lower case and with its value as written; the other
    materials are left as they are. *)
Theorem mtl_unknown_key_kept :
  forall mtl i l,
    Mtl.current_material mtl = Some i ->
    MtlInv.directive_line l = true -> directive_value l <> "" ->
    MtlInv.recognized (Str.lower (first_token l)) = false ->
    exists mtl',
      Mtl.parse_line mtl l = Ok mtl'
      /\ (forall mat, Mtl.materials mtl !! i = Some mat ->
            exists mat',
              Mtl.materials mtl' !! i = Some mat'
              /\ Mtl.extra_props mat' !! Str.lower (first_token l)
                 = Some (directive_value l)
              /\ Mtl.name mat' = Mtl.name mat
              /\ Mtl.map_Kd mat' = Mtl.map_Kd mat)
      /\ (forall j, j <> i ->
            Mtl.materials mtl' !! j = Mtl.materials mtl !! j).
Proof.
  intros mtl i l Hi Hd Hv Hk.
  destruct (directive_line_split l Hd) as [Ht Hc].
  destruct (existsb_recognized _ Hk) as [Hn Hdir].
  rewrite (parse_line_directive mtl l Ht Hc), Hn, Hi, Hdir.
  destruct (directive_value l) as [|c r] eqn:E; [congruence|].
  simpl. eexists. split; [reflexivity|]. simpl. split.
  - intros mat Hm. exists (Mtl.set_extra (Str.lower (first_token l))
                              (String c r) mat).
    rewrite list_lookup_alter_eq, Hm. simpl.
    rewrite lookup_insert_eq. auto.
  - intros j Hj. now rewrite list_lookup_alter_ne.
Qed.

Lemma mtl_unknown_key_kept_witness :
  exists mtl',
    Mtl.parse_line (Mtl.append_material (Mtl.new_material "A") Mtl.empty)
                   ("Pr 0.5" ++ nl) = Ok mtl'.
Proof.
  destruct (mtl_unknown_key_kept
              (Mtl.append_material (Mtl.new_material "A") Mtl.empty)
              0%nat ("Pr 0.5" ++ nl) eq_refl eq_refl)
    as (mtl' & H & _); [discriminate|reflexivity|].
  exists mtl'. exact H.
Defined.

(** X14. Whatever [parse_mtl] accepts, [parse_mtl_file] accepts as well: on a
    text that the first parses, the second never raises. *)
Theorem mtl_file_accepts_what_parse_accepts :
  forall text mtl,
    Mtl.parse_text text = Ok mtl ->
    exists tex, Mtl.file_text text = Ok tex.
Proof.
  intros text mtl H. unfold Mtl.parse_text in H. unfold Mtl.file_text.
  destruct (file_lines_of_parse_lines _ _ _ (∅, None) H) as [st ->].
  simpl. eauto.
Qed.

Lemma mtl_file_accepts_what_parse_accepts_witness :
  exists tex,
    Mtl.file_text ("newmtl A" ++ nl ++ "map_Kd a.png" ++ nl) = Ok tex.
Proof.
  destruct (Mtl.parse_text ("newmtl A" ++ nl ++ "map_Kd a.png" ++ nl))
    as [mtl|] eqn:E; [|discriminate].
  exact (mtl_file_accepts_what_parse_accepts _ mtl E).
Defined.

(** X15. The only exceptions of [parse_mtl] on a text are the failed
    [assert] of a directive without value and the [ValueError] of a number
    that does not convert: it never raises an index or a key error. *)
Theorem mtl_parse_exceptions :
  forall text e,
    Mtl.parse_text text = Raise e -> e = AssertionError \/ e = ValueError.
Proof.
  intros text e. unfold Mtl.parse_text.
  generalize Mtl.empty. induction (Str.lines text) as [|l ls IH];
    intros mtl H; simpl in H; [discriminate|].
  destruct (Mtl.parse_line mtl l) as [mtl1|e1] eqn:E; simpl in H.
  - eapply IH; eassumption.
  - injection H as <-. eapply mtl_parse_line_raises; eassumption.
Qed.

Lemma mtl_parse_exceptions_witness :
  Mtl.parse_text ("newmtl A" ++ nl ++ "illum two" ++ nl) = Raise ValueError.
Proof.
  destruct (Mtl.parse_text ("newmtl A" ++ nl ++ "illum two" ++ nl))
    as [mtl|e] eqn:E; [discriminate|].
  destruct (mtl_parse_exceptions _ e E) as [->| ->]; [discriminate|].
  reflexivity.
Defined.


(** ** The mesh parser's exceptions *)

Section ObjRaises.
Import Obj.

Lemma index_raises {A : Type} (xs : list A) i e :
  index xs i = Raise e -> e = IndexError.
Proof. unfold index. destruct (nth_error xs i); congruence. Qed.

Lemma float_at_raises parts i e :
  float_at parts i = Raise e -> e = ValueError \/ e = IndexError.
Proof.
  unfold float_at. destruct (index parts i) eqn:E; simpl.
  - intros H. left. eapply py_float_raises; eassumption.
  - intros [= <-]. right. eapply index_raises; eassumption.
Qed.

Lemma index_part_raises g parts i e :
  index_part g parts i = Raise e -> e = ValueError.
Proof.
  unfold index_part. destruct (g && _); [|discriminate].
  destruct (Num.py_int _) eqn:E; simpl; [discriminate|].
  intros [= <-]. eapply py_int_raises; eassumption.
Qed.

Lemma parse_face_vertex_raises vert e :
  parse_face_vertex vert = Raise e -> e = ValueError.
Proof.
  unfold parse_face_vertex. intros H.
  repeat match type of H with
         | (_ ← ?r; _) = _ => destruct r eqn:?E; simpl in H
         end; try discriminate;
    injection H as <-; eauto using index_part_raises.
Qed.

Lemma read_position_raises parts e :
  read_position parts = Raise e -> e = ValueError \/ e = IndexError.
Proof.
  unfold read_position. intros H.
  destruct (float_at parts 1) eqn:E1; simpl in H;
    [|injection H as <-; eauto using float_at_raises].
  destruct (float_at parts 2) eqn:E2; simpl in H;
    [|injection H as <-; eauto using float_at_raises].
  destruct (float_at parts 3) eqn:E3; simpl in H; [discriminate|].
  injection H as <-; eauto using float_at_raises.
Qed.

Lemma read_texcoord_raises parts e :
  read_texcoord parts = Raise e -> e = ValueError \/ e = IndexError.
Proof.
  unfold read_texcoord. intros H.
  destruct (float_at parts 1) eqn:E1; simpl in H;
    [|injection H as <-; eauto using float_at_raises].
  destruct (float_at parts 2) eqn:E2; simpl in H; [discriminate|].
  injection H as <-; eauto using float_at_raises.
Qed.

Lemma read_normal_raises parts e :
  read_normal parts = Raise e -> e = ValueError \/ e = IndexError.
Proof.
  unfold read_normal. intros H.
  destruct (float_at parts 1) eqn:E1; simpl in H;
    [|injection H as <-; eauto using float_at_raises].
  destruct (float_at parts 2) eqn:E2; simpl in H;
    [|injection H as <-; eauto using float_at_raises].
  destruct (float_at parts 3) eqn:E3; simpl in H; [discriminate|].
  injection H as <-; eauto using float_at_raises.
Qed.

Lemma obj_parse_line_raises obj l e :
  parse_line obj l = Raise e -> e = ValueError \/ e = IndexError.
Proof.
  unfold parse_line. intros H.
  destruct (Str.startswith l "v ").
  { destruct (read_position _) eqn:E; simpl in H; [discriminate|].
    injection H as <-. eauto using read_position_raises. }
  destruct (Str.startswith l "vt ").
  { destruct (read_texcoord _) eqn:E; simpl in H; [discriminate|].
    injection H as <-. eauto using read_texcoord_raises. }
  destruct (Str.startswith l "vn ").
  { destruct (read_normal _) eqn:E; simpl in H; [discriminate|].
    injection H as <-. eauto using read_normal_raises. }
  destruct (Str.startswith _ "usemtl").
  { destruct (index _ 1) eqn:E; simpl in H; [discriminate|].
    injection H as <-. right. eapply index_raises; eassumption. }
  destruct (Str.startswith _ "f "); [|discriminate].
  destruct (mapM _ _) eqn:E; simpl in H; [discriminate|].
  injection H as <-. left. apply mapM_raises in E as (a & _ & Ha).
  eapply parse_face_vertex_raises; eassumption.
Qed.

End ObjRaises.

(** X16. The only exceptions of the mesh parser on a text are the
    [ValueError] of a number or an index that does not convert and the
    [IndexError] of a missing field (a coordinate of a vertex line, the name
    of a [usemtl] line). *)
Theorem obj_parse_exceptions :
  forall text e,
    Obj.parse_text text = Raise e -> e = ValueError \/ e = IndexError.
Proof.
  intros text e H. unfold Obj.parse_text in H.
  apply parse_lines_first_error in H.
  destruct H as (pre & l & post & obj & _ & _ & H).
  eapply obj_parse_line_raises; eassumption.
Qed.

Lemma obj_parse_exceptions_witness :
  Obj.parse_text ("vt 0.5" ++ nl) = Raise IndexError.
Proof.
  destruct (Obj.parse_text ("vt 0.5" ++ nl)) as [obj|e] eqn:E;
    [discriminate|].
  destruct (obj_parse_exceptions _ e E) as [->| ->]; [discriminate|].
  reflexivity.
Defined.

(** ** The sampler at its edges *)

Section TexMore.
Import Num Tex TexInv.

Lemma py_mod_nonfinite u : is_finite u = false -> py_mod u one = Ok S754_nan.
Proof. destruct u as [s|[|]| |s m e]; try discriminate; reflexivity. Qed.

(** [x % 1.0] never raises. *)
Lemma py_mod_total x : exists w, py_mod x one = Ok w.
Proof.
  unfold py_mod. change (is_zero one) with false. cbv iota.
  destruct (negb _); [|eauto]. destruct (negb _); eauto.
Qed.

Lemma float_of_size_ok n :
  0 < n < 2 ^ 31 ->
  exists f, float_of_int n = Ok f /\ is_finite f = true.
Proof.
  intros Hn. destruct (float_of_size n Hn) as (m & e & [[E _] | E]);
    rewrite E; eauto.
Qed.

Lemma fmul_nan_l f : fmul S754_nan f = S754_nan.
Proof. reflexivity. Qed.

Lemma fmul_nan_r f : fmul f S754_nan = S754_nan.
Proof. now destruct f. Qed.

(** The sampler up to the pixel that it reads. *)
Lemma sample_finite image w h u v :
  sized image w h -> is_finite u = true -> is_finite v = true ->
  exists a b,
    0 <= a /\ 0 <= b
    /\ sample_texture image u v
       = (pix ← getpixel image (Z.min a (w - 1), Z.min b (h - 1));
          colour pix).
Proof.
  intros (Hs & Hw & Hh) Hu Hv.
  destruct (py_mod_one u Hu) as (uw & Euw & Huw).
  destruct (py_mod_one v Hv) as (vw & Evw & Hvw).
  destruct (mul_unit_size uw w Huw Hw) as (fx & Efx & Hfx).
  destruct (mul_unit_size _ h (one_sub_unit vw Hvw) Hh) as (fy & Efy & Hfy).
  destruct (int_of_nonneg fx Hfx) as (a & Ea & _ & Ha).
  destruct (int_of_nonneg fy Hfy) as (b & Eb & _ & Hb).
  exists a, b. repeat split; try assumption.
  unfold sample_texture, colour. rewrite Hs. unfold mbind, result_bind.
  rewrite Euw, Evw. cbv beta iota.
  rewrite Efx. cbv beta iota. rewrite Ea. cbv beta iota.
  rewrite Efy. cbv beta iota. rewrite Eb. reflexivity.
Qed.

End TexMore.

(** X17. A coordinate that is a NaN or an infinity always makes the sampler
    raise [ValueError], for every image whose sizes are positive and fit a C
    [int], and before any pixel is read. *)
Theorem sampler_rejects_non_finite :
  forall image w h u v,
    TexInv.sized image w h ->
    Num.is_finite u = false \/ Num.is_finite v = false ->
    Tex.sample_texture image u v = Raise ValueError.
Proof.
  intros image w h u v (Hs & Hw & Hh) Huv.
  unfold Tex.sample_texture. rewrite Hs. unfold mbind, result_bind.
  destruct (float_of_size_ok w Hw) as (wf & Ewf & Hwf).
  destruct (float_of_size_ok h Hh) as (hf & Ehf & Hhf).
  destruct (Num.is_finite u) eqn:Hu.
  - destruct Huv as [Huv|Hv]; [discriminate|].
    destruct (py_mod_one u Hu) as (uw & Euw & Huw).
    destruct (mul_unit_size uw w Huw Hw) as (fx & Efx & Hfx).
    destruct (int_of_nonneg fx Hfx) as (a & Ea & _ & Ha).
    rewrite Euw, (py_mod_nonfinite v Hv). cbv beta iota.
    rewrite Efx. cbv beta iota. rewrite Ea. cbv beta iota.
    unfold Tex.mul_int, mbind, result_bind. rewrite Ehf.
    change (Num.fsub Tex.one S754_nan) with S754_nan.
    now rewrite fmul_nan_l.
  - rewrite (py_mod_nonfinite u Hu).
    destruct (py_mod_total v) as [vw ->]. cbv beta iota.
    unfold Tex.mul_int, mbind, result_bind. rewrite Ewf.
    now rewrite fmul_nan_l.
Qed.

Lemma sampler_rejects_non_finite_witness :
  Tex.sample_texture TexSpec.checker (Num.lit "0.5") (Num.lit "-inf")
  = Raise ValueError.
Proof.
  apply (sampler_rejects_non_finite TexSpec.checker 2 2).
  - repeat split; reflexivity.
  - right. reflexivity.
Defined.

(** X18. Only the first three bands of a pixel count: two images of the
    same size whose pixels agree on their first three bands are sampled
    alike, so an alpha band changes nothing. *)
Theorem sampler_ignores_further_bands :
  forall image image' u v,
    Tex.size image = Tex.size image' ->
    (forall xy, TexInv.bands3 image xy = TexInv.bands3 image' xy) ->
    Tex.sample_texture image u v = Tex.sample_texture image' u v.
Proof.
  intros image image' u v Hs Hb. unfold Tex.sample_texture.
  rewrite <- Hs. destruct (Tex.size image) as [w h].
  unfold mbind, result_bind.
  destruct (Num.py_mod u Tex.one) as [uw|]; [|reflexivity].
  destruct (Num.py_mod v Tex.one) as [vw|]; [|reflexivity].
  destruct (Tex.mul_int uw w) as [fx|]; [|reflexivity].
  destruct (Num.int_of_float fx) as [a|]; [|reflexivity].
  destruct (Tex.mul_int _ h) as [fy|]; [|reflexivity].
  destruct (Num.int_of_float fy) as [b|]; [|reflexivity].
  specialize (Hb (Z.min a (w - 1), Z.min b (h - 1))).
  unfold TexInv.bands3 in Hb.
  destruct (Tex.getpixel image _) as [pix|e];
    destruct (Tex.getpixel image' _) as [pix'|e']; try discriminate.
  - injection Hb as ->. reflexivity.
  - congruence.
Qed.

Lemma sampler_ignores_further_bands_witness :
  Tex.sample_texture TexSpec.checker (Num.lit "0.25") (Num.lit "0.25")
  = Tex.sample_texture
      (Tex.mkImage (2, 2)
         (fun xy => pix ← Tex.getpixel TexSpec.checker xy; Ok (pix ++ [128])%list))
      (Num.lit "0.25") (Num.lit "0.25").
Proof.
  apply sampler_ignores_further_bands; [reflexivity|].
  intros [x y]. unfold TexInv.bands3. simpl.
  destruct (_ && _); [|reflexivity].
  destruct (y =? 0), (x =? 0); reflexivity.
Defined.

(** X19. For finite coordinates and an image whose pixels have fewer than
    three bands (a greyscale image with alpha, say), the sampler raises
    [ValueError]: the bands cannot be unpacked into red, green and blue. *)
Theorem sampler_needs_three_bands :
  forall image w h u v,
    TexInv.sized image w h ->
    Num.is_finite u = true -> Num.is_finite v = true ->
    (forall x y, 0 <= x < w -> 0 <= y < h ->
       exists pix, Tex.getpixel image (x, y) = Ok pix
                   /\ (length pix < 3)%nat) ->
    Tex.sample_texture image u v = Raise ValueError.
Proof.
  intros image w h u v Hsz Hu Hv Hpix.
  destruct (sample_finite image w h u v Hsz Hu Hv) as (a & b & Ha & Hb & ->).
  destruct Hsz as (_ & Hw & Hh).
  destruct (Hpix (Z.min a (w - 1)) (Z.min b (h - 1))) as (pix & -> & Hlen);
    [lia|lia|].
  simpl. unfold TexInv.colour.
  destruct pix as [|r [|g [|b' rest]]]; simpl in *; try reflexivity. lia.
Qed.

Lemma sampler_needs_three_bands_witness :
  Tex.sample_texture (Tex.mkImage (4, 4) (fun _ => Ok [200; 255]))
                     (Num.lit "0.5") (Num.lit "0.5")
  = Raise ValueError.
Proof.
  apply (sampler_needs_three_bands _ 4 4).
  - repeat split; reflexivity.
  - reflexivity.
  - reflexivity.
  - intros x y _ _. exists [200; 255]. split; [reflexivity|simpl; lia].
Defined.

Section TexOrigin.
Import Num Tex TexInv.

(** Rounding leaves a mantissa alone when nothing has to be shifted. *)
Lemma round_aux_no_shift s (m : positive) e :
  fexp prec emax (Zdigits2 (Zpos m) + e) - e <= 0 -> e <= 971 ->
  binary_round_aux prec emax s (Zpos m) e loc_Exact = S754_finite s m e.
Proof.
  intros Hn He. unfold binary_round_aux.
  destruct (shr_fexp_exact (Zpos m) e) as [[_ E1] | [Hn' _]]; [lia| |lia].
  rewrite E1. simpl. rewrite E1. simpl.
  replace (e <=? emax - prec) with true
    by (symmetry; apply Z.leb_le; unfold emax, prec; lia).
  reflexivity.
Qed.

Lemma log2_binade (m : Z) : 2 ^ 52 <= m < 2 ^ 53 -> Z.log2 m = 52.
Proof.
  intros H. apply Z.log2_unique; [lia|]. exact H.
Qed.

(** The float of a size is the size itself. *)
Lemma float_of_size_exact h :
  0 < h < 2 ^ 31 ->
  exists m e,
    float_of_int h = Ok (S754_finite false m e)
    /\ -52 <= e < 0 /\ Zpos m = h * 2 ^ (- e) /\ 2 ^ 52 <= Zpos m < 2 ^ 53.
Proof.
  intros Hh. destruct h as [|p|p]; try lia.
  unfold float_of_int, binary_normalize, binary_round.
  set (ez := fexp prec emax (Z.pos (digits2_pos p) + 0)).
  assert (Hlog : 0 <= Z.log2 (Zpos p) < 31).
  { split; [apply Z.log2_nonneg|]. apply Z.log2_lt_pow2; lia. }
  assert (Hez : ez = Z.log2 (Zpos p) - 52).
  { unfold ez. change (Z.pos (digits2_pos p)) with (Zdigits2 (Zpos p)).
    rewrite Zdigits2_log2, fexp_eq. lia. }
  pose proof (shl_align_exp p 0 ez ltac:(lia)) as E2.
  pose proof (aligned_value p 0 ez ltac:(lia)) as E1.
  destruct (shl_align p 0 ez) as [mz ez']. simpl in E1, E2. subst ez'.
  assert (Hmz : 2 ^ 52 <= Zpos mz < 2 ^ 53).
  { rewrite E1. replace (0 - ez) with (52 - Z.log2 (Zpos p)) by lia.
    pose proof (Z.log2_spec (Zpos p) ltac:(lia)) as [L1 L2].
    replace (2 ^ 52) with (2 ^ Z.log2 (Zpos p) * 2 ^ (52 - Z.log2 (Zpos p)))
      by (rewrite <- Z.pow_add_r by lia; f_equal; lia).
    replace (2 ^ 53)
      with (2 ^ Z.succ (Z.log2 (Zpos p)) * 2 ^ (52 - Z.log2 (Zpos p)))
      by (rewrite <- Z.pow_add_r by lia; f_equal; lia).
    assert (0 < 2 ^ (52 - Z.log2 (Zpos p))) by (apply Z.pow_pos_nonneg; lia).
    split; [apply Z.mul_le_mono_nonneg_r; lia
           |apply Z.mul_lt_mono_pos_r; lia]. }
  rewrite round_aux_no_shift.
  - exists mz, ez. repeat split; try lia.
    rewrite E1. replace (0 - ez) with (- ez) by lia. reflexivity.
  - rewrite Zdigits2_log2, (log2_binade _ Hmz), fexp_eq. lia.
  - lia.
Qed.

(** [1.0 * y] is not below [y], for [y] with a full mantissa. *)
Lemma mul_one_full (m : positive) e :
  2 ^ 52 <= Zpos m < 2 ^ 53 -> -1074 <= e <= 970 ->
  exists m3 e3,
    fmul one (S754_finite false m e) = S754_finite false m3 e3
    /\ (e3 = e /\ Zpos m <= Zpos m3 \/ e3 = e + 1 /\ Zpos m3 = 2 ^ 52).
Proof.
  intros Hm He. unfold fmul, one, SFmul. simpl xorb.
  unfold binary_round_aux.
  assert (HM : 2 ^ 104 <= Zpos (4503599627370496 * m) < 2 ^ 105).
  { rewrite Pos2Z.inj_mul. change (Zpos 4503599627370496) with (2 ^ 52).
    change (2 ^ 104) with (2 ^ 52 * 2 ^ 52).
    change (2 ^ 105) with (2 ^ 52 * 2 ^ 53). lia. }
  assert (HlM : Z.log2 (Zpos (4503599627370496 * m)) = 104).
  { apply Z.log2_unique; [lia|]. exact HM. }
  destruct (shr_fexp_exact (Zpos (4503599627370496 * m)) (-52 + e))
    as [[Hn _] | [Hn (mrs & E1 & Hq)]]; [lia| |].
  { rewrite Zdigits2_log2, HlM, fexp_eq in Hn. lia. }
  rewrite Zdigits2_log2, HlM, fexp_eq in E1, Hq, Hn.
  replace (Z.max (104 + 1 + (-52 + e) - 53) (-1074) - (-52 + e)) with 52
    in E1, Hq by lia.
  replace (-52 + e + 52) with e in E1 by lia.
  rewrite E1. cbv iota beta.
  assert (Hq' : shr_m mrs = Zpos m).
  { rewrite Hq, Pos2Z.inj_mul.
    change (Zpos 4503599627370496) with (2 ^ 52).
    rewrite Z.mul_comm. apply Z.div_mul. lia. }
  rewrite Hq'.
  set (m2 := round_nearest_even (Zpos m) (loc_of_shr_record mrs)).
  assert (Hm2 : m2 = Zpos m \/ m2 = Zpos m + 1)
    by apply round_nearest_even_range.
  destruct (Z_lt_le_dec m2 (2 ^ 53)) as [Hlt|Hge].
  - assert (Hl2 : Z.log2 m2 = 52) by (apply log2_binade; lia).
    destruct m2 as [|p2|p2] eqn:Ep; try lia.
    destruct (shr_fexp_exact (Zpos p2) e) as [[_ E2] | [Hn2 _]]; [lia| |].
    + rewrite E2. cbv iota beta. simpl shr_m.
      replace (e <=? emax - prec) with true
        by (symmetry; apply Z.leb_le; unfold emax, prec; lia).
      exists p2, e. split; [reflexivity|]. left. lia.
    + rewrite Zdigits2_log2, Hl2, fexp_eq in Hn2. lia.
  - assert (Em2 : m2 = 2 ^ 53) by lia.
    rewrite Em2.
    destruct (shr_fexp_exact (2 ^ 53) e) as [[Hn2 _] | [_ (mrs2 & E2 & Hq2)]];
      [lia| |].
    + change (Zdigits2 (2 ^ 53)) with 54 in Hn2. rewrite fexp_eq in Hn2. lia.
    + change (Zdigits2 (2 ^ 53)) with 54 in E2, Hq2.
      rewrite fexp_eq in E2, Hq2.
      replace (Z.max (54 + e - 53) (-1074) - e) with 1 in E2, Hq2 by lia.
      rewrite E2. cbv iota beta. rewrite Hq2.
      change (2 ^ 53 / 2 ^ 1) with (Zpos 4503599627370496).
      replace (e + 1 <=? emax - prec) with true
        by (symmetry; apply Z.leb_le; unfold emax, prec; lia).
      exists 4503599627370496%positive, (e + 1).
      split; [reflexivity|]. right. split; reflexivity.
Qed.

(** [int(1.0 * h)] is not below [h]. *)
Lemma mul_one_size h :
  0 < h < 2 ^ 31 ->
  exists f b, mul_int one h = Ok f /\ int_of_float f = Ok b /\ h <= b.
Proof.
  intros Hh.
  destruct (float_of_size_exact h Hh) as (m & e & E & He & Hv & Hm).
  unfold mul_int. rewrite E. unfold mbind, result_bind. cbv beta iota.
  destruct (mul_one_full m e Hm) as (m3 & e3 & E3 & Hcase); [lia|].
  rewrite E3. exists (S754_finite false m3 e3).
  assert (Hpow : 0 < 2 ^ (- e)) by (apply Z.pow_pos_nonneg; lia).
  destruct Hcase as [[-> Hle] | [-> Hm3]].
  - destruct e as [|k|k]; try lia.
    eexists. split; [reflexivity|]. split; [reflexivity|].
    rewrite Z.shiftr_div_pow2 by lia.
    change (- Z.neg k) with (Zpos k) in *.
    apply Z.div_le_lower_bound; lia.
  - destruct (e + 1) as [|k|k] eqn:Ek.
    + eexists. split; [reflexivity|]. split; [reflexivity|].
      simpl. assert (e = -1) by lia. subst e. simpl in Hv. lia.
    + lia.
    + eexists. split; [reflexivity|]. split; [reflexivity|].
      rewrite Z.shiftr_div_pow2 by lia. rewrite Hm3.
      apply Z.div_le_lower_bound; [apply Z.pow_pos_nonneg; lia|].
      assert (E2 : 2 ^ (- e) = 2 * 2 ^ Zpos k).
      { replace (- e) with (Z.succ (Zpos k)) by lia.
        apply Z.pow_succ_r. lia. }
      nia.
Qed.

Lemma mul_zero_size n s :
  0 < n < 2 ^ 31 ->
  exists f, mul_int (S754_zero s) n = Ok f /\ int_of_float f = Ok 0.
Proof.
  intros Hn. unfold mul_int.
  destruct (float_of_size n Hn) as (m & e & [[E _] | E]); rewrite E; simpl;
    eexists; split; reflexivity.
Qed.

Lemma py_mod_zero s : py_mod (S754_zero s) one = Ok (S754_zero false).
Proof. now destruct s. Qed.

End TexOrigin.

Section TexSteps.
Import Num Tex TexInv.

Lemma sample_steps image w h u v uw vw fx a fy b :
  size image = (w, h) ->
  py_mod u one = Ok uw -> py_mod v one = Ok vw ->
  mul_int uw w = Ok fx -> int_of_float fx = Ok a ->
  mul_int (fsub one vw) h = Ok fy -> int_of_float fy = Ok b ->
  sample_texture image u v
  = (pix ← getpixel image (Z.min a (w - 1), Z.min b (h - 1)); colour pix).
Proof.
  intros Hs Eu Ev Efx Ea Efy Eb.
  unfold sample_texture, colour. rewrite Hs. unfold mbind, result_bind.
  rewrite Eu, Ev. cbv beta iota.
  rewrite Efx. cbv beta iota. rewrite Ea. cbv beta iota.
  rewrite Efy. cbv beta iota. rewrite Eb. reflexivity.
Qed.

End TexSteps.

(** X20. The origin of texture space is the bottom-left pixel. For an image
    whose sizes are positive and fit a C [int]: with [u = 0] the sampler
    reads column 0, with [v = 0] it reads the last row, [height - 1], and
    with both it returns the colour of the pixel [(0, height - 1)]. *)
Theorem sampler_origin_bottom_left :
  forall image w h,
    TexInv.sized image w h ->
    (forall su v, Num.is_finite v = true ->
       exists b, 0 <= b
         /\ Tex.sample_texture image (S754_zero su) v
            = (pix ← Tex.getpixel image (0, Z.min b (h - 1));
               TexInv.colour pix))
    /\ (forall u sv, Num.is_finite u = true ->
          exists a, 0 <= a
            /\ Tex.sample_texture image u (S754_zero sv)
               = (pix ← Tex.getpixel image (Z.min a (w - 1), h - 1);
                  TexInv.colour pix))
    /\ (forall su sv,
          Tex.sample_texture image (S754_zero su) (S754_zero sv)
          = (pix ← Tex.getpixel image (0, h - 1); TexInv.colour pix)).
Proof.
  intros image w h (Hs & Hw & Hh).
  assert (Hcol : exists fx,
             Tex.mul_int (S754_zero false) w = Ok fx
             /\ Num.int_of_float fx = Ok 0).
  { apply mul_zero_size. assumption. }
  assert (Hrow : exists fy b,
             Tex.mul_int (Num.fsub Tex.one (S754_zero false)) h = Ok fy
             /\ Num.int_of_float fy = Ok b /\ h <= b).
  { change (Num.fsub Tex.one (S754_zero false)) with Tex.one.
    apply mul_one_size. assumption. }
  destruct Hcol as (fx0 & Efx0 & Ea0).
  destruct Hrow as (fy0 & b0 & Efy0 & Eb0 & Hb0).
  split; [|split].
  - intros su v Hv.
    destruct (py_mod_one v Hv) as (vw & Evw & Hvw).
    destruct (mul_unit_size _ h (one_sub_unit vw Hvw) Hh) as (fy & Efy & Hfy).
    destruct (int_of_nonneg fy Hfy) as (b & Eb & _ & Hb).
    exists b. split; [assumption|].
    rewrite (sample_steps image w h _ _ _ _ _ _ _ _ Hs (py_mod_zero su) Evw
               Efx0 Ea0 Efy Eb).
    replace (Z.min 0 (w - 1)) with 0 by lia. reflexivity.
  - intros u sv Hu.
    destruct (py_mod_one u Hu) as (uw & Euw & Huw).
    destruct (mul_unit_size uw w Huw Hw) as (fx & Efx & Hfx).
    destruct (int_of_nonneg fx Hfx) as (a & Ea & _ & Ha).
    exists a. split; [assumption|].
    rewrite (sample_steps image w h _ _ _ _ _ _ _ _ Hs Euw (py_mod_zero sv)
               Efx Ea Efy0 Eb0).
    replace (Z.min b0 (h - 1)) with (h - 1) by lia. reflexivity.
  - intros su sv.
    rewrite (sample_steps image w h _ _ _ _ _ _ _ _ Hs (py_mod_zero su)
               (py_mod_zero sv) Efx0 Ea0 Efy0 Eb0).
    replace (Z.min 0 (w - 1)) with 0 by lia.
    replace (Z.min b0 (h - 1)) with (h - 1) by lia. reflexivity.
Qed.

Lemma sampler_origin_bottom_left_witness :
  Tex.sample_texture TexSpec.checker (S754_zero false) (S754_zero true)
  = Ok (Num.fzero, Num.fzero, Tex.one).
Proof.
  rewrite (proj2 (proj2 (sampler_origin_bottom_left TexSpec.checker 2 2
             (conj eq_refl (conj (conj eq_refl eq_refl)
                                 (conj eq_refl eq_refl)))))).
  reflexivity.
Defined.

(** ** The driver's paths and exits *)

Section MainMore.
Import Main PathSpec.

Lemma rfind_go_spec c s : forall i acc,
  (has_char c s = false /\ rfind_go c s i acc = acc)
  \/ exists a b,
       s = String.append a (String c b) /\ has_char c b = false
       /\ rfind_go c s i acc = i + Z.of_nat (String.length a).
Proof.
  induction s as [|x s IH]; intros i acc; simpl; [auto|].
  destruct (IH (i + 1) (if Ascii.eqb x c then i else acc))
    as [[Hno E] | (a & b & -> & Hb & E)].
  - rewrite Hno, E. destruct (Ascii.eqb x c) eqn:Ex.
    + right. apply Ascii.eqb_eq in Ex. subst x.
      exists "", s. simpl. repeat split; [assumption|lia].
    + left. auto.
  - right. exists (String x a), b. rewrite E. simpl String.length.
    repeat split; [assumption|lia].
Qed.

Lemma substring_prefix a b :
  String.substring 0 (String.length a) (String.append a b) = a.
Proof.
  induction a as [|x a IH]; simpl.
  - now destruct b.
  - change (String.append (String x a) b) with (String x (String.append a b)).
    simpl. now rewrite IH.
Qed.

Lemma append_cancel a b c :
  String.append a b = String.append a c -> b = c.
Proof.
  induction a as [|x a IH]; [auto|].
  change (String x (String.append a b) = String x (String.append a c) -> b = c).
  intros [= H]. auto.
Qed.

Lemma lower_char_y c :
  Str.lower_char c = "y"%char -> c = "y"%char \/ c = "Y"%char.
Proof.
  destruct c as [[] [] [] [] [] [] [] []]; vm_compute; intros H;
    first [discriminate H | left; reflexivity | right; reflexivity].
Qed.

(** The answers that [lower] turns into [y]. *)
Lemma lower_is_y s : Str.lower s = "y" <-> s = "y" \/ s = "Y".
Proof.
  split.
  - destruct s as [|c [|d r]]; simpl; try discriminate.
    intros [= H]. destruct (lower_char_y c H) as [-> | ->]; auto.
  - intros [-> | ->]; reflexivity.
Qed.

Lemma parse_obj_raises fs path e :
  parse_obj fs path = Raise e ->
  e = FileNotFoundError \/ e = IsADirectoryError \/ e = PermissionError
  \/ e = ValueError \/ e = IndexError.
Proof.
  unfold parse_obj, open_read. destruct (fs !! path) as [[text| |]|]; simpl.
  - unfold Obj.parse_text. intros H.
    apply parse_lines_first_error in H as (pre & l & post & obj & _ & _ & H).
    destruct (obj_parse_line_raises _ _ _ H) as [-> | ->]; auto 6.
  - intros [= <-]. auto.
  - intros [= <-]. auto.
  - intros [= <-]. auto.
Qed.

Lemma mtl_parse_lines_raises ls : forall mtl e,
  Mtl.parse_lines mtl ls = Raise e -> e = AssertionError \/ e = ValueError.
Proof.
  induction ls as [|l ls IH]; intros mtl e H; simpl in H; [discriminate|].
  destruct (Mtl.parse_line mtl l) as [mtl1|e1] eqn:E; simpl in H.
  - eapply IH; eassumption.
  - injection H as <-. eapply mtl_parse_line_raises; eassumption.
Qed.

Lemma parse_mtl_raises fs path e :
  parse_mtl fs path = Raise e ->
  e = FileNotFoundError \/ e = IsADirectoryError \/ e = PermissionError
  \/ e = AssertionError \/ e = ValueError.
Proof.
  unfold parse_mtl, open_read. destruct (fs !! path) as [[text| |]|]; simpl.
  - unfold Mtl.parse_text. intros H.
    destruct (mtl_parse_lines_raises _ _ _ H) as [-> | ->]; auto 6.
  - intros [= <-]. auto.
  - intros [= <-]. auto.
  - intros [= <-]. auto.
Qed.

Lemma finish_no_exit fs args con code :
  (finish fs args con).2 <> Raise (SystemExit code).
Proof.
  unfold finish, io_bind, quiet, print.
  destruct (parse_obj fs (obj_in args)) as [obj|e1] eqn:E1.
  - destruct (parse_mtl fs (mtl_path_of args)) as [m|e2] eqn:E2.
    + destruct (can_print con _); discriminate.
    + simpl. intros [= ->].
      destruct (parse_mtl_raises _ _ _ E2) as [?|[?|[?|[?|?]]]]; discriminate.
  - simpl. intros [= ->].
    destruct (parse_obj_raises _ _ _ E1) as [?|[?|[?|[?|?]]]]; discriminate.
Qed.

Lemma main_unfold fs args con :
  main fs args con
  = let run :=
      io_bind (if exists_ fs (obj_out_of args)
               then ask_overwrite con (obj_out_of args) else quiet (Ok tt))
              (fun _ => finish fs args con) in
    (run.1, run.2, fs).
Proof. reflexivity. Qed.

(** [basename] and the last separator *)

Lemma append_empty_r a : String.append a "" = a.
Proof.
  induction a as [|x a IH]; [reflexivity|].
  change (String x (String.append a "") = String x a). now rewrite IH.
Qed.

Lemma has_char_append c a b :
  has_char c (String.append a b) = has_char c a || has_char c b.
Proof.
  induction a as [|x a IH]; [reflexivity|].
  change (String.append (String x a) b) with (String x (String.append a b)).
  cbn [has_char]. now rewrite IH, orb_assoc.
Qed.

Lemma has_char_middle c a b : has_char c (String.append a (String c b)) = true.
Proof.
  rewrite has_char_append. cbn [has_char]. rewrite Ascii.eqb_refl.
  apply orb_true_r.
Qed.

Lemma length_append a b :
  String.length (String.append a b)
  = (String.length a + String.length b)%nat.
Proof.
  induction a as [|x a IH]; [reflexivity|].
  change (String.append (String x a) b) with (String x (String.append a b)).
  cbn [String.length]. now rewrite IH.
Qed.

Lemma rfind_go_append c a x : forall i acc,
  rfind_go c (String.append a x) i acc
  = rfind_go c x (i + Z.of_nat (String.length a)) (rfind_go c a i acc).
Proof.
  induction a as [|y a IH]; intros i acc.
  - cbn [String.length rfind_go]. change (String.append "" x) with x.
    f_equal. lia.
  - change (String.append (String y a) x) with (String y (String.append a x)).
    cbn [rfind_go String.length]. rewrite IH. f_equal. lia.
Qed.

Lemma rfind_go_none c s : forall i acc,
  has_char c s = false -> rfind_go c s i acc = acc.
Proof.
  induction s as [|x s IH]; intros i acc H; [reflexivity|].
  cbn [has_char] in H. apply orb_false_iff in H as [Hx Hs].
  cbn [rfind_go]. rewrite Hx. now apply IH.
Qed.

Lemma rfind_go_lt c s : forall i acc,
  acc < i -> rfind_go c s i acc < i + Z.of_nat (String.length s).
Proof.
  induction s as [|x s IH]; intros i acc H.
  - cbn [rfind_go String.length]. lia.
  - cbn [rfind_go String.length].
    specialize (IH (i + 1) (if Ascii.eqb x c then i else acc)).
    destruct (Ascii.eqb x c); lia.
Qed.

Lemma rfind_go_ge c s : forall i acc,
  acc <= i -> acc <= rfind_go c s i acc.
Proof.
  induction s as [|x s IH]; intros i acc H.
  - cbn [rfind_go]. lia.
  - cbn [rfind_go].
    specialize (IH (i + 1) (if Ascii.eqb x c then i else acc)).
    destruct (Ascii.eqb x c); lia.
Qed.

Lemma rfind_go_found c s i acc :
  has_char c s = true -> i <= rfind_go c s i acc.
Proof.
  intros H. destruct (rfind_go_spec c s i acc)
    as [[Hno _] | (a & b & _ & _ & ->)]; [congruence|lia].
Qed.

(** The last dot of a path is where it is. *)
Lemma last_dot_unique a : forall a' b b',
  String.append a (String "." b) = String.append a' (String "." b') ->
  has_char "." b = false -> has_char "." b' = false ->
  a = a' /\ b = b'.
Proof.
  induction a as [|x a IH]; intros [|x' a'] b b' H Hb Hb'.
  - now injection H as <-.
  - change (String "." b = String x' (String.append a' (String "." b'))) in H.
    injection H as <- ->. now rewrite has_char_middle in Hb.
  - change (String x (String.append a (String "." b)) = String "." b') in H.
    injection H as -> <-. now rewrite has_char_middle in Hb'.
  - change (String x (String.append a (String "." b))
            = String x' (String.append a' (String "." b'))) in H.
    injection H as <- H. destruct (IH _ _ _ H Hb Hb') as [<- <-]. auto.
Qed.

Lemma basename_plain s : has_char "/" s = false -> basename s = s.
Proof. destruct s as [|x s]; [reflexivity|]. cbn [basename]. now intros ->. Qed.

Lemma basename_after_slash a b :
  has_char "/" b = false -> basename (String.append a (String "/" b)) = b.
Proof.
  intros Hb. induction a as [|x a IH].
  - change (String.append "" (String "/" b)) with (String "/" b).
    cbn [basename has_char]. rewrite Ascii.eqb_refl. cbn [orb].
    now apply basename_plain.
  - change (String.append (String x a) (String "/" b))
      with (String x (String.append a (String "/" b))).
    cbn [basename has_char]. rewrite has_char_middle, orb_true_r. exact IH.
Qed.

Lemma substring_skip u v k m :
  String.substring (String.length u + k) m (String.append u v)
  = String.substring k m v.
Proof.
  induction u as [|x u IH]; [reflexivity|].
  change (String.append (String x u) v) with (String x (String.append u v)).
  exact IH.
Qed.

Lemma slice_basename a x :
  slice (String.append a x) (rfind "/" a + 1) (Z.of_nat (String.length a))
  = basename a.
Proof.
  unfold slice, rfind.
  destruct (rfind_go_spec "/" a 0 (-1))
    as [[Hno E] | (a1 & b1 & -> & Hb & E)]; rewrite E.
  - rewrite (basename_plain _ Hno).
    change (Z.to_nat (-1 + 1)) with 0%nat.
    replace (Z.to_nat (Z.of_nat (String.length a) - (-1 + 1)))
      with (String.length a) by lia.
    apply substring_prefix.
  - rewrite (basename_after_slash _ _ Hb), length_append.
    cbn [String.length].
    replace (Z.to_nat (0 + Z.of_nat (String.length a1) + 1))
      with (String.length a1 + 1)%nat by lia.
    replace (Z.to_nat (Z.of_nat (String.length a1 + S (String.length b1))
                       - (0 + Z.of_nat (String.length a1) + 1)))
      with (String.length b1) by lia.
    rewrite append_assoc, substring_skip.
    change (String.append (String "/" b1) x)
      with (String "/" (String.append b1 x)).
    cbn [String.substring]. apply substring_prefix.
Qed.

(** [splitext] cuts the path at its extension when it has one, and not at
    all when it has none. *)
Lemma splitext_root_spec p :
  exists ext,
    p = String.append (splitext_root p) ext
    /\ (extension (splitext_root p) ext
        \/ (ext = ""
            /\ forall root' ext',
                 p = String.append root' ext' -> ~ extension root' ext')).
Proof.
  assert (Hnone : splitext_root p = p ->
            (forall root' r,
               p = String.append root' (String "." r) ->
               has_char "." r = false -> has_char "/" r = false ->
               has_non_dot (basename root') = true -> False) ->
            exists ext,
              p = String.append (splitext_root p) ext
              /\ (extension (splitext_root p) ext
                  \/ (ext = ""
                      /\ forall root' ext',
                           p = String.append root' ext' ->
                           ~ extension root' ext'))).
  { intros -> Hno. exists "". split; [now rewrite append_empty_r|].
    right. split; [reflexivity|].
    intros root' ext' Hp (r & -> & Hd & Hs & Hn). eauto. }
  unfold splitext_root in *. unfold rfind in *.
  destruct (rfind_go_spec "." p 0 (-1)) as [[Hno Ed] | (a & b & -> & Hb & Ed)].
  - rewrite Ed in *.
    pose proof (rfind_go_ge "/" p 0 (-1) ltac:(lia)) as Hge.
    replace (rfind_go "/" p 0 (-1) <? -1) with false in *
      by (symmetry; apply Z.ltb_ge; lia).
    apply Hnone; [reflexivity|].
    intros root' r -> _ _ _. now rewrite has_char_middle in Hno.
  - rewrite Ed in *. clear Ed.
    rewrite rfind_go_append in *. cbn [rfind_go] in *.
    change (Ascii.eqb "." "/") with false in *. cbv iota in *.
    destruct (has_char "/" b) eqn:Hs.
    + pose proof (rfind_go_found "/" b (0 + Z.of_nat (String.length a) + 1)
                    (rfind_go "/" a 0 (-1)) Hs) as Hge.
      replace (rfind_go "/" b (0 + Z.of_nat (String.length a) + 1)
                 (rfind_go "/" a 0 (-1))
               <? 0 + Z.of_nat (String.length a)) with false in *
        by (symmetry; apply Z.ltb_ge; lia).
      apply Hnone; [reflexivity|].
      intros root' r H Hd Hs' _.
      destruct (last_dot_unique _ _ _ _ H Hb Hd) as [_ <-]. congruence.
    + rewrite (rfind_go_none "/" b _ _ Hs) in *.
      pose proof (rfind_go_lt "/" a 0 (-1) ltac:(lia)) as Hlt.
      replace (rfind_go "/" a 0 (-1) <? 0 + Z.of_nat (String.length a))
        with true in * by (symmetry; apply Z.ltb_lt; lia).
      change (0 + Z.of_nat (String.length a))
        with (Z.of_nat (String.length a)) in *.
      fold (rfind "/" a) in *.
      rewrite (slice_basename a (String "." b)) in *. cbn [andb] in *.
      destruct (has_non_dot (basename a)) eqn:Hn.
      * assert (Hroot : slice (String.append a (String "." b)) 0
                          (Z.of_nat (String.length a)) = a).
        { unfold slice. change (Z.to_nat 0) with 0%nat.
          replace (Z.to_nat (Z.of_nat (String.length a) - 0))
            with (String.length a) by lia.
          apply substring_prefix. }
        rewrite Hroot. exists (String "." b). split; [reflexivity|].
        left. exists b. auto.
      * apply Hnone; [reflexivity|].
        intros root' r H Hd _ Hn'.
        destruct (last_dot_unique _ _ _ _ H Hb Hd) as [<- _]. congruence.
Qed.

End MainMore.

(** X21. After the arguments are read, the run exits through [sys.exit]
    exactly when the output file exists, the line read in answer to the
    question is, once trimmed, neither [y] nor [Y], and the terminal can
    write the warning, the question and "Aborted"; the status is then 1,
    those three messages are what the run wrote, and neither input file was
    opened. No other failure ends the run with an exit status: at the end
    of the input the question ends the run with [EOFError]. *)
Theorem main_exits_when_declined :
  forall fs args con,
    let out := Main.obj_out_of args in
    let declined :=
      Main.exists_ fs out = true
      /\ Main.can_print con (Main.Warn_exists out) = true
      /\ Main.can_print con Main.Prompt_overwrite = true
      /\ Main.can_print con Main.Aborted = true
      /\ exists line,
           Main.answer con = Some line
           /\ Str.strip line <> "y" /\ Str.strip line <> "Y" in
    (forall code,
       (Main.main fs args con).1.2 = Raise (SystemExit code)
       <-> code = 1 /\ declined)
    /\ (declined ->
        Main.main fs args con
        = ([Main.Warn_exists out; Main.Prompt_overwrite; Main.Aborted],
           Raise (SystemExit 1), fs))
    /\ (Main.exists_ fs out = true ->
        Main.can_print con (Main.Warn_exists out) = true ->
        Main.can_print con Main.Prompt_overwrite = true ->
        Main.answer con = None ->
        Main.main fs args con
        = ([Main.Warn_exists out; Main.Prompt_overwrite],
           Raise EOFError, fs)).
Proof.
  intros fs args con out declined.
  assert (Hd : declined ->
               Main.main fs args con
               = ([Main.Warn_exists out; Main.Prompt_overwrite; Main.Aborted],
                  Raise (SystemExit 1), fs)).
  { intros (He & Hw & Hq & Ha & line & Hl & Hy1 & Hy2).
    rewrite main_unfold. fold out. rewrite He.
    unfold Main.ask_overwrite, Main.input, Main.print, Main.io_bind,
      Main.quiet.
    rewrite Hw, Hq, Hl, Ha.
    destruct (String.eqb _ "y") eqn:E; [|reflexivity].
    apply String.eqb_eq, lower_is_y in E. tauto. }
  split; [|split; [exact Hd|]].
  - intros code. split; [|intros (-> & Hdec); now rewrite (Hd Hdec)].
    rewrite main_unfold. fold out. cbv zeta. cbn [fst snd].
    pose proof (finish_no_exit fs args con code) as Hfin.
    destruct (PathSpec.finish fs args con) as [w r].
    subst declined. cbv zeta.
    unfold Main.ask_overwrite, Main.input, Main.print, Main.io_bind,
      Main.quiet.
    destruct (Main.exists_ fs out); [|simpl; intros H; now destruct Hfin].
    destruct (Main.can_print con (Main.Warn_exists out)); [|discriminate].
    destruct (Main.can_print con Main.Prompt_overwrite); [|discriminate].
    destruct (Main.answer con) as [line|]; [|discriminate].
    destruct (String.eqb _ "y") eqn:E.
    + simpl. intros H. now destruct Hfin.
    + destruct (Main.can_print con Main.Aborted); [|discriminate].
      simpl. intros [= <-]. apply String.eqb_neq in E.
      rewrite lower_is_y in E. split; [reflexivity|].
      repeat split. exists line. tauto.
  - intros He Hw Hq Hl. rewrite main_unfold. fold out. rewrite He.
    unfold Main.ask_overwrite, Main.input, Main.print, Main.io_bind,
      Main.quiet.
    now rewrite Hw, Hq, Hl.
Qed.

Lemma main_exits_when_declined_witness :
  Main.main (<["m_baked.obj" := Main.Regular "old"]> ∅) MainSpec.plain_args
    (MainSpec.terminal (Some "yes"))
  = ([Main.Warn_exists "m_baked.obj"; Main.Prompt_overwrite; Main.Aborted],
     Raise (SystemExit 1), <["m_baked.obj" := Main.Regular "old"]> ∅).
Proof.
  assert (He : Main.exists_ (<["m_baked.obj" := Main.Regular "old"]> ∅)
                 (Main.obj_out_of MainSpec.plain_args) = true)
    by (vm_compute; reflexivity).
  apply (proj1 (proj2 (main_exits_when_declined
                         (<["m_baked.obj" := Main.Regular "old"]> ∅)
                         MainSpec.plain_args
                         (MainSpec.terminal (Some "yes"))))).
  split; [exact He|]. repeat (split; [reflexivity|]).
  exists "yes". split; [reflexivity|split; discriminate].
Defined.

(** X22. Without an [--out] argument the output path is the input path with
    its extension replaced by [_baked.obj]. The extension starts at the last
    dot of the path, when that dot lies in the last component and has a
    character other than a dot before it there; a path without such a dot
    has no extension and is kept whole. The output path is never the input
    path, so the default never names the mesh that is read. *)
Theorem main_default_output_path :
  forall args,
    Main.out args = None ->
    exists root ext,
      Main.obj_in args = String.append root ext
      /\ Main.obj_out_of args = String.append root "_baked.obj"
      /\ Main.obj_out_of args <> Main.obj_in args
      /\ (PathSpec.extension root ext
          \/ (ext = ""
              /\ forall root' ext',
                   Main.obj_in args = String.append root' ext' ->
                   ~ PathSpec.extension root' ext')).
Proof.
  intros args Hout. unfold Main.obj_out_of. rewrite Hout. simpl.
  destruct (splitext_root_spec (Main.obj_in args)) as (ext & Hp & Hext).
  exists (Main.splitext_root (Main.obj_in args)), ext.
  repeat split; try assumption.
  intros H. rewrite Hp in H at 2. apply append_cancel in H.
  destruct Hext as [(r & -> & _)|[-> _]]; discriminate.
Qed.

Lemma main_default_output_path_witness :
  Main.obj_out_of (Main.mkArgs "models/cube.v2.obj" None None)
  <> "models/cube.v2.obj".
Proof.
  destruct (main_default_output_path
              (Main.mkArgs "models/cube.v2.obj" None None) eq_refl)
    as (root & ext & _ & _ & H & _).
  exact H.
Defined.
